(** * WasteWrangler: a shallow embedding of [waste_wrangler.py]

    The Python class [WasteWrangler] drives a PostgreSQL database through
    psycopg2.  Tables are modelled as lists of rows in physical order, SQL
    queries as list programs, and the connection as an explicit state with
    the committed database, the image seen by the running transaction and
    the failed-transaction flag of PostgreSQL. *)

From Stdlib Require Import ZArith List Ascii String Bool Lia Sorted
  Permutation.
Import ListNotations.
Open Scope Z_scope.

(** ** Time

    [dt.datetime] and [timestamp] both have microsecond resolution: a time
    stamp is the number of microseconds since midnight of day 0, a date is a
    day number.  Time stamps are not bounded here: the model covers the calls
    whose computed time stamps stay within the years of [dt.datetime]; for a
    result past year 9999 psycopg2 raises [ValueError] when it reads it, and
    past its own range PostgreSQL raises an error. *)

Definition usec_per_second : Z := 1000000.
Definition usec_per_minute : Z := 60000000.
Definition usec_per_hour : Z := 3600000000.
Definition usec_per_day : Z := 86400000000.

(** [interval '0.5 hour'] *)
Definition half_hour : Z := 1800000000.

(** [ts::date] *)
Definition date_of (ts : Z) : Z := ts / usec_per_day.

(** [time.replace(hour=h, minute=0, second=0)]: the date and the microsecond
    field of [time] are kept. *)
Definition replace_hour (time h : Z) : Z :=
  date_of time * usec_per_day + h * usec_per_hour + time mod usec_per_second.

(** [dt.datetime.combine(date, dt.time(h, 0))] *)
Definition combine (date h : Z) : Z := date * usec_per_day + h * usec_per_hour.

(** [length / 5] hours, as an interval in microseconds.

    Modelled from the spec: the column type of [route.length] is declared in
    waste_wrangler_schema.ddl, which is not among the sources.  The spec gives
    a trip's end as start + length/5 hours, so the division is exact both in
    Python ([cur.fetchone()[0] / 5]) and in SQL
    ([length / 5 * interval '1 hour']); lengths are whole kilometres, and one
    kilometre takes twelve minutes. *)
Definition trip_duration (length : Z) : Z := length * (12 * usec_per_minute).

(** ** Tables *)

Record Route := mkRoute
  { route_rid : Z; route_wastetype : string; route_length : Z }.

Record TruckType := mkTruckType
  { trucktype_trucktype : string; trucktype_wastetype : string }.

Record Truck := mkTruck
  { truck_tid : Z; truck_trucktype : string; truck_capacity : Z }.

Record Employee := mkEmployee
  { employee_eid : Z; employee_name : string; employee_hiredate : Z }.

Record Driver := mkDriver { driver_eid : Z; driver_trucktype : string }.

Record Technician := mkTechnician
  { technician_eid : Z; technician_trucktype : string }.

Record Facility := mkFacility { facility_fid : Z; facility_wastetype : string }.

(** [INSERT INTO trip VALUES (rid, tid, ttime, volume, eid1, eid2, fid)] *)
Record Trip := mkTrip
  { trip_rid : Z; trip_tid : Z; trip_ttime : Z; trip_volume : option Z;
    trip_eid1 : Z; trip_eid2 : Z; trip_fid : Z }.

(** [INSERT INTO maintenance VALUES (tid, eid, mdate)] *)
Record Maintenance := mkMaintenance
  { maintenance_tid : Z; maintenance_eid : Z; maintenance_mdate : Z }.

(** The views the methods create and drop. *)
Inductive View := notAval_view | availableEmployees_view | availableTrucks_view
                | AvalDriver_view.

Definition View_eqb (v w : View) : bool :=
  match v, w with
  | notAval_view, notAval_view
  | availableEmployees_view, availableEmployees_view
  | availableTrucks_view, availableTrucks_view
  | AvalDriver_view, AvalDriver_view => true
  | _, _ => false
  end.

(** No constraint of the absent schema is modelled: an [INSERT] appends a
    row and never fails. *)
Record Database := mkDatabase
  { route : list Route;
    trucktype : list TruckType;
    truck : list Truck;
    employee : list Employee;
    driver : list Driver;
    technician : list Technician;
    facility : list Facility;
    trip : list Trip;
    maintenance : list Maintenance;
    views : list View }.

Definition set_trip (db : Database) (ts : list Trip) : Database :=
  mkDatabase (route db) (trucktype db) (truck db) (employee db) (driver db)
             (technician db) (facility db) ts (maintenance db) (views db).

Definition set_maintenance (db : Database) (ms : list Maintenance) : Database :=
  mkDatabase (route db) (trucktype db) (truck db) (employee db) (driver db)
             (technician db) (facility db) (trip db) ms (views db).

Definition set_technician (db : Database) (ts : list Technician) : Database :=
  mkDatabase (route db) (trucktype db) (truck db) (employee db) (driver db)
             ts (facility db) (trip db) (maintenance db) (views db).

Definition set_views (db : Database) (vs : list View) : Database :=
  mkDatabase (route db) (trucktype db) (truck db) (employee db) (driver db)
             (technician db) (facility db) (trip db) (maintenance db) vs.

(** ** The connection

    psycopg2 opens a transaction at the first [execute].  [session] is the
    database as the open transaction sees it; outside a transaction it equals
    [committed].  After a statement has failed, PostgreSQL refuses every
    further statement of the transaction ([failed]) until a rollback. *)
Record Connection := mkConnection
  { committed : Database; session : Database; failed : bool }.

Definition rollback (c : Connection) : Connection :=
  mkConnection (committed c) (committed c) false.

Definition commit (c : Connection) : Connection :=
  if failed c then rollback c
  else mkConnection (session c) (session c) false.

(** A statement raised [pg.Error]; the [except] clause returns without a
    rollback. *)
Definition pg_error (c : Connection) : Connection :=
  mkConnection (committed c) (session c) true.

Definition write (c : Connection) (db : Database) : Connection :=
  mkConnection (committed c) db (failed c).

(** What a method call does: it returns a value, or an exception other than
    [pg.Error] (a [TypeError]) leaves the method. *)
Inductive Outcome (A : Type) : Type :=
| Returned (a : A)
| Raised.
Arguments Returned {A} a.
Arguments Raised {A}.

(** ** SQL building blocks *)

Definition mem (x : Z) (l : list Z) : bool := existsb (Z.eqb x) l.

(** [CREATE VIEW v ...] raises when [v] exists. *)
Definition view_exists (v : View) (db : Database) : bool :=
  existsb (View_eqb v) (views db).

(** [DROP VIEW IF EXISTS ...] *)
Definition drop_views (vs : list View) (db : Database) : Database :=
  set_views db (filter (fun v => negb (existsb (View_eqb v) vs)) (views db)).

Definition create_views (vs : list View) (db : Database) : Database :=
  set_views db (vs ++ views db).

(** [ORDER BY]: a stable insertion sort; rows with equal keys stay in scan
    order.  PostgreSQL leaves the order of such rows open: a result that
    names the row picked among equal keys holds for this order. *)
Section OrderBy.
Context {A : Type} (le : A -> A -> bool).

Fixpoint insert_row (x : A) (l : list A) : list A :=
  match l with
  | [] => [x]
  | y :: ys => if le x y then x :: y :: ys else y :: insert_row x ys
  end.

Fixpoint order_by (l : list A) : list A :=
  match l with
  | [] => []
  | x :: xs => insert_row x (order_by xs)
  end.
End OrderBy.

(** [DISTINCT], [UNION], [INTERSECT] and [EXCEPT] yield each row once. *)
Section Distinct.
Context {A : Type} (eqb : A -> A -> bool).

Fixpoint distinct (l : list A) : list A :=
  match l with
  | [] => []
  | x :: xs => if existsb (eqb x) xs then distinct xs else x :: distinct xs
  end.
End Distinct.

(** [(s1, e1) OVERLAPS (s2, e2)] on timestamps, as PostgreSQL evaluates it:
    each pair is put in order; a period is the half-open interval from its
    start to its end, or the single instant when both are equal. *)
Definition overlaps (s1 e1 s2 e2 : Z) : bool :=
  let ts1 := Z.min s1 e1 in
  let te1 := Z.max s1 e1 in
  let ts2 := Z.min s2 e2 in
  let te2 := Z.max s2 e2 in
  if ts2 <? ts1 then ts1 <? te2
  else if ts1 <? ts2 then ts2 <? te1
  else true.

(** A scalar subquery [(SELECT col FROM t WHERE ...)]: no row is NULL, one
    row is its value, more rows raise. *)
Inductive Scalar (A : Type) : Type :=
| SqNull
| SqValue (a : A)
| SqError.
Arguments SqNull {A}.
Arguments SqValue {A} a.
Arguments SqError {A}.

Definition scalar {A : Type} (rows : list A) : Scalar A :=
  match rows with
  | [] => SqNull
  | [a] => SqValue a
  | _ => SqError
  end.

(** ** [schedule_trip] *)

(** [trip NATURAL JOIN route]: the two tables share the column [rid]. *)
Definition trip_join_route (db : Database) : list (Trip * Route) :=
  flat_map (fun t =>
              map (pair t)
                  (filter (fun r => route_rid r =? trip_rid t) (route db)))
           (trip db).

(** The end of a stored trip as the view computes it:
    [ttime + length / 5 * interval '1 hour']. *)
Definition trip_end_of (tr : Trip * Route) : Z :=
  trip_ttime (fst tr) + trip_duration (route_length (snd tr)).

(** View [notAval], created with the parameters [(time, trip_end)]. *)
Definition notAval (db : Database) (time trip_end : Z) : list (Trip * Route) :=
  filter (fun tr =>
            overlaps (time - half_hour) (trip_end + half_hour)
                     (trip_ttime (fst tr)) (trip_end_of tr))
         (trip_join_route db).

(** View [availableEmployees]: rows of [driver]. *)
Definition availableEmployees (db : Database) (time trip_end : Z)
  : list Driver :=
  let na := notAval db time trip_end in
  filter (fun d =>
            negb (mem (driver_eid d) (map (fun tr => trip_eid1 (fst tr)) na))
            && negb (mem (driver_eid d) (map (fun tr => trip_eid2 (fst tr)) na)))
         (driver db).

(** View [availableTrucks]: rows of [truck]. *)
Definition availableTrucks (db : Database) (time trip_end : Z) : list Truck :=
  let na := notAval db time trip_end in
  filter (fun t =>
            negb (mem (truck_tid t) (map (fun tr => trip_tid (fst tr)) na))
            && negb (mem (truck_tid t)
                         (map maintenance_tid
                              (filter (fun m => maintenance_mdate m
                                                - date_of time =? 0)
                                      (maintenance db)))))
         (truck db).

(** [SELECT fid FROM route NATURAL JOIN facility WHERE rid = %s ORDER BY fid]:
    the two tables share the column [wastetype]. *)
Definition facilities_of_route (db : Database) (rid : Z) : list Z :=
  order_by Z.leb
    (flat_map (fun r =>
                 map facility_fid
                     (filter (fun f => String.eqb (facility_wastetype f)
                                                  (route_wastetype r))
                             (facility db)))
              (filter (fun r => route_rid r =? rid) (route db))).

Definition Truck_eqb (a b : Truck) : bool :=
  (truck_tid a =? truck_tid b)
  && String.eqb (truck_trucktype a) (truck_trucktype b)
  && (truck_capacity a =? truck_capacity b).

(** [truck JOIN trucktype USING (trucktype) JOIN route USING (wastetype)
    WHERE rid = %s] has a row for truck [t]. *)
Definition carries_route (db : Database) (rid : Z) (t : Truck) : bool :=
  existsb (fun tt =>
             String.eqb (trucktype_trucktype tt) (truck_trucktype t)
             && existsb (fun r => String.eqb (route_wastetype r)
                                             (trucktype_wastetype tt)
                                  && (route_rid r =? rid))
                        (route db))
          (trucktype db).

(** [ORDER BY capacity DESC, tid] *)
Definition truck_order (a b : Truck) : bool :=
  (truck_capacity b <? truck_capacity a)
  || ((truck_capacity a =? truck_capacity b) && (truck_tid a <=? truck_tid b)).

(** The truck query: the available trucks INTERSECT the trucks that carry
    the waste type of the route, ordered. *)
Definition best_trucks (db : Database) (rid time trip_end : Z) : list Truck :=
  let aval := map truck_tid (availableTrucks db time trip_end) in
  order_by truck_order
    (distinct Truck_eqb
       (filter (fun t => mem (truck_tid t) aval && carries_route db rid t)
               (truck db))).

(** [ORDER BY hiredate, eid] on rows [(eid, trucktype, hiredate)] *)
Definition seniority (a b : Z * string * Z) : bool :=
  let '(eid_a, _, hire_a) := a in
  let '(eid_b, _, hire_b) := b in
  (hire_a <? hire_b) || ((hire_a =? hire_b) && (eid_a <=? eid_b)).

(** [SELECT employee.eid, trucktype FROM availableEmployees NATURAL JOIN
    employee ORDER BY hiredate, employee.eid] *)
Definition employee_rows (db : Database) (time trip_end : Z)
  : list (Z * string) :=
  map fst
    (order_by seniority
       (flat_map (fun d =>
                    map (fun e => (employee_eid e, driver_trucktype d,
                                   employee_hiredate e))
                        (filter (fun e => employee_eid e =? driver_eid d)
                                (employee db)))
                 (availableEmployees db time trip_end))).

(** The [while tup is not None and not_found] loop: the first row that drives
    [trucktype] and is not the employee [eid_one]. *)
Fixpoint scan_second (trucktype : string) (eid_one : Z)
         (rows : list (Z * string)) : option (Z * string) :=
  match rows with
  | [] => None
  | tup :: rest =>
      if String.eqb (snd tup) trucktype && negb (fst tup =? eid_one)
      then Some tup
      else scan_second trucktype eid_one rest
  end.

Definition trip_views : list View :=
  [notAval_view; availableTrucks_view; availableEmployees_view].

Definition insert_trip (db : Database) (t : Trip) : Database :=
  set_trip db (trip db ++ [t]).

Definition schedule_trip (c : Connection) (rid time : Z)
  : Connection * Outcome bool :=
  if failed c then (c, Returned false) else
  let db := session c in
  (* check 1 *)
  match filter (fun r => route_rid r =? rid) (route db) with
  | [] => (rollback c, Returned false)
  | r :: _ =>
    let trip_end := time + trip_duration (route_length r) in
    (* check 4 *)
    if (time <? replace_hour time 8) || (replace_hour time 16 <? time)
       || (replace_hour time 16 <? trip_end)
    then (rollback c, Returned false)
    (* check 3 *)
    else if existsb (fun t => (trip_rid t =? rid)
                              && (date_of (trip_ttime t) - date_of time =? 0))
                    (trip db)
    then (rollback c, Returned false)
    else
    match facilities_of_route db rid with
    | [] => (rollback c, Returned false)
    | best_f :: _ =>
      if existsb (fun v => view_exists v db) trip_views
      then (pg_error c, Returned false)
      else
      let c1 := write c (create_views trip_views db) in
      match best_trucks db rid time trip_end with
      | [] => (rollback c1, Returned false)
      | best_truck :: _ =>
        match employee_rows db time trip_end with
        | [] => (rollback c1, Returned false)
        | best_e_one :: rest =>
          let insert (best_e_two : Z * string) :=
            let t := mkTrip rid (truck_tid best_truck) time None
                            (Z.max (fst best_e_one) (fst best_e_two))
                            (Z.min (fst best_e_one) (fst best_e_two)) best_f in
            (commit (write c1 (drop_views trip_views
                                 (insert_trip (session c1) t))),
             Returned true) in
          if String.eqb (snd best_e_one) (truck_trucktype best_truck)
          then match rest with
               | [] => (c1, Raised)   (* best_e_two[0] on None *)
               | best_e_two :: _ => insert best_e_two
               end
          else match scan_second (truck_trucktype best_truck)
                                 (fst best_e_one) rest with
               | None => (rollback c1, Returned false)
               | Some best_e_two => insert best_e_two
               end
        end
      end
    end
  end.

(** ** [schedule_trips] *)

(** [SELECT trucktype, wastetype FROM trucktype JOIN truck USING (trucktype)
    WHERE %s = tid] *)
Definition truck_rows (db : Database) (tid : Z) : list (string * string) :=
  flat_map (fun tt =>
              map (fun _ => (trucktype_trucktype tt, trucktype_wastetype tt))
                  (filter (fun t => String.eqb (truck_trucktype t)
                                               (trucktype_trucktype tt)
                                    && (tid =? truck_tid t))
                          (truck db)))
           (trucktype db).

Definition on_date (date : Z) (t : Trip) : bool :=
  date_of (trip_ttime t) - date =? 0.

Definition pair_eqb (a b : Z * Z) : bool :=
  (fst a =? fst b) && (snd a =? snd b).

(** Part 1: [SELECT DISTINCT rid, length FROM route WHERE wastetype = %s AND
    rid NOT IN (SELECT rid FROM trip WHERE ttime::date - %s::date = 0)
    ORDER BY rid] *)
Definition aval_route (db : Database) (wastetype : string) (date : Z)
  : list (Z * Z) :=
  order_by (fun a b => fst a <=? fst b)
    (distinct pair_eqb
       (map (fun r => (route_rid r, route_length r))
            (filter (fun r =>
                       String.eqb (route_wastetype r) wastetype
                       && negb (mem (route_rid r)
                                    (map trip_rid
                                         (filter (on_date date) (trip db)))))
                    (route db)))).

(** View [AvalDriver]: the drivers EXCEPT those of a trip on [date]. *)
Definition AvalDriver (db : Database) (date : Z) : list Z :=
  distinct Z.eqb
    (filter (fun e =>
               negb (mem e (map trip_eid1 (filter (on_date date) (trip db))))
               && negb (mem e (map trip_eid2
                                   (filter (on_date date) (trip db)))))
            (map driver_eid (driver db))).

Definition row_eqb (a b : Z * string * Z) : bool :=
  let '(eid_a, tt_a, hire_a) := a in
  let '(eid_b, tt_b, hire_b) := b in
  (eid_a =? eid_b) && String.eqb tt_a tt_b && (hire_a =? hire_b).

(** Part 2: [SELECT DISTINCT eid, trucktype, hiredate FROM driver JOIN
    employee USING (eid) WHERE eid IN (SELECT eid FROM AvalDriver)
    ORDER BY hiredate, eid] *)
Definition driver_rows (db : Database) (date : Z) : list (Z * string) :=
  map fst
    (order_by seniority
       (distinct row_eqb
          (flat_map (fun d =>
                       map (fun e => (driver_eid d, driver_trucktype d,
                                      employee_hiredate e))
                           (filter (fun e => employee_eid e =? driver_eid d)
                                   (employee db)))
                    (filter (fun d => mem (driver_eid d) (AvalDriver db date))
                            (driver db))))).

(** [SELECT fid FROM facility WHERE wastetype = %s ORDER BY fid] *)
Definition facilities_of_wastetype (db : Database) (wastetype : string)
  : list Z :=
  order_by Z.leb
    (map facility_fid
         (filter (fun f => String.eqb (facility_wastetype f) wastetype)
                 (facility db))).

(** Part 3: the [while working_hrs and i < len(route_hrs)] loop over the rows
    [(rid, length)] that are left; it yields the database and the final [i]. *)
Fixpoint trips_loop (db : Database) (tid eid_hi eid_lo fid : Z)
         (start_time off_time : Z) (routes : list (Z * Z)) (i : Z)
  : Database * Z :=
  match routes with
  | [] => (db, i)
  | (rid, len) :: rest =>
      let end_time := start_time + trip_duration len in
      if end_time <? off_time
      then trips_loop
             (insert_trip db (mkTrip rid tid start_time None eid_hi eid_lo fid))
             tid eid_hi eid_lo fid (end_time + half_hour) off_time rest (i + 1)
      else (db, i + 1)               (* working_hrs = False; i += 1 *)
  end.

(** The [except] clause returns [False], the integer 0 of Python. *)
Definition schedule_trips (c : Connection) (tid date : Z)
  : Connection * Outcome Z :=
  if failed c then (c, Returned 0) else
  let db := session c in
  match truck_rows db tid with
  | [] => (rollback c, Returned 0)
  | target_truck :: _ =>
    match aval_route db (snd target_truck) date with
    | [] => (rollback c, Returned 0)
    | routes =>
      if view_exists AvalDriver_view db then (pg_error c, Returned 0) else
      let db1 := create_views [AvalDriver_view] db in
      let c1 := write c db1 in
      match driver_rows db date with
      | [] | [_] => (rollback c1, Returned 0)
      | d_one :: rest =>
        let d_two :=
          if String.eqb (snd d_one) (fst target_truck)
          then hd_error rest
          else scan_second (fst target_truck) (fst d_one) rest in
        match d_two with
        | None => (rollback c1, Returned 0)
        | Some d_two =>
          match facilities_of_wastetype db (snd target_truck) with
          | [] => (rollback c1, Returned 0)
          | fid :: _ =>
            let '(db2, i) :=
              trips_loop db1 tid (Z.max (fst d_one) (fst d_two))
                         (Z.min (fst d_one) (fst d_two)) fid
                         (combine date 8) (combine date 16) routes 0 in
            (commit (write c1 db2), Returned i)
          end
        end
      end
    end
  end.

(** ** [update_technicians]

    The argument is the list [[first name, last name, trucktype]] that
    [_read_qualifications_file] returns. *)
Definition full_name (first last : string) : string :=
  (first ++ " " ++ last)%string.

Fixpoint technicians_loop (db : Database)
         (content : list (string * string * string)) (valid_entries : Z)
  : Database * Z :=
  match content with
  | [] => (db, valid_entries)
  | (first, last, code) :: rest =>
      let valid_type :=
        existsb (fun x => String.eqb (trucktype_trucktype x) code)
                (trucktype db) in
      match filter (fun e => String.eqb (employee_name e)
                                        (full_name first last))
                   (employee db) with
      | [] => technicians_loop db rest valid_entries
      | e :: _ =>
          let eid := employee_eid e in
          let recorded :=
            existsb (fun x => (technician_eid x =? eid)
                              && String.eqb (technician_trucktype x) code)
                    (technician db) in
          let is_driver := existsb (fun d => driver_eid d =? eid) (driver db) in
          if valid_type && negb recorded && negb is_driver
          then technicians_loop
                 (set_technician db (technician db ++ [mkTechnician eid code]))
                 rest (valid_entries + 1)
          else technicians_loop db rest valid_entries
      end
  end.

Definition update_technicians (c : Connection)
           (content : list (string * string * string))
  : Connection * Outcome Z :=
  if failed c then
    match content with
    | [] => (commit c, Returned 0)
    | _ => (c, Returned 0)
    end
  else
  let '(db, n) := technicians_loop (session c) content 0 in
  (commit (write c db), Returned n).

(** ** [_read_qualifications_file]

    The file is the list of its lines as the iteration yields them, each
    with its line end; a character is a code point below 256. *)

(** [ch.isspace()] *)
Definition isspace (ch : ascii) : bool :=
  let n := nat_of_ascii ch in
  (((9 <=? n) && (n <=? 13)) || ((28 <=? n) && (n <=? 32))
   || (n =? 133) || (n =? 160))%nat.

Fixpoint lstrip (s : string) : string :=
  match s with
  | EmptyString => EmptyString
  | String ch rest => if isspace ch then lstrip rest else s
  end.

Fixpoint rstrip (s : string) : string :=
  match s with
  | EmptyString => EmptyString
  | String ch rest =>
      match rstrip rest with
      | EmptyString => if isspace ch then EmptyString
                       else String ch EmptyString
      | kept => String ch kept
      end
  end.

(** [s.strip()] *)
Definition strip (s : string) : string := rstrip (lstrip s).

(** [s.split(' ')]: every space separates, also next to another space. *)
Fixpoint split_space (s : string) : list string :=
  match s with
  | EmptyString => [EmptyString]
  | String ch rest =>
      if Ascii.eqb ch " "
      then EmptyString :: split_space rest
      else match split_space rest with
           | [] => [String ch EmptyString]
           | word :: words => String ch word :: words
           end
  end.

(** [l[-2:]] *)
Definition last_two {A : Type} (l : list A) : list A :=
  skipn (List.length l - 2) l.

(** Two lines make a record; [fname, lname = info] raises a [ValueError]
    unless [info] has two items, and a name line without its second line is
    dropped. *)
Fixpoint _read_qualifications_file (file : list string)
  : Outcome (list (string * string * string)) :=
  match file with
  | [] => Returned []
  | line :: rest =>
      match last_two (split_space (strip line)) with
      | [fname; lname] =>
          match rest with
          | [] => Returned []
          | line' :: rest' =>
              match _read_qualifications_file rest' with
              | Returned result =>
                  Returned ((fname, lname, strip line') :: result)
              | Raised => Raised
              end
          end
      | _ => Raised
      end
  end.


(** ** [workmate_sphere] *)

(** [result.add(x)] on a set kept as a list without duplicates. *)
Definition set_add (x : Z) (s : list Z) : list Z :=
  if mem x s then s else s ++ [x].

(** [(SELECT eid1 FROM trip WHERE eid2 = %s) UNION
     (SELECT eid2 FROM trip WHERE eid1 = %s)] *)
Definition first_layer (db : Database) (eid : Z) : list Z :=
  distinct Z.eqb
    (map trip_eid1 (filter (fun t => trip_eid2 t =? eid) (trip db))
     ++ map trip_eid2 (filter (fun t => trip_eid1 t =? eid) (trip db))).

(** [(SELECT eid1 FROM trip WHERE eid2 = %s AND eid1 <> %s) UNION
     (SELECT eid2 FROM trip WHERE eid1 = %s AND eid2 <> %s)]
    with the parameters [(e, eid, e, eid)] *)
Definition second_layer (db : Database) (e eid : Z) : list Z :=
  distinct Z.eqb
    (map trip_eid1
         (filter (fun t => (trip_eid2 t =? e) && negb (trip_eid1 t =? eid))
                 (trip db))
     ++ map trip_eid2
         (filter (fun t => (trip_eid1 t =? e) && negb (trip_eid2 t =? eid))
                 (trip db))).

Definition sphere_loop (db : Database) (eid : Z) (direct_workmate : list Z)
  : list Z :=
  fold_left (fun result e =>
               fold_left (fun result e_wm => set_add e_wm result)
                         (second_layer db e eid) (set_add e result))
            direct_workmate [].

Definition workmate_sphere (c : Connection) (eid : Z)
  : Connection * Outcome (list Z) :=
  if failed c then (c, Returned []) else
  let db := session c in
  if negb (existsb (fun d => driver_eid d =? eid) (driver db))
  then (rollback c, Returned [])
  else
  match first_layer db eid with
  | [] => (rollback c, Returned [])
  | direct_workmate =>
      (commit c, Returned (sphere_loop db eid direct_workmate))
  end.

(** ** [schedule_maintenance] *)

(** [(SELECT tid FROM maintenance)
     EXCEPT (SELECT tid FROM maintenance WHERE %s::date - mdate::date <= 90)
     EXCEPT (SELECT tid FROM maintenance
             WHERE mdate::date - %s::date <= 10 AND mdate::date - %s::date > 0)]
    The query has no [ORDER BY]; the rows come in scan order. *)
Definition trucks_to_maintain (db : Database) (date : Z) : list Z :=
  let recent :=
    map maintenance_tid
        (filter (fun m => date - maintenance_mdate m <=? 90) (maintenance db)) in
  let soon :=
    map maintenance_tid
        (filter (fun m => (maintenance_mdate m - date <=? 10)
                          && (0 <? maintenance_mdate m - date))
                (maintenance db)) in
  distinct Z.eqb
    (filter (fun t => negb (mem t recent) && negb (mem t soon))
            (map maintenance_tid (maintenance db))).

(** [(SELECT trucktype FROM truck WHERE tid = %s)] *)
Definition trucktype_of (db : Database) (tid : Z) : Scalar string :=
  scalar (map truck_trucktype (filter (fun t => truck_tid t =? tid) (truck db))).

(** [SELECT * FROM technician WHERE trucktype = (...)]; a comparison with
    NULL selects no row. *)
Definition technicians_of (db : Database) (code : string) : list Technician :=
  filter (fun x => String.eqb (technician_trucktype x) code) (technician db).

(** [(SELECT eid FROM technician WHERE trucktype = (...))
     EXCEPT (SELECT eid FROM maintenance WHERE %s::date - mdate::date = 0)
     ORDER BY eid] *)
Definition free_technicians (db : Database) (code : string) (cur_date : Z)
  : list Z :=
  order_by Z.leb
    (distinct Z.eqb
       (filter (fun e =>
                  negb (mem e (map maintenance_eid
                                   (filter (fun m => cur_date
                                                     - maintenance_mdate m =? 0)
                                           (maintenance db)))))
               (map technician_eid (technicians_of db code)))).

Inductive DaySearch :=
| NoTechnician                     (* no technician for the truck type *)
| Found (eid cur_date : Z)         (* a record is inserted *)
| SubqueryError.                   (* the scalar subquery has several rows *)

(** The [while not_found_and_exist_match_technician] loop of one truck; no
    statement of the loop writes before the technician is found.  [fuel]
    bounds the number of iterations. *)
Fixpoint day_search (fuel : nat) (db : Database) (tid cur_date : Z)
  : option DaySearch :=
  match fuel with
  | O => None
  | S fuel' =>
      match trucktype_of db tid with
      | SqError => Some SubqueryError
      | SqNull => Some NoTechnician
      | SqValue code =>
          match technicians_of db code with
          | [] => Some NoTechnician
          | _ =>
              match free_technicians db code cur_date with
              | eid :: _ => Some (Found eid cur_date)
              | [] => day_search fuel' db tid (cur_date + 1)
              end
          end
      end
  end.

(** [eid = cur.fetchone()] is the row [(eid,)]; psycopg2 writes it as the
    parenthesised value in the [INSERT]. *)
Definition insert_maintenance (db : Database) (m : Maintenance) : Database :=
  set_maintenance db (maintenance db ++ [m]).

(** The [for truck in trucks_to_maintain] loop; [None] when the fuel of a day
    search runs out, [Some (db, None)] when a statement raised. *)
Fixpoint maintain_loop (fuel : nat) (db : Database) (date : Z)
         (trucks : list Z) (success : Z) : option (Database * option Z) :=
  match trucks with
  | [] => Some (db, Some success)
  | tid :: rest =>
      match day_search fuel db tid (date + 1) with
      | None => None
      | Some SubqueryError => Some (db, None)
      | Some NoTechnician => maintain_loop fuel db date rest success
      | Some (Found eid cur_date) =>
          maintain_loop fuel
            (insert_maintenance db (mkMaintenance tid eid cur_date))
            date rest (success + 1)
      end
  end.

Definition schedule_maintenance (fuel : nat) (c : Connection) (date : Z)
  : option (Connection * Outcome Z) :=
  if failed c then Some (c, Returned 0) else
  let db := session c in
  match trucks_to_maintain db date with
  | [] => Some (rollback c, Returned 0)
  | trucks =>
      match maintain_loop fuel db date trucks 0 with
      | None => None
      | Some (db', None) => Some (pg_error (write c db'), Returned 0)
      | Some (db', Some success) => Some (commit (write c db'), Returned success)
      end
  end.

(** ** [reroute_waste] *)

(** [SELECT fid FROM facility WHERE wastetype = (SELECT wastetype FROM
    facility WHERE fid = %s) AND fid <> %s ORDER BY fid] *)
Definition alternate_facilities (db : Database) (fid : Z)
  : Scalar (list Z) :=
  match scalar (map facility_wastetype
                    (filter (fun f => facility_fid f =? fid) (facility db))) with
  | SqError => SqError
  | SqNull => SqValue []
  | SqValue w =>
      SqValue (order_by Z.leb
                 (map facility_fid
                      (filter (fun f => String.eqb (facility_wastetype f) w
                                        && negb (facility_fid f =? fid))
                              (facility db))))
  end.

(** [UPDATE trip SET fid = %s WHERE fid = %s AND ttime::date - %s::date = 0].
    The rows are kept in place here; PostgreSQL writes the changed rows anew
    and a later scan may return the table in another order, so the results
    on [reroute_waste] speak of the rows, not of their positions. *)
Definition update_trip_fid (db : Database) (alter_f fid date : Z) : Database :=
  set_trip db
    (map (fun t =>
            if (trip_fid t =? fid) && on_date date t
            then mkTrip (trip_rid t) (trip_tid t) (trip_ttime t) (trip_volume t)
                        (trip_eid1 t) (trip_eid2 t) alter_f
            else t)
         (trip db)).

Definition reroute_waste (c : Connection) (fid date : Z)
  : Connection * Outcome Z :=
  if failed c then (c, Returned 0) else
  let db := session c in
  match filter (fun t => (trip_fid t =? fid) && on_date date t) (trip db) with
  | [] => (rollback c, Returned 0)
  | trips_to_reroute =>
      match alternate_facilities db fid with
      | SqError => (pg_error c, Returned 0)
      | SqValue [] | SqNull => (rollback c, Returned 0)
      | SqValue (alter_f :: _) =>
          (commit (write c (update_trip_fid db alter_f fid date)),
           Returned (Z.of_nat (List.length trips_to_reroute)))
      end
  end.

(** ** Properties the specification speaks of *)

(** Two employees have shared a trip. *)
Inductive workmate (db : Database) : Z -> Z -> Prop :=
| workmate_high_low t :
    In t (trip db) -> workmate db (trip_eid1 t) (trip_eid2 t)
| workmate_low_high t :
    In t (trip db) -> workmate db (trip_eid2 t) (trip_eid1 t).

(** Reachable in one or more hops of the undirected trip graph. *)
Inductive reachable (db : Database) (a : Z) : Z -> Prop :=
| reachable_hop b : workmate db a b -> reachable db a b
| reachable_more b b' :
    reachable db a b -> workmate db b b' -> reachable db a b'.

(** Two trips use the same truck, or have a driver in common. *)
Definition share_resource (a b : Trip) : Prop :=
  trip_tid a = trip_tid b
  \/ trip_eid1 a = trip_eid1 b \/ trip_eid1 a = trip_eid2 b
  \/ trip_eid2 a = trip_eid1 b \/ trip_eid2 a = trip_eid2 b.

(** The windows (start - 30min, end + 30min) of two trips overlap. *)
Definition buffered_overlap (a b : Trip * Route) : Prop :=
  trip_ttime (fst a) - half_hour < trip_end_of b + half_hour
  /\ trip_ttime (fst b) - half_hour < trip_end_of a + half_hour.

(** One trip ends at least 30 minutes before the other starts. *)
Definition apart (a b : Trip * Route) : Prop :=
  trip_end_of a + half_hour <= trip_ttime (fst b)
  \/ trip_end_of b + half_hour <= trip_ttime (fst a).

(** A property [P] holds of every two Trip rows that share a resource, each
    taken with its route. *)
Definition pairwise_trips (P : Trip * Route -> Trip * Route -> Prop)
           (db : Database) : Prop :=
  forall (i j : nat) (a b : Trip) (ra rb : Route),
    i <> j ->
    nth_error (trip db) i = Some a -> nth_error (trip db) j = Some b ->
    share_resource a b ->
    In ra (route db) -> route_rid ra = trip_rid a ->
    In rb (route db) -> route_rid rb = trip_rid b ->
    P (a, ra) (b, rb).

Definition no_buffered_overlap : Database -> Prop :=
  pairwise_trips (fun a b => ~ buffered_overlap a b).

Definition trips_apart : Database -> Prop := pairwise_trips apart.

(** The schema's keys and domains that some results rely on. *)
Definition lengths_nonnegative (db : Database) : Prop :=
  forall r, In r (route db) -> 0 <= route_length r.

Definition route_key (db : Database) : Prop :=
  forall r r', In r (route db) -> In r' (route db) ->
               route_rid r = route_rid r' -> route_length r = route_length r'.

(** The most recent maintenance date of a truck. *)
Definition most_recent (db : Database) (tid : Z) : option Z :=
  match map maintenance_mdate
            (filter (fun m => maintenance_tid m =? tid) (maintenance db)) with
  | [] => None
  | d :: ds => Some (fold_left Z.max ds d)
  end.

(** Every stored trip starts at or after 08:00 and ends by 16:00 of its day. *)
Definition within_working_hours (db : Database) : Prop :=
  forall a ra,
    In a (trip db) -> In ra (route db) -> route_rid ra = trip_rid a ->
    combine (date_of (trip_ttime a)) 8 <= trip_ttime a
    /\ trip_end_of (a, ra) <= combine (date_of (trip_ttime a)) 16.

(** The truck has no trip on the date. *)
Definition truck_free_on (db : Database) (tid date : Z) : Prop :=
  forall a, In a (trip db) -> trip_tid a = tid -> date_of (trip_ttime a) <> date.

(** A stored trip uses the truck or one of the two drivers. *)
Definition uses (tid eid_hi eid_lo : Z) (a : Trip) : Prop :=
  trip_tid a = tid
  \/ trip_eid1 a = eid_hi \/ trip_eid1 a = eid_lo
  \/ trip_eid2 a = eid_hi \/ trip_eid2 a = eid_lo.

(** The invariants speak of the tables [trip] and [route] only. *)
Definition same_trips (db db' : Database) : Prop :=
  trip db' = trip db /\ route db' = route db.

(** The state after a call, table by table, is a state before the call. *)
Definition keeps_trips (c c' : Connection) : Prop :=
  (same_trips (committed c) (committed c')
   \/ same_trips (session c) (committed c'))
  /\ (same_trips (committed c) (session c')
      \/ same_trips (session c) (session c')).

(** The [k] days from [d] on. *)
Fixpoint days_from (d : Z) (k : nat) : list Z :=
  match k with
  | O => []
  | S k' => d :: days_from (d + 1) k'
  end.

(** ** Sample databases *)

Definition at_time (date h m : Z) : Z :=
  date * usec_per_day + h * usec_per_hour + m * usec_per_minute.

Definition idle (db : Database) : Connection := mkConnection db db false.

(** Employees 1-2, 2-3 and 3-4 have each shared one trip. *)
Definition db_chain : Database :=
  mkDatabase
    [mkRoute 1 "compost" 5; mkRoute 2 "compost" 5; mkRoute 3 "compost" 5]
    [mkTruckType "A" "compost"] [mkTruck 1 "A" 10]
    [mkEmployee 1 "a" 0; mkEmployee 2 "b" 0; mkEmployee 3 "c" 0;
     mkEmployee 4 "d" 0]
    [mkDriver 1 "A"; mkDriver 2 "A"; mkDriver 3 "A"; mkDriver 4 "A"] []
    [mkFacility 1 "compost"]
    [mkTrip 1 1 (at_time 0 8 0) None 2 1 1;
     mkTrip 2 1 (at_time 1 8 0) None 3 2 1;
     mkTrip 3 1 (at_time 2 8 0) None 4 3 1] [] [].

(** Routes of two hours, one hour and four hours for truck 1. *)
Definition db_pack : Database :=
  mkDatabase
    [mkRoute 1 "compost" 10; mkRoute 2 "compost" 5; mkRoute 3 "compost" 20]
    [mkTruckType "A" "compost"] [mkTruck 1 "A" 10]
    [mkEmployee 1 "a" 0; mkEmployee 2 "b" 0]
    [mkDriver 1 "A"; mkDriver 2 "A"] [] [mkFacility 1 "compost"] [] [] [].

(** Employee 1 drives the truck types A and B; [first] says which of the two
    rows comes first in the table. *)
Definition db_two_types (first second : string) : Database :=
  mkDatabase
    [mkRoute 1 "compost" 10] [mkTruckType "A" "compost"; mkTruckType "B" "glass"]
    [mkTruck 1 "A" 10]
    [mkEmployee 1 "a" 0; mkEmployee 2 "b" 1; mkEmployee 3 "c" 2]
    [mkDriver 1 first; mkDriver 1 second; mkDriver 2 "B"; mkDriver 3 "A"] []
    [mkFacility 1 "compost"] [] [] [].

(** Route 1 has length 0. *)
Definition db_zero : Database :=
  mkDatabase
    [mkRoute 1 "compost" 0; mkRoute 2 "compost" 5]
    [mkTruckType "A" "compost"] [mkTruck 1 "A" 10]
    [mkEmployee 1 "a" 0; mkEmployee 2 "b" 1]
    [mkDriver 1 "A"; mkDriver 2 "A"] [] [mkFacility 1 "compost"] [] [] [].

(** [db_zero] with a trip on route 1 at 08:00 of day 0. *)
Definition db_instant : Database :=
  set_trip db_zero [mkTrip 1 1 (at_time 0 8 0) None 2 1 1].

(** Truck 1 was maintained on day 0 and is on a trip on day 201. *)
Definition db_overdue : Database :=
  mkDatabase
    [mkRoute 1 "compost" 5] [mkTruckType "A" "compost"] [mkTruck 1 "A" 10]
    [mkEmployee 1 "a" 0; mkEmployee 2 "b" 1; mkEmployee 7 "t" 1]
    [mkDriver 1 "A"; mkDriver 2 "A"] [mkTechnician 7 "A"]
    [mkFacility 1 "compost"]
    [mkTrip 1 1 (at_time 201 8 0) None 2 1 1] [mkMaintenance 1 7 0] [].

(** Truck 1 is on route 1 from 08:00 to 09:00 of day 0 with drivers 2 and 1;
    drivers 3 and 4 are free. *)
Definition db_busy : Database :=
  mkDatabase
    [mkRoute 1 "compost" 5; mkRoute 2 "compost" 5]
    [mkTruckType "A" "compost"] [mkTruck 1 "A" 10]
    [mkEmployee 1 "a" 0; mkEmployee 2 "b" 1; mkEmployee 3 "c" 2;
     mkEmployee 4 "d" 3]
    [mkDriver 1 "A"; mkDriver 2 "A"; mkDriver 3 "A"; mkDriver 4 "A"] []
    [mkFacility 1 "compost"]
    [mkTrip 1 1 (at_time 0 8 0) None 2 1 1] [] [].

(** * Results *)

(** Employee 1 is the only driver. *)
Definition db_one_driver : Database :=
  mkDatabase
    [mkRoute 1 "compost" 5] [mkTruckType "A" "compost"] [mkTruck 1 "A" 10]
    [mkEmployee 1 "a" 0; mkEmployee 2 "b" 1] [mkDriver 1 "A"] []
    [mkFacility 1 "compost"] [] [] [].

(** Ann drives type A, Tom is a technician for type A, Bob is neither. *)
Definition db_import : Database :=
  mkDatabase
    [] [mkTruckType "A" "compost"; mkTruckType "B" "glass"] []
    [mkEmployee 1 "Ann Lee" 0; mkEmployee 2 "Bob Ray" 1;
     mkEmployee 7 "Tom Fox" 2]
    [mkDriver 1 "A"] [mkTechnician 7 "A"] [] [] [] [].

Definition entry (first last code : string) : string * string * string :=
  (first, last, code).

(** A driver, a new qualification, a recorded one, an unknown name, an
    unknown truck type, and the new qualification once more. *)
Definition batch : list (string * string * string) :=
  [entry "Ann" "Lee" "A"; entry "Bob" "Ray" "B"; entry "Tom" "Fox" "A";
   entry "No" "One" "A"; entry "Bob" "Ray" "Z"; entry "Bob" "Ray" "B"].

(** Truck 1 is overdue; technician 7, the only one, is booked on day 201. *)
Definition db_backlog : Database :=
  mkDatabase
    [] [mkTruckType "A" "compost"]
    [mkTruck 1 "A" 10; mkTruck 2 "A" 10] [mkEmployee 7 "t" 1] []
    [mkTechnician 7 "A"] [] []
    [mkMaintenance 1 7 0; mkMaintenance 2 7 201] [].


(** Facilities 1, 3 and 4 take compost; facility 1 gets two trips on day 0
    and one on day 1. *)
Definition db_reroute : Database :=
  mkDatabase
    [mkRoute 1 "compost" 5; mkRoute 2 "compost" 5; mkRoute 3 "compost" 5]
    [mkTruckType "A" "compost"] [mkTruck 1 "A" 10; mkTruck 2 "A" 10]
    [mkEmployee 1 "a" 0; mkEmployee 2 "b" 1; mkEmployee 3 "c" 2;
     mkEmployee 4 "d" 3]
    [mkDriver 1 "A"; mkDriver 2 "A"; mkDriver 3 "A"; mkDriver 4 "A"] []
    [mkFacility 4 "compost"; mkFacility 1 "compost"; mkFacility 2 "glass";
     mkFacility 3 "compost"]
    [mkTrip 1 1 (at_time 0 8 0) None 2 1 1;
     mkTrip 2 2 (at_time 0 8 0) None 4 3 1;
     mkTrip 3 1 (at_time 0 10 0) None 2 1 4;
     mkTrip 1 1 (at_time 1 8 0) None 2 1 1] [] [].

(** The technician and the day of a maintenance record. *)
Definition slot (m : Maintenance) : Z * Z :=
  (maintenance_eid m, maintenance_mdate m).

(** A name or a code without whitespace, and not empty. *)
Fixpoint no_space (s : string) : bool :=
  match s with
  | EmptyString => true
  | String ch rest => negb (isspace ch) && no_space rest
  end.

Definition word (s : string) : bool :=
  negb (String.eqb s EmptyString) && no_space s.

(** The string holds the separator of [split(' ')]. *)
Fixpoint has_space (s : string) : bool :=
  match s with
  | EmptyString => false
  | String ch rest => Ascii.eqb ch " " || has_space rest
  end.

Definition newline : string := String (ascii_of_nat 10) EmptyString.


(** A file of three lines: one record and a name line on its own. *)
Definition sample_file : list string :=
  [("Technician: Bob Ray" ++ newline)%string; ("B" ++ newline)%string;
   ("Ann Lee" ++ newline)%string].

(** The test [if valid:] that one record of a batch passes. *)
Definition accepts (db : Database) (record : string * string * string)
  : bool :=
  let '(first, last, code) := record in
  match filter (fun e => String.eqb (employee_name e) (full_name first last))
               (employee db) with
  | [] => false
  | e :: _ =>
      existsb (fun x => String.eqb (trucktype_trucktype x) code) (trucktype db)
      && negb (existsb (fun x => (technician_eid x =? employee_eid e)
                                 && String.eqb (technician_trucktype x) code)
                       (technician db))
      && negb (existsb (fun d => driver_eid d =? employee_eid e) (driver db))
  end.

(** ** Tactics *)

(** Case analysis on every test and match of an unfolded method. *)
Ltac split_branches H :=
  repeat match type of H with
         | context [if ?b then _ else _] => destruct b eqn:?
         | context [match ?x with _ => _ end] => destruct x eqn:?
         end.

(** Goals about which tables a call leaves as they were. *)
Ltac keeps_trips_tac :=
  unfold keeps_trips, same_trips, commit, rollback, pg_error, write;
  repeat match goal with H : failed _ = _ |- _ => rewrite H end;
  simpl; auto.

(** ** The sphere is cut after two layers *)

Lemma reachable_chain_1_4 : reachable db_chain 1 4.
Proof.
  apply reachable_more with (b := 3).
  - apply reachable_more with (b := 2).
    + apply reachable_hop.
      apply (workmate_low_high db_chain (mkTrip 1 1 (at_time 0 8 0) None 2 1 1)).
      simpl; auto.
    + apply (workmate_low_high db_chain (mkTrip 2 1 (at_time 1 8 0) None 3 2 1)).
      simpl; auto.
  - apply (workmate_low_high db_chain (mkTrip 3 1 (at_time 2 8 0) None 4 3 1)).
    simpl; auto.
Qed.

(** C1 (the code departs from it).  Drivers 1-2, 2-3 and 3-4 have each shared
    a trip, so 4 is reachable from the known driver 1 and is not 1 itself;
    [workmate_sphere 1] returns the first two layers only, 2 and 3, and
    leaves 4 out. *)
Theorem workmate_sphere_stops_at_second_layer :
  existsb (fun d => driver_eid d =? 1) (driver db_chain) = true
  /\ reachable db_chain 1 4
  /\ 4 <> 1
  /\ snd (workmate_sphere (idle db_chain) 1) = Returned [2; 3]
  /\ ~ In 4 [2; 3].
Proof.
  split; [reflexivity|].
  split; [exact reachable_chain_1_4|].
  split; [discriminate|].
  split; [vm_compute; reflexivity|].
  simpl; intros [H|[H|[]]]; discriminate.
Qed.

(** ** The count returned by [schedule_trips] *)

(** C2 (the code departs from it).  With routes of two, one and four hours
    the third route would end at 16:00 and is not inserted: two Trip rows are
    committed, at 08:00 and at 10:30, yet the call returns 3, because [i] is
    also incremented in the iteration that stops the loop. *)
Theorem schedule_trips_counts_the_rejected_route :
  let r := schedule_trips (idle db_pack) 1 0 in
  snd r = Returned 3
  /\ trip (committed (fst r))
     = [mkTrip 1 1 (at_time 0 8 0) None 2 1 1;
        mkTrip 2 1 (at_time 0 10 30) None 2 1 1]
  /\ trip (committed (idle db_pack)) = [].
Proof. vm_compute. repeat split. Qed.

(** ** The driver pair of [schedule_trip] *)

(** C5 (the code departs from it).  Employee 1, the most senior, drives truck
    types A and B, and truck 1 is of type A.  When the row (1, A) comes first,
    [best_e_two] is the next row (1, B): the trip is inserted with employee 1
    as both drivers.  When the row (1, B) comes first, employee 1 is taken as
    not qualified and employee 2, the next in order, is passed over for
    employee 3. *)
Theorem schedule_trip_pairs_a_driver_with_itself :
  (let r := schedule_trip (idle (db_two_types "A" "B")) 1 (at_time 0 8 0) in
   snd r = Returned true
   /\ trip (committed (fst r)) = [mkTrip 1 1 (at_time 0 8 0) None 1 1 1])
  /\ (let r := schedule_trip (idle (db_two_types "B" "A")) 1 (at_time 0 8 0) in
      snd r = Returned true
      /\ trip (committed (fst r)) = [mkTrip 1 1 (at_time 0 8 0) None 3 1 1]).
Proof. vm_compute. repeat split. Qed.

(** ** Maintenance on a day the truck is on a trip *)

(** C8 (the code departs from it).  Truck 1 was last maintained 200 days
    before and is on a trip on day 201; [schedule_maintenance 200] books
    technician 7 for truck 1 on day 201, the day of the trip. *)
Theorem schedule_maintenance_ignores_trips :
  exists c',
    schedule_maintenance 1 (idle db_overdue) 200 = Some (c', Returned 1)
    /\ maintenance (committed c')
       = [mkMaintenance 1 7 0; mkMaintenance 1 7 201]
    /\ exists t, In t (trip (committed c'))
                 /\ trip_tid t = 1 /\ date_of (trip_ttime t) = 201.
Proof.
  eexists. split; [vm_compute; reflexivity|].
  split; [reflexivity|].
  exists (mkTrip 1 1 (at_time 201 8 0) None 2 1 1).
  split; [simpl; auto|]. split; reflexivity.
Qed.

(** ** Lists and queries *)

Lemma mem_In (x : Z) (l : list Z) : mem x l = true <-> In x l.
Proof.
  unfold mem. rewrite existsb_exists. split.
  - intros (y & Hy & E). apply Z.eqb_eq in E. now subst.
  - intros H. exists x. split; [assumption|apply Z.eqb_refl].
Qed.

Lemma mem_false (x : Z) (l : list Z) : mem x l = false <-> ~ In x l.
Proof.
  rewrite <- mem_In. destruct (mem x l); split; congruence.
Qed.

Section QueryLemmas.
Context {A : Type}.

Lemma in_insert_row (le : A -> A -> bool) (x y : A) (l : list A) :
  In x (insert_row le y l) <-> x = y \/ In x l.
Proof.
  induction l as [|z l IH]; simpl.
  - intuition congruence.
  - destruct (le y z); simpl; rewrite ?IH; intuition congruence.
Qed.

Lemma in_order_by (le : A -> A -> bool) (x : A) (l : list A) :
  In x (order_by le l) <-> In x l.
Proof.
  induction l as [|y l IH]; simpl; [tauto|].
  rewrite in_insert_row, IH. intuition congruence.
Qed.

Lemma order_by_nil (le : A -> A -> bool) (l : list A) :
  order_by le l = [] -> l = [].
Proof.
  destruct l as [|y l]; [reflexivity|]. simpl. intros H.
  assert (In y (insert_row le y (order_by le l)))
    by (apply in_insert_row; now left).
  rewrite H in *. contradiction.
Qed.

Variable eqb : A -> A -> bool.
Hypothesis eqb_eq : forall a b, eqb a b = true <-> a = b.

Lemma in_distinct (x : A) (l : list A) : In x (distinct eqb l) <-> In x l.
Proof.
  induction l as [|y l IH]; simpl; [tauto|].
  destruct (existsb (eqb y) l) eqn:E; simpl; rewrite IH.
  - apply existsb_exists in E. destruct E as (z & Hz & E).
    apply eqb_eq in E. subst z. intuition congruence.
  - tauto.
Qed.
End QueryLemmas.

Lemma in_distinct_Z (x : Z) (l : list Z) : In x (distinct Z.eqb l) <-> In x l.
Proof. apply in_distinct. apply Z.eqb_eq. Qed.

(** ** A failed [schedule_trip] writes nothing *)

(** C3.  Whenever [schedule_trip] returns [False], whatever the reason, the
    committed database is the one before the call, and unless the
    transaction is left in the failed state, where PostgreSQL discards it,
    no uncommitted write is pending either. *)
Theorem schedule_trip_failure_changes_nothing
        (c c' : Connection) (rid time : Z) :
  schedule_trip c rid time = (c', Returned false) ->
  committed c' = committed c
  /\ (failed c' = false -> session c' = committed c).
Proof.
  unfold schedule_trip. intros H.
  split_branches H; inversion H; subst; clear H; simpl;
    try (split; [reflexivity|]; intros; try reflexivity; congruence).
Qed.

Lemma schedule_trip_failure_changes_nothing_witness :
  committed (fst (schedule_trip (idle db_busy) 2 (at_time 0 8 0)))
  = committed (idle db_busy)
  /\ (failed (fst (schedule_trip (idle db_busy) 2 (at_time 0 8 0))) = false ->
      session (fst (schedule_trip (idle db_busy) 2 (at_time 0 8 0)))
      = committed (idle db_busy)).
Proof.
  apply (schedule_trip_failure_changes_nothing
           (idle db_busy) _ 2 (at_time 0 8 0)).
  reflexivity.
Defined.

(** ** The trucks due for maintenance *)

Lemma fold_max_bounds (ds : list Z) (d : Z) :
  d <= fold_left Z.max ds d
  /\ (forall x, In x ds -> x <= fold_left Z.max ds d)
  /\ (fold_left Z.max ds d = d \/ In (fold_left Z.max ds d) ds).
Proof.
  revert d. induction ds as [|x ds IH]; intros d; simpl.
  - split; [lia|]. split; [contradiction|now left].
  - destruct (IH (Z.max d x)) as (Hge & Hall & Hin).
    split; [lia|]. split.
    + intros y [->|Hy]; [lia|auto].
    + destruct Hin as [E|Hin]; [|now right; right].
      rewrite E. destruct (Z.max_spec d x) as [[_ ->]|[_ ->]]; auto.
Qed.

Lemma most_recent_spec (db : Database) (tid m : Z) :
  most_recent db tid = Some m <->
  (exists r, In r (maintenance db) /\ maintenance_tid r = tid
             /\ maintenance_mdate r = m)
  /\ (forall r, In r (maintenance db) -> maintenance_tid r = tid ->
                maintenance_mdate r <= m).
Proof.
  unfold most_recent.
  set (rs := filter (fun m => maintenance_tid m =? tid) (maintenance db)).
  assert (Hrs : forall r, In r rs <->
                          In r (maintenance db) /\ maintenance_tid r = tid).
  { intros r. unfold rs. rewrite filter_In, Z.eqb_eq. tauto. }
  destruct (map maintenance_mdate rs) as [|d ds] eqn:E.
  - split; [discriminate|]. intros ((r & Hr & Ht & _) & _).
    assert (In (maintenance_mdate r) (map maintenance_mdate rs))
      by (apply in_map, Hrs; auto).
    rewrite E in *. contradiction.
  - destruct (fold_max_bounds ds d) as (Hge & Hall & Hin).
    assert (Hmem : forall x, In x (d :: ds) <->
                             exists r, In r (maintenance db)
                                       /\ maintenance_tid r = tid
                                       /\ maintenance_mdate r = x).
    { intros x. rewrite <- E, in_map_iff. split.
      - intros (r & <- & Hr). apply Hrs in Hr. exists r. tauto.
      - intros (r & Hr & Ht & <-). exists r. split; [reflexivity|].
        apply Hrs; auto. }
    split.
    + intros [= <-]. split.
      * apply Hmem. simpl. destruct Hin as [->|Hin]; auto.
      * intros r Hr Ht.
        assert (Hx : In (maintenance_mdate r) (d :: ds))
          by (apply Hmem; eauto).
        destruct Hx as [<-|Hx]; auto.
    + intros (Hex & Hle). f_equal. apply Hmem in Hex.
      assert (Hup : fold_left Z.max ds d <= m).
      { assert (Hf : In (fold_left Z.max ds d) (d :: ds))
          by (simpl; destruct Hin as [->|Hin]; auto).
        apply Hmem in Hf. destruct Hf as (r & Hr & Ht & <-). auto. }
      assert (m <= fold_left Z.max ds d)
        by (destruct Hex as [<-|Hx]; auto).
      lia.
Qed.

(** C9.  The trucks [schedule_maintenance] takes as candidates are exactly
    those that have a maintenance record, whose most recent record is more
    than 90 days before [date], and that have no record from [date] to
    [date + 10] inclusive; a truck without any record is never a
    candidate. *)
Theorem trucks_to_maintain_spec (db : Database) (date tid : Z) :
  (In tid (trucks_to_maintain db date) <->
   (exists m, most_recent db tid = Some m /\ 90 < date - m)
   /\ (forall r, In r (maintenance db) -> maintenance_tid r = tid ->
                 ~ (date <= maintenance_mdate r <= date + 10)))
  /\ (most_recent db tid = None -> ~ In tid (trucks_to_maintain db date)).
Proof.
  assert (Hcand : In tid (trucks_to_maintain db date) <->
                  (exists r, In r (maintenance db) /\ maintenance_tid r = tid)
                  /\ (forall r, In r (maintenance db) ->
                                maintenance_tid r = tid ->
                                90 < date - maintenance_mdate r
                                /\ ~ (0 < maintenance_mdate r - date <= 10))).
  { unfold trucks_to_maintain. rewrite in_distinct_Z, filter_In, in_map_iff.
    rewrite andb_true_iff, !negb_true_iff, !mem_false, !in_map_iff.
    split.
    - intros ((r & Ht & Hr) & Hrecent & Hsoon). split; [eauto|].
      intros r' Hr' Ht'. split.
      + destruct (Z.ltb_spec 90 (date - maintenance_mdate r')); [assumption|].
        exfalso. apply Hrecent. exists r'. split; [assumption|].
        apply filter_In. split; [assumption|]. now apply Z.leb_le.
      + intros Hw. apply Hsoon. exists r'. split; [assumption|].
        apply filter_In. split; [assumption|].
        apply andb_true_iff. split; [apply Z.leb_le|apply Z.ltb_lt]; lia.
    - intros ((r & Hr & Ht) & Hall). split; [eauto|]. split.
      + intros (r' & Ht' & Hr'). apply filter_In in Hr'.
        destruct Hr' as (Hr' & Hd). apply Z.leb_le in Hd.
        destruct (Hall r' Hr' Ht'). lia.
      + intros (r' & Ht' & Hr'). apply filter_In in Hr'.
        destruct Hr' as (Hr' & Hd). apply andb_true_iff in Hd.
        destruct Hd as (Hd1 & Hd2). apply Z.leb_le in Hd1.
        apply Z.ltb_lt in Hd2. destruct (Hall r' Hr' Ht'). lia. }
  split.
  - rewrite Hcand. split.
    + intros ((r & Hr & Ht) & Hall).
      destruct (most_recent db tid) as [m|] eqn:E.
      * apply most_recent_spec in E. destruct E as ((r' & Hr' & Ht' & <-) & _).
        split; [exists (maintenance_mdate r'); split; [reflexivity|]|].
        -- now apply Hall.
        -- intros r'' Hr'' Ht''. destruct (Hall r'' Hr'' Ht''). lia.
      * exfalso. unfold most_recent in E.
        assert (Hin : In (maintenance_mdate r)
                         (map maintenance_mdate
                              (filter (fun m => maintenance_tid m =? tid)
                                      (maintenance db)))).
        { apply in_map, filter_In. split; [assumption|]. now apply Z.eqb_eq. }
        destruct (map maintenance_mdate _); [contradiction|discriminate].
    + intros ((m & E & Hm) & Hwin). apply most_recent_spec in E.
      destruct E as ((r & Hr & Ht & <-) & Hle). split; [eauto|].
      intros r' Hr' Ht'. specialize (Hle r' Hr' Ht'). split; lia.
  - intros E Hin. apply Hcand in Hin. destruct Hin as ((r & Hr & Ht) & _).
    unfold most_recent in E.
    assert (Hin : In (maintenance_mdate r)
                     (map maintenance_mdate
                          (filter (fun m => maintenance_tid m =? tid)
                                  (maintenance db)))).
    { apply in_map, filter_In. split; [assumption|]. now apply Z.eqb_eq. }
    destruct (map maintenance_mdate _); [contradiction|discriminate].
Qed.

(** ** Termination of [schedule_maintenance] *)

Lemma days_from_range (k : nat) (d x : Z) :
  In x (days_from d k) -> d <= x < d + Z.of_nat k.
Proof.
  revert d. induction k as [|k IH]; intros d; simpl; [contradiction|].
  intros [<-|H]; [lia|]. apply IH in H. lia.
Qed.

Lemma days_from_NoDup (k : nat) (d : Z) : NoDup (days_from d k).
Proof.
  revert d. induction k as [|k IH]; intros d; simpl; constructor; auto.
  intros H. apply days_from_range in H. lia.
Qed.

Lemma days_from_length (k : nat) (d : Z) : List.length (days_from d k) = k.
Proof. revert d. induction k; intros d; simpl; auto. Qed.

(** When nobody is free on [cur_date], each technician of the type has a
    record on that day. *)
Lemma free_technicians_nil (db : Database) (code : string) (cur_date : Z)
      (x : Technician) :
  free_technicians db code cur_date = [] ->
  In x (technicians_of db code) ->
  exists m, In m (maintenance db)
            /\ maintenance_eid m = technician_eid x
            /\ maintenance_mdate m = cur_date.
Proof.
  unfold free_technicians. intros H Hx. apply order_by_nil in H.
  set (busy := map maintenance_eid _) in H.
  destruct (mem (technician_eid x) busy) eqn:E.
  - apply mem_In in E. unfold busy in E. apply in_map_iff in E.
    destruct E as (m & Hm & Hin). apply filter_In in Hin.
    destruct Hin as (Hin & Hd). apply Z.eqb_eq in Hd.
    exists m. repeat split; auto. lia.
  - exfalso.
    assert (Hin : In (technician_eid x)
                     (distinct Z.eqb
                        (filter (fun e => negb (mem e busy))
                                (map technician_eid (technicians_of db code))))).
    { apply in_distinct_Z, filter_In. split; [now apply in_map|].
      now rewrite E. }
    rewrite H in Hin. contradiction.
Qed.

(** The technician picked is qualified and has no record on the day. *)
Lemma free_technicians_head (db : Database) (code : string) (cur_date eid : Z)
      (rest : list Z) :
  free_technicians db code cur_date = eid :: rest ->
  (exists x, In x (technicians_of db code) /\ technician_eid x = eid)
  /\ (forall m, In m (maintenance db) -> maintenance_eid m = eid ->
                maintenance_mdate m <> cur_date).
Proof.
  unfold free_technicians. intros H.
  assert (Hin : In eid (eid :: rest)) by (now left).
  rewrite <- H in Hin. apply in_order_by, in_distinct_Z, filter_In in Hin.
  destruct Hin as (Hin & Hfree). apply in_map_iff in Hin.
  destruct Hin as (x & Hx & Hin). split; [eauto|].
  intros m Hm He Hd. apply negb_true_iff, mem_false in Hfree. apply Hfree.
  rewrite <- He. apply in_map, filter_In. split; [assumption|].
  apply Z.eqb_eq. lia.
Qed.

(** A search that runs out of fuel has seen a record on each of its days. *)
Lemma day_search_None (fuel : nat) (db : Database) (tid cur_date : Z) :
  day_search fuel db tid cur_date = None ->
  incl (days_from cur_date fuel) (map maintenance_mdate (maintenance db)).
Proof.
  revert cur_date. induction fuel as [|fuel IH]; intros cur_date; simpl.
  - intros _ x [].
  - destruct (trucktype_of db tid) as [|code|]; try discriminate.
    destruct (technicians_of db code) as [|x xs] eqn:Ex; [discriminate|].
    destruct (free_technicians db code cur_date) as [|eid rest] eqn:Ef;
      [|discriminate].
    intros H y [<-|Hy]; [|now apply (IH _ H)].
    destruct (free_technicians_nil db code cur_date x Ef) as (m & Hm & _ & <-).
    + rewrite Ex. now left.
    + now apply in_map.
Qed.

Lemma day_search_mono (fuel fuel' : nat) (db : Database) (tid cur_date : Z)
      (r : DaySearch) :
  day_search fuel db tid cur_date = Some r -> (fuel <= fuel')%nat ->
  day_search fuel' db tid cur_date = Some r.
Proof.
  revert fuel' cur_date. induction fuel as [|fuel IH]; intros fuel' cur_date;
    simpl; [discriminate|].
  intros H Hle. destruct fuel' as [|fuel']; [lia|]. simpl.
  destruct (trucktype_of db tid) as [|code|]; auto.
  destruct (technicians_of db code); auto.
  destruct (free_technicians db code cur_date); auto.
  apply IH; [assumption|lia].
Qed.

(** One more iteration than there are maintenance records always suffices. *)
Lemma day_search_enough (db : Database) (tid cur_date : Z) :
  exists r, forall fuel,
      (List.length (maintenance db) < fuel)%nat ->
      day_search fuel db tid cur_date = Some r.
Proof.
  destruct (day_search (S (List.length (maintenance db))) db tid cur_date)
    as [r|] eqn:E.
  - exists r. intros fuel Hf. apply (day_search_mono _ _ _ _ _ _ E). lia.
  - exfalso. apply day_search_None in E.
    apply NoDup_incl_length in E; [|apply days_from_NoDup].
    rewrite days_from_length, length_map in E. lia.
Qed.

Lemma maintain_loop_enough (date : Z) (trucks : list Z) :
  forall (db : Database) (success : Z),
  exists r, forall fuel,
      (List.length (maintenance db) + List.length trucks < fuel)%nat ->
      maintain_loop fuel db date trucks success = Some r.
Proof.
  induction trucks as [|tid rest IH]; intros db success; simpl.
  - eexists. reflexivity.
  - destruct (day_search_enough db tid (date + 1)) as (r & Hr).
    destruct r as [|eid cur_date|].
    + destruct (IH db success) as (r & Hrest).
      exists r. intros fuel Hf. rewrite Hr by lia. apply Hrest. lia.
    + destruct (IH (insert_maintenance db (mkMaintenance tid eid cur_date))
                   (success + 1)) as (r & Hrest).
      exists r. intros fuel Hf. rewrite Hr by lia. apply Hrest.
      simpl. rewrite length_app. simpl. lia.
    + eexists. intros fuel Hf. rewrite Hr by lia. reflexivity.
Qed.

(** C10.  [schedule_maintenance] terminates on every database: with more
    iterations allowed per truck than there are maintenance records and
    candidate trucks, it returns, and the result does not depend on the
    allowance.  For one truck, the day search leaves at once when no
    technician is qualified for the truck's type, and otherwise it finds,
    within as many days as there are maintenance records, a day on which a
    qualified technician has no record. *)
Theorem schedule_maintenance_terminates (c : Connection) (date : Z) :
  (exists r, forall fuel,
      (List.length (maintenance (session c))
       + List.length (trucks_to_maintain (session c) date) < fuel)%nat ->
      schedule_maintenance fuel c date = Some r)
  /\ (forall db tid cur_date code,
         trucktype_of db tid = SqValue code ->
         match technicians_of db code with
         | [] => day_search 1 db tid cur_date = Some NoTechnician
         | _ :: _ =>
             exists eid day,
               day_search (S (List.length (maintenance db))) db tid cur_date
               = Some (Found eid day)
               /\ cur_date <= day <= cur_date
                                     + Z.of_nat (List.length (maintenance db))
               /\ (exists x, In x (technicians_of db code)
                             /\ technician_eid x = eid)
               /\ (forall m, In m (maintenance db) ->
                             maintenance_eid m = eid ->
                             maintenance_mdate m <> day)
         end).
Proof.
  split.
  - unfold schedule_maintenance. destruct (failed c); [eexists; reflexivity|].
    destruct (trucks_to_maintain (session c) date) as [|tid rest] eqn:E;
      [eexists; reflexivity|].
    destruct (maintain_loop_enough date (tid :: rest) (session c) 0)
      as ([db' [success|]] & Hr);
      eexists; intros fuel Hf; rewrite Hr by assumption; reflexivity.
  - intros db tid cur_date code Ht.
    destruct (technicians_of db code) as [|x xs] eqn:Ex.
    + simpl. now rewrite Ht, Ex.
    + destruct (day_search_enough db tid cur_date) as (r & Hr).
      specialize (Hr (S (List.length (maintenance db))) (Nat.lt_succ_diag_r _)).
      assert (Hfound :
                forall fuel d r,
                  day_search fuel db tid d = Some r ->
                  exists eid day,
                    r = Found eid day
                    /\ d <= day < d + Z.of_nat fuel
                    /\ (exists x, In x (technicians_of db code)
                                  /\ technician_eid x = eid)
                    /\ (forall m, In m (maintenance db) ->
                                  maintenance_eid m = eid ->
                                  maintenance_mdate m <> day)).
      { induction fuel as [|fuel IH]; intros d r'; simpl; [discriminate|].
        rewrite Ht. rewrite Ex.
        destruct (free_technicians db code d) as [|eid rest] eqn:Ef.
        - intros H. destruct (IH _ _ H) as (eid & day & -> & Hd & Hq).
          exists eid, day. split; [reflexivity|]. split; [lia|].
          rewrite <- Ex. assumption.
        - intros [= <-]. exists eid, d. split; [reflexivity|].
          split; [lia|]. rewrite <- Ex.
          exact (free_technicians_head db code d eid rest Ef). }
      destruct (Hfound _ _ _ Hr) as (eid & day & -> & Hd & Hq).
      exists eid, day. split; [assumption|]. split; [lia|].
      rewrite <- Ex. assumption.
Qed.

(** ** Working hours *)

Lemma pair_eqb_eq (a b : Z * Z) : pair_eqb a b = true <-> a = b.
Proof.
  destruct a as [a1 a2], b as [b1 b2]. unfold pair_eqb. simpl.
  rewrite andb_true_iff, !Z.eqb_eq. split; [intros []|intros [=]]; subst; auto.
Qed.

(** The rows of [aval_route] are rows of [route]. *)
Lemma aval_route_In (db : Database) (w : string) (date rid len : Z) :
  In (rid, len) (aval_route db w date) ->
  exists r, In r (route db) /\ route_rid r = rid /\ route_length r = len.
Proof.
  unfold aval_route. rewrite in_order_by, (in_distinct _ pair_eqb_eq).
  rewrite in_map_iff. intros (r & [= <- <-] & Hr). apply filter_In in Hr.
  exists r. tauto.
Qed.

(** What the loop of [schedule_trips] appends: trips of the given truck,
    drivers and facility, on rows of [routes], that start at or after
    [start_time] and end before [off_time]. *)
Lemma trips_loop_spec (tid eid_hi eid_lo fid off_time : Z)
      (routes : list (Z * Z)) :
  forall (db : Database) (start_time i : Z),
    (forall rid len, In (rid, len) routes -> 0 <= len) ->
    exists news,
      fst (trips_loop db tid eid_hi eid_lo fid start_time off_time routes i)
      = set_trip db (trip db ++ news)
      /\ forall t, In t news ->
                   exists len,
                     In (trip_rid t, len) routes
                     /\ start_time <= trip_ttime t
                     /\ trip_ttime t + trip_duration len < off_time
                     /\ trip_tid t = tid
                     /\ trip_eid1 t = eid_hi /\ trip_eid2 t = eid_lo.
Proof.
  induction routes as [|[rid len] rest IH]; intros db start_time i Hlen; simpl.
  - exists []. rewrite app_nil_r. split; [now destruct db|contradiction].
  - assert (0 <= len) by (apply (Hlen rid); now left).
    destruct (Z.ltb_spec (start_time + trip_duration len) off_time) as [Hlt|Hge].
    + destruct (IH (insert_trip db (mkTrip rid tid start_time None
                                           eid_hi eid_lo fid))
                   (start_time + trip_duration len + half_hour) (i + 1))
        as (news & Hdb & Hnews).
      { intros rid' len' H'. apply (Hlen rid'). now right. }
      exists (mkTrip rid tid start_time None eid_hi eid_lo fid :: news).
      split.
      * rewrite Hdb. unfold insert_trip, set_trip. simpl.
        now rewrite <- app_assoc.
      * intros t [<-|Ht]; simpl.
        -- exists len. repeat split; auto; lia.
        -- destruct (Hnews t Ht) as (len' & Hin & Hs & Hrest).
           exists len'. split; [now right|]. split; [|assumption].
           unfold trip_duration, usec_per_minute, half_hour in *. lia.
    + exists []. simpl. rewrite app_nil_r. split; [now destruct db|contradiction].
Qed.

(** Dropping the views a call created gives back the views there were. *)
Lemma View_eqb_eq (v w : View) : View_eqb v w = true <-> v = w.
Proof. destruct v, w; simpl; split; congruence. Qed.

Lemma drop_created_views (vs : list View) (db : Database) (t : Trip) :
  existsb (fun v => view_exists v db) vs = false ->
  drop_views vs (insert_trip (create_views vs db) t) = insert_trip db t.
Proof.
  intros H. unfold drop_views, insert_trip, create_views, set_views, set_trip.
  simpl. f_equal. rewrite filter_app.
  assert (Hvs : filter (fun v => negb (existsb (View_eqb v) vs)) vs = []).
  { assert (Hall : forall l, incl l vs ->
                             filter (fun v => negb (existsb (View_eqb v) vs)) l
                             = []).
    { induction l as [|v l IH]; intros Hl; simpl; [reflexivity|].
      assert (E : existsb (View_eqb v) vs = true).
      { apply existsb_exists. exists v. split; [apply Hl; now left|].
        now apply View_eqb_eq. }
      rewrite E. simpl. apply IH. intros x Hx. apply Hl. now right. }
    apply Hall, incl_refl. }
  rewrite Hvs. simpl.
  assert (Hkeep : forall w, In w (views db) ->
                            negb (existsb (View_eqb w) vs) = true).
  { intros w Hw. apply negb_true_iff.
    destruct (existsb (View_eqb w) vs) eqn:E; [|reflexivity].
    apply existsb_exists in E. destruct E as (v & Hv & E).
    apply View_eqb_eq in E. subst v.
    assert (existsb (fun v => view_exists v db) vs = true); [|congruence].
    apply existsb_exists. exists w. split; [assumption|].
    apply existsb_exists. exists w. split; [assumption|].
    now apply View_eqb_eq. }
  revert Hkeep. generalize (views db) as l.
  induction l as [|w l IH]; intros Hkeep; simpl; [reflexivity|].
  rewrite (Hkeep w) by now left. f_equal. apply IH.
  intros x Hx. apply Hkeep. now right.
Qed.

(** The row the scan finds drives the truck type and is another employee. *)
Lemma scan_second_Some (code : string) (e : Z) (rows : list (Z * string))
      (x : Z * string) :
  scan_second code e rows = Some x ->
  In x rows /\ snd x = code /\ fst x <> e.
Proof.
  induction rows as [|y rows IH]; simpl; [discriminate|].
  destruct (String.eqb (snd y) code && negb (fst y =? e)) eqn:E.
  - intros [= <-]. apply andb_true_iff in E. destruct E as (E1 & E2).
    apply String.eqb_eq in E1. apply negb_true_iff, Z.eqb_neq in E2.
    split; [now left|]. split; assumption.
  - intros H. destruct (IH H) as (Hin & Hx). split; [now right|assumption].
Qed.

(** What a successful [schedule_trip] has gone through. *)
Lemma schedule_trip_success (c c' : Connection) (rid time : Z) :
  schedule_trip c rid time = (c', Returned true) ->
  exists r best_f best_truck best_e_one best_e_two rest,
    let db := session c in
    let trip_end := time + trip_duration (route_length r) in
    let t := mkTrip rid (truck_tid best_truck) time None
                    (Z.max (fst best_e_one) (fst best_e_two))
                    (Z.min (fst best_e_one) (fst best_e_two)) best_f in
    hd_error (filter (fun r => route_rid r =? rid) (route db)) = Some r
    /\ ((time <? replace_hour time 8) || (replace_hour time 16 <? time)
        || (replace_hour time 16 <? trip_end)) = false
    /\ existsb (fun t => (trip_rid t =? rid)
                         && (date_of (trip_ttime t) - date_of time =? 0))
               (trip db) = false
    /\ hd_error (facilities_of_route db rid) = Some best_f
    /\ hd_error (best_trucks db rid time trip_end) = Some best_truck
    /\ employee_rows db time trip_end = best_e_one :: rest
    /\ In best_e_two rest
    /\ c' = mkConnection (insert_trip db t) (insert_trip db t) false.
Proof.
  unfold schedule_trip. intros H.
  split_branches H; inversion H; subst; clear H;
    match goal with
    | Hr : filter _ _ = ?r :: _, Hf : facilities_of_route _ _ = ?f :: _,
      Ht : best_trucks _ _ _ _ = ?t :: _,
      He : employee_rows _ _ _ = ?e1 :: ?rest |- _ =>
        match goal with
        | Hs : scan_second _ _ _ = Some ?e2 |- _ =>
            exists r, f, t, e1, e2, rest
        | |- context [Z.max _ (fst ?e2)] => exists r, f, t, e1, e2, rest
        end;
        cbv zeta; rewrite ?Hr, ?Hf, ?Ht, ?He
    end; simpl;
    (repeat (split; [first [assumption|reflexivity]|]));
    (split;
     [| unfold commit, write; simpl;
        match goal with Hf : failed c = false |- _ => rewrite Hf end;
        rewrite drop_created_views by assumption; reflexivity]).
  - now left.
  - eapply scan_second_Some; eassumption.
Qed.

(** What a [schedule_trips] call that returns has done: nothing, or it has
    committed the trips of its loop. *)
Lemma schedule_trips_cases (c c' : Connection) (tid date i : Z) :
  lengths_nonnegative (session c) ->
  schedule_trips c tid date = (c', Returned i) ->
  (committed c' = committed c /\ (failed c' = false -> session c' = committed c))
  \/ exists target_truck d_one d_two rest fid news,
      let db := session c in
      let db' := set_trip (create_views [AvalDriver_view] db)
                          (trip db ++ news) in
      failed c = false
      /\ hd_error (truck_rows db tid) = Some target_truck
      /\ driver_rows db date = d_one :: rest
      /\ In d_two rest
      /\ hd_error (facilities_of_wastetype db (snd target_truck)) = Some fid
      /\ c' = mkConnection db' db' false
      /\ forall t, In t news ->
                   exists len,
                     In (trip_rid t, len) (aval_route db (snd target_truck) date)
                     /\ combine date 8 <= trip_ttime t
                     /\ trip_ttime t + trip_duration len < combine date 16
                     /\ trip_tid t = tid
                     /\ trip_eid1 t = Z.max (fst d_one) (fst d_two)
                     /\ trip_eid2 t = Z.min (fst d_one) (fst d_two).
Proof.
  intros Hlen. unfold schedule_trips. intros H.
  split_branches H; inversion H; subst; clear H;
    try (left; simpl; split; [reflexivity|]; intros; try reflexivity; congruence).
  all: right.
  all: match goal with
       | Ht : truck_rows _ _ = ?tt :: _, Hd : driver_rows _ _ = ?d1 :: ?rest,
         Hf : facilities_of_wastetype _ _ = ?f :: _, Hr : aval_route _ _ _ = _,
         Hl : trips_loop _ _ ?hi ?lo _ ?s ?o ?routes _ = _ |- _ =>
           destruct (trips_loop_spec tid hi lo f o routes
                       (create_views [AvalDriver_view] (session c)) s 0)
             as (news & Hdb & Hnews);
           [ intros rid' len' Hin; rewrite <- Hr in Hin;
             apply aval_route_In in Hin; destruct Hin as (r' & Hr' & _ & <-);
             now apply Hlen
           | rewrite Hl in Hdb; simpl in Hdb;
             match goal with
             | Hs : _ = Some ?d2 |- _ => exists tt, d1, d2, rest, f, news
             end;
             cbv zeta; rewrite ?Ht, ?Hf, ?Hd, <- ?Hr ]
       end.
  all: simpl; repeat (split; [reflexivity|]).
  all: split;
    [| split; [reflexivity|]; split;
       [ unfold commit, write; simpl; rewrite Heqb; subst d; reflexivity
       | rewrite Heql0; exact Hnews ] ].
  - simpl in Heqo. injection Heqo as <-. now left.
  - apply scan_second_Some in Heqo. exact (proj1 Heqo).
Qed.

Lemma hd_error_filter_In {A : Type} (f : A -> bool) (l : list A) (x : A) :
  hd_error (filter f l) = Some x -> In x l /\ f x = true.
Proof.
  intros H. apply filter_In. destruct (filter f l); [discriminate|].
  injection H as ->. now left.
Qed.

(** C7 (amended).  For routes of non-negative length, a Trip row committed by
    [schedule_trip] for a start time given in whole seconds starts between
    08:00 and 16:00 inclusive and its computed end is at most 16:00; a Trip
    row committed by [schedule_trips] starts in [08:00, 16:00) and its
    computed end is before 16:00. *)
Theorem committed_trips_within_working_hours (c : Connection) :
  lengths_nonnegative (session c) ->
  (forall rid time c',
      time mod usec_per_second = 0 ->
      schedule_trip c rid time = (c', Returned true) ->
      exists t r,
        trip (committed c') = trip (session c) ++ [t]
        /\ trip_rid t = rid /\ trip_ttime t = time
        /\ In r (route (session c)) /\ route_rid r = rid
        /\ combine (date_of time) 8 <= time <= combine (date_of time) 16
        /\ trip_end_of (t, r) <= combine (date_of time) 16)
  /\ (forall tid date c' i,
         schedule_trips c tid date = (c', Returned i) ->
         exists news,
           (trip (committed c') = trip (session c) ++ news
            \/ (trip (committed c') = trip (committed c) /\ news = []))
           /\ forall t, In t news ->
                        exists r,
                          In r (route (session c))
                          /\ route_rid r = trip_rid t
                          /\ combine date 8 <= trip_ttime t < combine date 16
                          /\ trip_end_of (t, r) < combine date 16).
Proof.
  intros Hlen. split.
  - intros rid time c' Hsec H.
    destruct (schedule_trip_success _ _ _ _ H)
      as (r & best_f & best_truck & e1 & e2 & rest & Hr & Hh & _ & _ & _ & _
          & _ & ->).
    apply hd_error_filter_In in Hr. destruct Hr as (Hr & Hrid).
    apply Z.eqb_eq in Hrid.
    apply orb_false_iff in Hh. destruct Hh as (Hh & H3).
    apply orb_false_iff in Hh. destruct Hh as (H1 & H2).
    apply Z.ltb_ge in H1, H2, H3.
    eexists. exists r. simpl. split; [reflexivity|].
    repeat (split; [first [reflexivity|assumption]|]).
    unfold trip_end_of, replace_hour, combine, date_of in *. simpl.
    unfold usec_per_second, usec_per_day, usec_per_hour in *. lia.
  - intros tid date c' i H.
    destruct (schedule_trips_cases _ _ _ _ _ Hlen H)
      as [(Hc & _)|(tt & d1 & d2 & rest & fid & news & _ & _ & _ & _ & _ & ->
                    & Hnews)].
    + exists []. split; [right; split; [now rewrite Hc|reflexivity]|].
      intros t [].
    + exists news. split; [left; reflexivity|].
      intros t Ht. destruct (Hnews t Ht) as (len & Hin & Hs & He & _).
      apply aval_route_In in Hin. destruct Hin as (r & Hr & Hrid & <-).
      exists r. split; [assumption|]. split; [assumption|].
      specialize (Hlen r Hr).
      unfold trip_end_of, trip_duration, usec_per_minute in *. simpl. lia.
Qed.

(** C7, the claim as stated fails: route 1 of [db_zero] has length 0, and
    [schedule_trip] at 16:00 sharp commits a trip that starts at 16:00, which
    is not in [08:00, 16:00). *)
Lemma zero_length_trip_starts_at_16 :
  let r := schedule_trip (idle db_zero) 1 (at_time 0 16 0) in
  snd r = Returned true
  /\ trip (committed (fst r)) = [mkTrip 1 1 (at_time 0 16 0) None 2 1 1]
  /\ ~ (combine 0 8 <= at_time 0 16 0 < combine 0 16).
Proof.
  vm_compute. split; [reflexivity|]. split; [reflexivity|].
  intros [_ H]. discriminate.
Qed.

(** The bound [time.replace(hour=16, minute=0, second=0)] keeps the
    microseconds of [time]: a one-hour trip from 15:00:00.5 is committed
    although it ends half a second after 16:00. *)
Lemma fractional_second_ends_after_16 :
  let time := at_time 0 15 0 + 500000 in
  let r := schedule_trip (idle db_pack) 2 time in
  snd r = Returned true
  /\ trip (committed (fst r)) = [mkTrip 2 1 time None 2 1 1]
  /\ combine 0 16 < time + trip_duration 5.
Proof. vm_compute. repeat split. Qed.

Lemma committed_trips_within_working_hours_witness :
  (exists t r,
      trip (committed (fst (schedule_trip (idle db_pack) 1 (at_time 0 8 0))))
      = trip (session (idle db_pack)) ++ [t]
      /\ trip_rid t = 1 /\ trip_ttime t = at_time 0 8 0
      /\ In r (route (session (idle db_pack))) /\ route_rid r = 1
      /\ combine (date_of (at_time 0 8 0)) 8 <= at_time 0 8 0
         <= combine (date_of (at_time 0 8 0)) 16
      /\ trip_end_of (t, r) <= combine (date_of (at_time 0 8 0)) 16)
  /\ (exists news,
         (trip (committed (fst (schedule_trips (idle db_pack) 1 0)))
          = trip (session (idle db_pack)) ++ news
          \/ (trip (committed (fst (schedule_trips (idle db_pack) 1 0)))
              = trip (committed (idle db_pack)) /\ news = []))
         /\ forall t, In t news ->
                      exists r,
                        In r (route (session (idle db_pack)))
                        /\ route_rid r = trip_rid t
                        /\ combine 0 8 <= trip_ttime t < combine 0 16
                        /\ trip_end_of (t, r) < combine 0 16).
Proof.
  assert (Hlen : lengths_nonnegative (session (idle db_pack))).
  { intros r [<-|[<-|[<-|[]]]]; simpl; lia. }
  destruct (committed_trips_within_working_hours (idle db_pack) Hlen)
    as (Htrip & Htrips).
  split.
  - apply Htrip; reflexivity.
  - apply (Htrips 1 0 _ 3). reflexivity.
Defined.

(** ** Availability *)

Lemma trip_join_route_In (db : Database) (t : Trip) (r : Route) :
  In (t, r) (trip_join_route db) <->
  In t (trip db) /\ In r (route db) /\ route_rid r = trip_rid t.
Proof.
  unfold trip_join_route. rewrite in_flat_map. split.
  - intros (t' & Ht & Hin). apply in_map_iff in Hin.
    destruct Hin as (r' & [= <- <-] & Hr). apply filter_In in Hr.
    destruct Hr as (Hr & E). apply Z.eqb_eq in E. auto.
  - intros (Ht & Hr & E). exists t. split; [assumption|].
    apply in_map, filter_In. split; [assumption|]. now apply Z.eqb_eq.
Qed.

(** [OVERLAPS] between the window of the new trip, widened by 30 minutes on
    both sides, and a stored trip that does not end before it starts. *)
Lemma overlaps_buffered (time trip_end s e : Z) :
  time <= trip_end -> s <= e ->
  (overlaps (time - half_hour) (trip_end + half_hour) s e = true <->
   s - half_hour < trip_end
   /\ (time < e + half_hour \/ (s = e /\ time = e + half_hour))).
Proof.
  intros H1 H2. unfold overlaps, half_hour.
  rewrite (Z.min_l (time - 1800000000)), (Z.max_r (time - 1800000000)) by lia.
  rewrite (Z.min_l s), (Z.max_r s) by lia.
  destruct (Z.ltb_spec s (time - 1800000000)).
  - rewrite Z.ltb_lt. lia.
  - destruct (Z.ltb_spec (time - 1800000000) s).
    + rewrite Z.ltb_lt. lia.
    + split; [intros _; lia|reflexivity].
Qed.

(** C6 (amended).  For routes of non-negative length and a window that does
    not end before it starts, a stored trip is in [notAval] if and only if
    tripStart - 30min < end and start < tripEnd + 30min, or, for a stored
    trip of length 0, start = tripEnd + 30min; an employee (a truck) with a
    stored trip is left out of [availableEmployees] ([availableTrucks]) if and
    only if one of these trips is in [notAval]; a truck with a maintenance
    record on the calendar date of the start is left out as well; and a stored
    trip of positive length that ends exactly 30 minutes before the start, or
    starts exactly 30 minutes after the end, is not in [notAval]. *)
Theorem availability_spec (db : Database) (time trip_end : Z) :
  lengths_nonnegative db ->
  time <= trip_end ->
  (forall tr,
      In tr (notAval db time trip_end) <->
      In tr (trip_join_route db)
      /\ trip_ttime (fst tr) - half_hour < trip_end
      /\ (time < trip_end_of tr + half_hour
          \/ (route_length (snd tr) = 0
              /\ time = trip_end_of tr + half_hour)))
  /\ (forall d,
         In d (availableEmployees db time trip_end) <->
         In d (driver db)
         /\ ~ (exists tr, In tr (notAval db time trip_end)
                          /\ (trip_eid1 (fst tr) = driver_eid d
                              \/ trip_eid2 (fst tr) = driver_eid d)))
  /\ (forall t,
         In t (availableTrucks db time trip_end) <->
         In t (truck db)
         /\ ~ (exists tr, In tr (notAval db time trip_end)
                          /\ trip_tid (fst tr) = truck_tid t)
         /\ ~ (exists m, In m (maintenance db)
                         /\ maintenance_tid m = truck_tid t
                         /\ maintenance_mdate m = date_of time))
  /\ (forall tr,
         In tr (trip_join_route db) -> 0 < route_length (snd tr) ->
         time = trip_end_of tr + half_hour
         \/ trip_end + half_hour = trip_ttime (fst tr) ->
         ~ In tr (notAval db time trip_end)).
Proof.
  intros Hlen Hwin.
  assert (HnotAval :
            forall tr,
              In tr (notAval db time trip_end) <->
              In tr (trip_join_route db)
              /\ trip_ttime (fst tr) - half_hour < trip_end
              /\ (time < trip_end_of tr + half_hour
                  \/ (route_length (snd tr) = 0
                      /\ time = trip_end_of tr + half_hour))).
  { intros [t r]. unfold notAval. rewrite filter_In.
    split; intros (Hin & H); (split; [assumption|]);
      pose proof Hin as Hr; apply trip_join_route_In in Hr;
      destruct Hr as (_ & Hr & _); specialize (Hlen r Hr);
      [apply overlaps_buffered in H|apply overlaps_buffered];
      unfold trip_end_of, trip_duration, usec_per_minute in *; simpl in *;
      lia. }
  split; [exact HnotAval|]. split; [|split].
  - intros d. unfold availableEmployees. rewrite filter_In, andb_true_iff.
    rewrite !negb_true_iff, !mem_false, !in_map_iff.
    split.
    + intros (Hd & H1 & H2). split; [assumption|].
      intros (tr & Htr & [E|E]); [apply H1|apply H2]; eauto.
    + intros (Hd & H). split; [assumption|].
      split; intros (tr & E & Htr); apply H; eauto.
  - intros t. unfold availableTrucks. rewrite filter_In, andb_true_iff.
    rewrite !negb_true_iff, !mem_false, !in_map_iff.
    split.
    + intros (Ht & H1 & H2). split; [assumption|]. split.
      * intros (tr & Htr & E). apply H1. eauto.
      * intros (m & Hm & E & Hd). apply H2. exists m. split; [assumption|].
        apply filter_In. split; [assumption|]. apply Z.eqb_eq. lia.
    + intros (Ht & H1 & H2). split; [assumption|]. split.
      * intros (tr & E & Htr). apply H1. eauto.
      * intros (m & E & Hm). apply filter_In in Hm. destruct Hm as (Hm & Hd).
        apply Z.eqb_eq in Hd. apply H2. exists m. repeat split; auto. lia.
  - intros [t r] Hin Hpos Htouch Hna. apply HnotAval in Hna.
    unfold trip_end_of, trip_duration, usec_per_minute, half_hour in *.
    simpl in *. lia.
Qed.

Lemma availability_spec_witness :
  ~ In (mkTrip 1 1 (at_time 0 8 0) None 2 1 1, mkRoute 1 "compost" 5)
       (notAval db_busy (at_time 0 9 30) (at_time 0 10 30))
  /\ In (mkTruck 1 "A" 10)
        (availableTrucks db_busy (at_time 0 9 30) (at_time 0 10 30)).
Proof.
  assert (Hlen : lengths_nonnegative db_busy).
  { intros r [<-|[<-|[]]]; simpl; lia. }
  assert (Hwin : at_time 0 9 30 <= at_time 0 10 30)
    by (vm_compute; discriminate).
  destruct (availability_spec db_busy _ _ Hlen Hwin)
    as (_ & _ & Htruck & Htouch).
  split.
  - apply Htouch.
    + simpl. now left.
    + simpl. lia.
    + left. reflexivity.
  - apply Htruck. split; [simpl; now left|].
    split; intros (x & Hx & _); vm_compute in Hx; exact Hx.
Defined.

(** C6, the claim as stated fails: the trip of [db_instant] is on a route of
    length 0 and starts and ends at 08:00.  A window from 08:30 to 09:30
    starts exactly 30 minutes after its end, so the two inequalities of the
    claim do not both hold; yet [OVERLAPS] is true for an instant that
    coincides with the start of the widened window, and the truck and both
    drivers of the trip are left out. *)
Lemma instant_trip_blocks_at_30_minutes :
  let tr := (mkTrip 1 1 (at_time 0 8 0) None 2 1 1, mkRoute 1 "compost" 0) in
  let start := at_time 0 8 30 in
  let stop := at_time 0 9 30 in
  In tr (trip_join_route db_instant)
  /\ start = trip_end_of tr + half_hour
  /\ ~ (trip_ttime (fst tr) - half_hour < stop
        /\ start < trip_end_of tr + half_hour)
  /\ In (mkTruck 1 "A" 10) (truck db_instant)
  /\ ~ In (mkTruck 1 "A" 10) (availableTrucks db_instant start stop)
  /\ driver db_instant = [mkDriver 1 "A"; mkDriver 2 "A"]
  /\ availableEmployees db_instant start stop = [].
Proof.
  cbv zeta. split; [simpl; now left|]. split; [reflexivity|].
  split; [intros [_ H]; vm_compute in H; discriminate|].
  split; [simpl; now left|].
  split; [intros H; vm_compute in H; exact H|].
  split; reflexivity.
Qed.

(** ** Trips that share a truck or a driver *)

Lemma same_trips_refl (db : Database) : same_trips db db.
Proof. split; reflexivity. Qed.

Lemma pairwise_trips_same (P : Trip * Route -> Trip * Route -> Prop)
      (db db' : Database) :
  same_trips db db' -> pairwise_trips P db -> pairwise_trips P db'.
Proof.
  intros (Ht & Hr) H. unfold pairwise_trips. rewrite Ht, Hr. exact H.
Qed.

Lemma keeps_trips_apart (c c' : Connection) :
  keeps_trips c c' ->
  trips_apart (committed c) -> trips_apart (session c) ->
  trips_apart (committed c') /\ trips_apart (session c').
Proof.
  unfold trips_apart.
  intros ([H1|H1] & [H2|H2]) Hc Hs; split;
    eapply pairwise_trips_same; eassumption.
Qed.

Lemma schedule_trip_keeps (c c' : Connection) (rid time : Z) (o : Outcome bool) :
  schedule_trip c rid time = (c', o) -> o <> Returned true ->
  keeps_trips c c'.
Proof.
  unfold schedule_trip. intros H Ho.
  split_branches H; inversion H; subst; clear H; try congruence;
    keeps_trips_tac.
Qed.

Lemma technicians_loop_same (content : list (string * string * string)) :
  forall db n, same_trips db (fst (technicians_loop db content n)).
Proof.
  induction content as [|[[first last] code] rest IH]; intros db n; simpl.
  - apply same_trips_refl.
  - destruct (filter _ (employee db)) as [|e es]; [apply IH|].
    destruct (_ && _); [|apply IH].
    destruct (IH (set_technician db
                    (technician db ++ [mkTechnician (employee_eid e) code]))
                 (n + 1)) as (Ht & Hr).
    split; [rewrite Ht|rewrite Hr]; reflexivity.
Qed.

Lemma update_technicians_keeps (c c' : Connection)
      (content : list (string * string * string)) (o : Outcome Z) :
  update_technicians c content = (c', o) -> keeps_trips c c'.
Proof.
  unfold update_technicians. intros H.
  destruct (failed c) eqn:Hf.
  - destruct content; inversion H; subst; keeps_trips_tac.
  - pose proof (technicians_loop_same content (session c) 0) as Hsame.
    destruct (technicians_loop (session c) content 0) as [db n].
    inversion H; subst. destruct Hsame as (Ht & Hr). simpl in Ht, Hr.
    keeps_trips_tac.
Qed.

Lemma workmate_sphere_keeps (c c' : Connection) (eid : Z)
      (o : Outcome (list Z)) :
  workmate_sphere c eid = (c', o) -> keeps_trips c c'.
Proof.
  unfold workmate_sphere. intros H.
  split_branches H; inversion H; subst; clear H; keeps_trips_tac.
Qed.

Lemma maintain_loop_same (fuel : nat) (date : Z) (trucks : list Z) :
  forall db n db' r,
    maintain_loop fuel db date trucks n = Some (db', r) -> same_trips db db'.
Proof.
  induction trucks as [|tid rest IH]; intros db n db' r; simpl.
  - intros [= <- _]. apply same_trips_refl.
  - destruct (day_search fuel db tid (date + 1)) as [[|eid d|]|];
      try discriminate.
    + apply IH.
    + intros H. apply IH in H. destruct H as (Ht & Hr). split; assumption.
    + intros [= <- _]. apply same_trips_refl.
Qed.

Lemma schedule_maintenance_keeps (fuel : nat) (c c' : Connection) (date : Z)
      (o : Outcome Z) :
  schedule_maintenance fuel c date = Some (c', o) -> keeps_trips c c'.
Proof.
  unfold schedule_maintenance. intros H.
  destruct (failed c) eqn:Hf; [inversion H; subst; keeps_trips_tac|].
  destruct (trucks_to_maintain (session c) date) as [|tid rest];
    [inversion H; subst; keeps_trips_tac|].
  destruct (maintain_loop fuel (session c) date (tid :: rest) 0)
    as [[db' r]|] eqn:E; [|discriminate].
  apply maintain_loop_same in E. destruct E as (Ht & Hr).
  destruct r; inversion H; subst; keeps_trips_tac.
Qed.

Lemma apart_sym (a b : Trip * Route) : apart a b -> apart b a.
Proof. unfold apart. tauto. Qed.

Lemma share_resource_sym (a b : Trip) : share_resource a b -> share_resource b a.
Proof. unfold share_resource. intuition congruence. Qed.

Lemma nth_error_snoc {A : Type} (l : list A) (x a : A) (i : nat) :
  nth_error (l ++ [x]) i = Some a ->
  nth_error l i = Some a \/ (i = List.length l /\ a = x).
Proof.
  intros H. destruct (Nat.lt_ge_cases i (List.length l)) as [Hlt|Hge].
  - left. now rewrite nth_error_app1 in H.
  - right. rewrite nth_error_app2 in H by assumption.
    destruct (i - List.length l)%nat as [|k] eqn:E; simpl in H.
    + injection H as <-. split; [lia|reflexivity].
    + destruct k; discriminate.
Qed.

(** A row appended to [trip] keeps the trips apart when it is apart from
    every stored trip it shares a resource with. *)
Lemma insert_trip_apart (db : Database) (t : Trip) :
  trips_apart db ->
  (forall a ra rb,
      In a (trip db) -> share_resource a t ->
      In ra (route db) -> route_rid ra = trip_rid a ->
      In rb (route db) -> route_rid rb = trip_rid t ->
      apart (a, ra) (t, rb)) ->
  trips_apart (insert_trip db t).
Proof.
  intros Hdb Hnew i j a b ra rb Hij Ha Hb Hshare Hra Hrida Hrb Hridb.
  simpl in *. apply nth_error_snoc in Ha, Hb.
  destruct Ha as [Ha|(Hi & ->)], Hb as [Hb|(Hj & ->)].
  - exact (Hdb i j a b ra rb Hij Ha Hb Hshare Hra Hrida Hrb Hridb).
  - apply nth_error_In in Ha. now apply Hnew.
  - apply nth_error_In in Hb. apply apart_sym.
    apply Hnew; auto using share_resource_sym.
  - congruence.
Qed.

Lemma Truck_eqb_eq (a b : Truck) : Truck_eqb a b = true <-> a = b.
Proof.
  destruct a as [t1 c1 k1], b as [t2 c2 k2]. unfold Truck_eqb. simpl.
  rewrite !andb_true_iff, !Z.eqb_eq, String.eqb_eq.
  split; [intros [[-> ->] ->]; reflexivity|intros [= -> -> ->]; auto].
Qed.

(** The truck picked has the id of a row of [availableTrucks]. *)
Lemma best_trucks_available (db : Database) (rid time trip_end : Z)
      (best_truck : Truck) :
  hd_error (best_trucks db rid time trip_end) = Some best_truck ->
  In (truck_tid best_truck) (map truck_tid (availableTrucks db time trip_end)).
Proof.
  intros H.
  assert (Hin : In best_truck (best_trucks db rid time trip_end)).
  { destruct (best_trucks db rid time trip_end); [discriminate|].
    injection H as ->. now left. }
  unfold best_trucks in Hin.
  apply in_order_by, (in_distinct _ Truck_eqb_eq), filter_In in Hin.
  destruct Hin as (_ & Hin). apply andb_true_iff in Hin.
  now apply mem_In.
Qed.

(** Each row of the employee query has the id of a row of
    [availableEmployees]. *)
Lemma employee_rows_available (db : Database) (time trip_end : Z)
      (x : Z * string) :
  In x (employee_rows db time trip_end) ->
  In (fst x) (map driver_eid (availableEmployees db time trip_end)).
Proof.
  unfold employee_rows. rewrite in_map_iff.
  intros ([[eid code] hire] & <- & Hin).
  apply in_order_by, in_flat_map in Hin. destruct Hin as (d & Hd & Hin).
  apply in_map_iff in Hin. destruct Hin as (e & [= <- _ _] & He).
  apply filter_In in He. destruct He as (_ & He). apply Z.eqb_eq in He.
  simpl. rewrite He. now apply in_map.
Qed.

(** A stored trip that shares the truck or a driver of the trip that
    [schedule_trip] inserts is not in [notAval]. *)
Lemma shared_trip_not_in_notAval (db : Database) (time trip_end : Z)
      (tid e1 e2 : Z) (a : Trip) (ra : Route) :
  In tid (map truck_tid (availableTrucks db time trip_end)) ->
  In e1 (map driver_eid (availableEmployees db time trip_end)) ->
  In e2 (map driver_eid (availableEmployees db time trip_end)) ->
  trip_tid a = tid \/ trip_eid1 a = e1 \/ trip_eid1 a = e2
  \/ trip_eid2 a = e1 \/ trip_eid2 a = e2 ->
  ~ In (a, ra) (notAval db time trip_end).
Proof.
  intros Ht H1 H2 Hshare Hna.
  assert (Hemp : forall e,
             In e (map driver_eid (availableEmployees db time trip_end)) ->
             trip_eid1 a <> e /\ trip_eid2 a <> e).
  { intros e He. apply in_map_iff in He. destruct He as (d & <- & Hd).
    unfold availableEmployees in Hd. apply filter_In in Hd.
    destruct Hd as (_ & Hd). apply andb_true_iff in Hd.
    rewrite !negb_true_iff, !mem_false in Hd. destruct Hd as (Hd1 & Hd2).
    split; intros E; [apply Hd1|apply Hd2]; rewrite <- E;
      [exact (in_map (fun tr => trip_eid1 (fst tr)) _ _ Hna)
      |exact (in_map (fun tr => trip_eid2 (fst tr)) _ _ Hna)]. }
  destruct Hshare as [E|Hshare].
  - apply in_map_iff in Ht. destruct Ht as (t & Etid & Ht).
    unfold availableTrucks in Ht. apply filter_In in Ht.
    destruct Ht as (_ & Ht). apply andb_true_iff in Ht.
    destruct Ht as (Ht & _). rewrite negb_true_iff, mem_false in Ht.
    apply Ht. rewrite Etid, <- E.
    exact (in_map (fun tr => trip_tid (fst tr)) _ _ Hna).
  - destruct (Hemp e1 H1), (Hemp e2 H2). intuition congruence.
Qed.

(** A successful [schedule_trip] keeps the trips apart. *)
Lemma schedule_trip_apart (c c' : Connection) (rid time : Z) :
  lengths_nonnegative (session c) -> route_key (session c) ->
  trips_apart (session c) ->
  schedule_trip c rid time = (c', Returned true) ->
  trips_apart (committed c') /\ trips_apart (session c').
Proof.
  intros Hlen Hkey Hinv H.
  destruct (schedule_trip_success _ _ _ _ H)
    as (r & best_f & best_truck & e1 & e2 & rest & Hr & _ & _ & _ & Ht & He
        & He2 & ->).
  apply hd_error_filter_In in Hr. destruct Hr as (Hr & Hrid).
  apply Z.eqb_eq in Hrid.
  apply best_trucks_available in Ht.
  assert (H1 : In (fst e1) (map driver_eid
                              (availableEmployees
                                 (session c) time
                                 (time + trip_duration (route_length r))))).
  { apply employee_rows_available. rewrite He. now left. }
  assert (H2 : In (fst e2) (map driver_eid
                              (availableEmployees
                                 (session c) time
                                 (time + trip_duration (route_length r))))).
  { apply employee_rows_available. rewrite He. now right. }
  simpl. assert (Hgoal : trips_apart (insert_trip (session c)
                           (mkTrip rid (truck_tid best_truck) time None
                                   (Z.max (fst e1) (fst e2))
                                   (Z.min (fst e1) (fst e2)) best_f)));
    [|split; exact Hgoal].
  apply insert_trip_apart; [assumption|].
  intros a ra rb Ha Hshare Hra Hrida Hrb Hridb. simpl in Hridb.
  assert (Hna : ~ In (a, ra) (notAval (session c) time
                                (time + trip_duration (route_length r)))).
  { apply (shared_trip_not_in_notAval _ _ _ (truck_tid best_truck)
                                      (fst e1) (fst e2)); auto.
    unfold share_resource in Hshare. simpl in Hshare.
    destruct (Z.max_spec (fst e1) (fst e2)) as [[_ Emax]|[_ Emax]];
      destruct (Z.min_spec (fst e1) (fst e2)) as [[_ Emin]|[_ Emin]];
      rewrite Emax, Emin in Hshare; tauto. }
  assert (Hjoin : In (a, ra) (trip_join_route (session c)))
    by (apply trip_join_route_In; auto).
  unfold notAval in Hna. rewrite filter_In in Hna.
  assert (Hov : overlaps (time - half_hour)
                         (time + trip_duration (route_length r) + half_hour)
                         (trip_ttime a) (trip_end_of (a, ra)) <> true)
    by tauto.
  pose proof (Hlen r Hr) as Hlr. pose proof (Hlen ra Hra) as Hla.
  assert (Elen : route_length rb = route_length r)
    by (apply Hkey; auto; congruence).
  rewrite overlaps_buffered in Hov;
    unfold apart, trip_end_of, trip_duration, usec_per_minute, half_hour in *;
    simpl in *; rewrite ?Elen; lia.
Qed.

(** [UPDATE trip SET fid = ...] changes no start, truck, driver or route. *)
Lemma update_trip_fid_apart (db : Database) (alter_f fid date : Z) :
  trips_apart db -> trips_apart (update_trip_fid db alter_f fid date).
Proof.
  intros Hdb i j a b ra rb Hij Ha Hb Hshare Hra Hrida Hrb Hridb.
  simpl in *. rewrite nth_error_map in Ha, Hb.
  destruct (nth_error (trip db) i) as [a0|] eqn:Ea; [|discriminate].
  destruct (nth_error (trip db) j) as [b0|] eqn:Eb; [|discriminate].
  injection Ha as <-. injection Hb as <-.
  assert (Hfields :
            forall t,
              let t' := if (trip_fid t =? fid) && on_date date t
                        then mkTrip (trip_rid t) (trip_tid t) (trip_ttime t)
                                    (trip_volume t) (trip_eid1 t) (trip_eid2 t)
                                    alter_f
                        else t in
              trip_rid t' = trip_rid t /\ trip_tid t' = trip_tid t
              /\ trip_ttime t' = trip_ttime t /\ trip_eid1 t' = trip_eid1 t
              /\ trip_eid2 t' = trip_eid2 t).
  { intros t. cbv zeta.
    destruct ((trip_fid t =? fid) && on_date date t); simpl; repeat split. }
  destruct (Hfields a0) as (Ra & Ta & Sa & E1a & E2a).
  destruct (Hfields b0) as (Rb & Tb & Sb & E1b & E2b).
  unfold share_resource in Hshare.
  rewrite Ta, Tb, E1a, E1b, E2a, E2b in Hshare.
  rewrite Ra in Hrida. rewrite Rb in Hridb.
  pose proof (Hdb i j a0 b0 ra rb Hij Ea Eb Hshare Hra Hrida Hrb Hridb) as H.
  unfold apart, trip_end_of in *. simpl in *. rewrite Sa, Sb. exact H.
Qed.

Lemma reroute_waste_apart (c c' : Connection) (fid date : Z) (o : Outcome Z) :
  trips_apart (committed c) -> trips_apart (session c) ->
  reroute_waste c fid date = (c', o) ->
  trips_apart (committed c') /\ trips_apart (session c').
Proof.
  intros Hc Hs. unfold reroute_waste. intros H.
  split_branches H; inversion H; subst; clear H;
    try (eapply keeps_trips_apart; [|eassumption|eassumption];
         keeps_trips_tac; fail).
  all: unfold commit, write; simpl;
    match goal with Hf : failed _ = false |- _ => rewrite Hf end; simpl;
    split; now apply update_trip_fid_apart.
Qed.

Lemma row_eqb_eq (a b : Z * string * Z) : row_eqb a b = true <-> a = b.
Proof.
  destruct a as [[a1 a2] a3], b as [[b1 b2] b3]. unfold row_eqb.
  rewrite !andb_true_iff, !Z.eqb_eq, String.eqb_eq.
  split; [intros [[-> ->] ->]; reflexivity|intros [= -> -> ->]; auto].
Qed.

(** A driver of [driver_rows] is on no trip of the date. *)
Lemma driver_rows_free (db : Database) (date : Z) (x : Z * string) (a : Trip) :
  In x (driver_rows db date) -> In a (trip db) ->
  trip_eid1 a = fst x \/ trip_eid2 a = fst x ->
  date_of (trip_ttime a) <> date.
Proof.
  unfold driver_rows. rewrite in_map_iff.
  intros ([[eid code] hire] & <- & Hin) Ha Hshare Hdate.
  apply in_order_by, (in_distinct _ row_eqb_eq), in_flat_map in Hin.
  destruct Hin as (d & Hd & Hin). apply in_map_iff in Hin.
  destruct Hin as (e & [= <- _ _] & _). apply filter_In in Hd.
  destruct Hd as (_ & Hd). apply mem_In in Hd. unfold AvalDriver in Hd.
  apply in_distinct_Z, filter_In in Hd. destruct Hd as (_ & Hd).
  apply andb_true_iff in Hd. rewrite !negb_true_iff, !mem_false in Hd.
  destruct Hd as (H1 & H2). simpl in Hshare.
  assert (Hon : In a (filter (on_date date) (trip db))).
  { apply filter_In. split; [assumption|]. unfold on_date.
    apply Z.eqb_eq. lia. }
  destruct Hshare as [E|E]; [apply H1|apply H2]; rewrite <- E;
    now apply in_map.
Qed.

(** The loop of [schedule_trips] keeps the trips apart when every stored trip
    of its truck or drivers ends 30 minutes before the loop starts, or starts
    30 minutes after the working day. *)
Lemma trips_loop_apart (tid eid_hi eid_lo fid off_time : Z)
      (routes : list (Z * Z)) :
  forall (db : Database) (start_time i : Z),
    lengths_nonnegative db -> route_key db ->
    (forall rid len, In (rid, len) routes ->
                     exists r, In r (route db) /\ route_rid r = rid
                               /\ route_length r = len) ->
    trips_apart db ->
    (forall a ra, In a (trip db) -> uses tid eid_hi eid_lo a ->
                  In ra (route db) -> route_rid ra = trip_rid a ->
                  trip_end_of (a, ra) + half_hour <= start_time
                  \/ off_time + half_hour <= trip_ttime a) ->
    trips_apart
      (fst (trips_loop db tid eid_hi eid_lo fid start_time off_time routes i)).
Proof.
  induction routes as [|[rid len] rest IH];
    intros db start_time i Hlen Hkey Hroutes Hinv Hold; simpl; [assumption|].
  destruct (Z.ltb_spec (start_time + trip_duration len) off_time) as [Hlt|Hge];
    [|assumption].
  destruct (Hroutes rid len) as (r & Hr & Hrid & Hrlen); [now left|].
  assert (Hnn : 0 <= len) by (rewrite <- Hrlen; now apply Hlen).
  set (t := mkTrip rid tid start_time None eid_hi eid_lo fid).
  assert (Hend : forall rb, In rb (route db) -> route_rid rb = rid ->
                            trip_end_of (t, rb)
                            = start_time + trip_duration len).
  { intros rb Hrb Hridb. unfold trip_end_of. simpl.
    rewrite (Hkey rb r) by (auto; congruence). now rewrite Hrlen. }
  apply IH; try assumption.
  - intros rid' len' H'. apply Hroutes. now right.
  - apply insert_trip_apart; [assumption|].
    intros a ra rb Ha Hshare Hra Hrida Hrb Hridb.
    assert (Huses : uses tid eid_hi eid_lo a).
    { unfold share_resource in Hshare. simpl in Hshare. unfold uses. tauto. }
    destruct (Hold a ra Ha Huses Hra Hrida) as [H|H].
    + left. simpl. exact H.
    + right. rewrite (Hend rb Hrb Hridb). simpl.
      unfold half_hour in *. lia.
  - intros a ra Ha Huses Hra Hrida. simpl in Ha, Hra.
    apply in_app_or in Ha. destruct Ha as [Ha|[<-|[]]].
    + destruct (Hold a ra Ha Huses Hra Hrida) as [H|H]; [left|now right].
      unfold trip_duration, usec_per_minute, half_hour in *. lia.
    + left. rewrite (Hend ra Hra Hrida). lia.
Qed.

(** A trip within the working hours of another day is more than 30 minutes
    away from the working hours of [date]. *)
Lemma other_day_apart (s e date : Z) :
  combine (date_of s) 8 <= s -> e <= combine (date_of s) 16 ->
  date_of s <> date ->
  e + half_hour <= combine date 8 \/ combine date 16 + half_hour <= s.
Proof.
  unfold combine, half_hour, usec_per_day, usec_per_hour.
  generalize (date_of s). intros d. lia.
Qed.

(** [schedule_trips] keeps the trips apart when its truck has no trip on the
    date and the stored trips are within working hours. *)
Lemma schedule_trips_apart (c c' : Connection) (tid date i : Z) :
  lengths_nonnegative (session c) -> route_key (session c) ->
  trips_apart (committed c) -> trips_apart (session c) ->
  within_working_hours (session c) -> truck_free_on (session c) tid date ->
  schedule_trips c tid date = (c', Returned i) ->
  trips_apart (committed c') /\ trips_apart (session c').
Proof.
  intros Hlen Hkey Hc Hs Hwork Hfree. unfold schedule_trips. intros H.
  split_branches H; inversion H; subst; clear H;
    try (eapply keeps_trips_apart; [|eassumption|eassumption];
         keeps_trips_tac; fail).
  all: match goal with
       | Hd : driver_rows _ _ = ?d1 :: ?d2' :: ?rows,
         Hs2 : _ = Some ?d2,
         Hl : trips_loop ?db1 ?tid ?hi ?lo ?f ?s ?o ?routes ?n = (?d, _),
         Hr : aval_route _ ?w _ = ?routes |- _ =>
           assert (Hin1 : In d1 (driver_rows (session c) date))
             by (rewrite Hd; now left);
           assert (Hin2 : In d2 (driver_rows (session c) date))
             by (rewrite Hd; right;
                 first [ simpl in Hs2; injection Hs2 as <-; now left
                       | exact (proj1 (scan_second_Some _ _ _ _ Hs2)) ]);
           assert (Hd' : trips_apart d);
           [ change d with (fst (d, i)); rewrite <- Hl;
             apply trips_loop_apart; try assumption;
             [ intros rid' len' Hin; rewrite <- Hr in Hin;
               now apply aval_route_In in Hin
             | intros a ra Ha Huses Hra Hrida;
               destruct (Hwork a ra Ha Hra Hrida) as (H8 & H16);
               apply other_day_apart; try assumption;
               destruct Huses as [E|Huses];
               [ now apply Hfree
               | destruct (Z.max_spec (fst d1) (fst d2)) as [[_ Emax]|[_ Emax]];
                 destruct (Z.min_spec (fst d1) (fst d2)) as [[_ Emin]|[_ Emin]];
                 rewrite Emax, Emin in Huses;
                 destruct Huses as [E|[E|[E|E]]];
                 first [ apply (driver_rows_free _ _ d1 a Hin1 Ha); tauto
                       | apply (driver_rows_free _ _ d2 a Hin2 Ha); tauto ] ] ]
           | unfold commit, write; simpl;
             match goal with Hf : failed _ = false |- _ => rewrite Hf end;
             simpl; split; exact Hd' ]
       end.
Qed.

(** Where the invariant is kept.  Call two trips apart when one ends at
    least 30 minutes before the other starts.  For routes of non-negative
    length with one length per route id, [schedule_trip],
    [update_technicians], [workmate_sphere], [schedule_maintenance] and
    [reroute_waste] preserve that any two Trip rows sharing a truck or a
    driver are apart.  [schedule_trips] is only shown to preserve it when its
    truck has no Trip on the date and the stored trips lie within working
    hours: the test on the trips of the truck is the one its code lacks. *)
Lemma operations_keep_trips_apart (c : Connection) :
  lengths_nonnegative (session c) -> route_key (session c) ->
  trips_apart (committed c) -> trips_apart (session c) ->
  (forall rid time c' o,
      schedule_trip c rid time = (c', o) ->
      trips_apart (committed c') /\ trips_apart (session c'))
  /\ (forall content c' o,
         update_technicians c content = (c', o) ->
         trips_apart (committed c') /\ trips_apart (session c'))
  /\ (forall eid c' o,
         workmate_sphere c eid = (c', o) ->
         trips_apart (committed c') /\ trips_apart (session c'))
  /\ (forall fuel date c' o,
         schedule_maintenance fuel c date = Some (c', o) ->
         trips_apart (committed c') /\ trips_apart (session c'))
  /\ (forall fid date c' o,
         reroute_waste c fid date = (c', o) ->
         trips_apart (committed c') /\ trips_apart (session c'))
  /\ (forall tid date c' i,
         within_working_hours (session c) ->
         truck_free_on (session c) tid date ->
         schedule_trips c tid date = (c', Returned i) ->
         trips_apart (committed c') /\ trips_apart (session c')).
Proof.
  intros Hlen Hkey Hc Hs. repeat split.
  1, 2: destruct o as [[|]|];
    [ eapply schedule_trip_apart; eassumption
    | eapply keeps_trips_apart; [|eassumption..];
      eapply schedule_trip_keeps; [eassumption|discriminate]
    | eapply keeps_trips_apart; [|eassumption..];
      eapply schedule_trip_keeps; [eassumption|discriminate] ].
  1, 2: eapply keeps_trips_apart; [|eassumption..];
    eapply update_technicians_keeps; eassumption.
  1, 2: eapply keeps_trips_apart; [|eassumption..];
    eapply workmate_sphere_keeps; eassumption.
  1, 2: eapply keeps_trips_apart; [|eassumption..];
    eapply schedule_maintenance_keeps; eassumption.
  1, 2: eapply reroute_waste_apart; [| |eassumption]; assumption.
  1, 2: eapply schedule_trips_apart; [| | | | | |eassumption]; assumption.
Qed.

Lemma pairwise_trips_single (P : Trip * Route -> Trip * Route -> Prop)
      (db : Database) (t : Trip) :
  trip db = [t] -> pairwise_trips P db.
Proof.
  intros E i j a b ra rb Hij Ha Hb. rewrite E in Ha, Hb.
  destruct i as [|i], j as [|j]; simpl in *; try congruence;
    [destruct j|destruct i|destruct i]; discriminate.
Qed.

Lemma pairwise_trips_fails (P : Trip * Route -> Trip * Route -> Prop)
      (db : Database) (i j : nat) (a b : Trip) (ra rb : Route) :
  i <> j ->
  nth_error (trip db) i = Some a -> nth_error (trip db) j = Some b ->
  share_resource a b ->
  In ra (route db) -> route_rid ra = trip_rid a ->
  In rb (route db) -> route_rid rb = trip_rid b ->
  ~ P (a, ra) (b, rb) ->
  ~ pairwise_trips P db.
Proof.
  intros Hij Ha Hb Hshare Hra Hrida Hrb Hridb HP H.
  exact (HP (H i j a b ra rb Hij Ha Hb Hshare Hra Hrida Hrb Hridb)).
Qed.

Lemma db_busy_well_formed :
  lengths_nonnegative db_busy /\ route_key db_busy /\ trips_apart db_busy.
Proof.
  split; [|split].
  - intros r [<-|[<-|[]]]; simpl; lia.
  - intros r r' [<-|[<-|[]]] [<-|[<-|[]]]; simpl; congruence.
  - now apply (pairwise_trips_single _ _ (mkTrip 1 1 (at_time 0 8 0) None 2 1 1)).
Qed.

Lemma operations_keep_trips_apart_witness :
  trips_apart
    (committed (fst (schedule_trip (idle db_busy) 2 (at_time 0 9 30))))
  /\ trips_apart
       (session (fst (schedule_trip (idle db_busy) 2 (at_time 0 9 30)))).
Proof.
  destruct db_busy_well_formed as (Hlen & Hkey & Hinv).
  destruct (operations_keep_trips_apart (idle db_busy) Hlen Hkey Hinv Hinv)
    as (Htrip & _).
  apply (Htrip 2 (at_time 0 9 30) _ (Returned true)). reflexivity.
Defined.

(** C4.  The invariant is broken in the case the claim names.  In
    [db_busy] truck 1 is on route 1 from 08:00 to 09:00 of day 0 with drivers
    2 and 1; it is the only trip, so the invariant holds.  [schedule_trips]
    for truck 1 on day 0 looks for routes and for drivers without a trip on
    the date, never at the trips of its truck: it commits route 2 at 08:00 on
    truck 1 with drivers 4 and 3, at the very time of the stored trip.  The
    two rows share the truck and run at the same time, so they overlap with
    or without the 30 minutes.  [schedule_trip] for the same route and time
    tests the truck and returns [False]. *)
Theorem schedule_trips_ignores_the_trips_of_its_truck :
  no_buffered_overlap db_busy
  /\ trips_apart db_busy
  /\ (let r := schedule_trips (idle db_busy) 1 0 in
      snd r = Returned 1
      /\ trip (committed (fst r))
         = [mkTrip 1 1 (at_time 0 8 0) None 2 1 1;
            mkTrip 2 1 (at_time 0 8 0) None 4 3 1]
      /\ ~ no_buffered_overlap (committed (fst r))
      /\ ~ trips_apart (committed (fst r)))
  /\ snd (schedule_trip (idle db_busy) 2 (at_time 0 8 0)) = Returned false.
Proof.
  split; [|split; [|split]].
  - now apply (pairwise_trips_single _ _ (mkTrip 1 1 (at_time 0 8 0) None 2 1 1)).
  - now apply (pairwise_trips_single _ _ (mkTrip 1 1 (at_time 0 8 0) None 2 1 1)).
  - cbv zeta. split; [reflexivity|]. split; [reflexivity|].
    split;
      apply (pairwise_trips_fails
               _ _ 0 1 (mkTrip 1 1 (at_time 0 8 0) None 2 1 1)
               (mkTrip 2 1 (at_time 0 8 0) None 4 3 1)
               (mkRoute 1 "compost" 5) (mkRoute 2 "compost" 5));
      try reflexivity; try discriminate; try (simpl; tauto);
      try (left; reflexivity).
    + intros H. apply H. vm_compute. split; reflexivity.
    + intros [H|H]; vm_compute in H; apply H; reflexivity.
  - reflexivity.
Qed.

(** * Further properties of the methods *)

(** ** [ORDER BY] *)

Section OrderByLemmas.
Context {A : Type} (le : A -> A -> bool).
Hypothesis le_total : forall a b, le a b = true \/ le b a = true.
Hypothesis le_trans : forall a b c, le a b = true -> le b c = true -> le a c = true.

Lemma insert_row_sorted (x : A) (l : list A) :
  StronglySorted (fun a b => le a b = true) l ->
  StronglySorted (fun a b => le a b = true) (insert_row le x l).
Proof.
  induction 1 as [|y l Hl IH Hy]; simpl.
  - constructor; constructor.
  - destruct (le x y) eqn:E.
    + constructor; [constructor; assumption|].
      constructor; [assumption|].
      apply Forall_forall. intros z Hz.
      apply le_trans with y; [assumption|].
      rewrite Forall_forall in Hy. now apply Hy.
    + constructor; [assumption|].
      apply Forall_forall. intros z Hz. apply in_insert_row in Hz.
      destruct Hz as [->|Hz].
      * destruct (le_total x y); congruence.
      * rewrite Forall_forall in Hy. now apply Hy.
Qed.

Lemma order_by_sorted (l : list A) :
  StronglySorted (fun a b => le a b = true) (order_by le l).
Proof.
  induction l as [|x l IH]; simpl; [constructor|].
  now apply insert_row_sorted.
Qed.

(** The first row of an ordered result is before every row. *)
Lemma order_by_head (l : list A) (x y : A) :
  hd_error (order_by le l) = Some x -> In y l -> le x y = true.
Proof.
  intros Hx Hy. apply (in_order_by le) in Hy.
  pose proof (order_by_sorted l) as Hs.
  destruct (order_by le l) as [|z zs]; [discriminate|].
  injection Hx as ->. destruct Hy as [->|Hy].
  - destruct (le_total y y); assumption.
  - apply StronglySorted_inv in Hs. destruct Hs as (_ & Hs).
    rewrite Forall_forall in Hs. now apply Hs.
Qed.
End OrderByLemmas.

Lemma hd_error_In {A : Type} (l : list A) (x : A) :
  hd_error l = Some x -> In x l.
Proof. destruct l; [discriminate|]. intros [= ->]. now left. Qed.

Lemma Z_leb_total (a b : Z) : (a <=? b) = true \/ (b <=? a) = true.
Proof. rewrite !Z.leb_le. lia. Qed.

Lemma Z_leb_trans (a b c : Z) :
  (a <=? b) = true -> (b <=? c) = true -> (a <=? c) = true.
Proof. rewrite !Z.leb_le. lia. Qed.

Lemma truck_order_spec (a b : Truck) :
  truck_order a b = true <->
  truck_capacity b < truck_capacity a
  \/ (truck_capacity a = truck_capacity b /\ truck_tid a <= truck_tid b).
Proof.
  unfold truck_order.
  rewrite orb_true_iff, andb_true_iff, Z.ltb_lt, Z.eqb_eq, Z.leb_le. tauto.
Qed.

Lemma truck_order_total (a b : Truck) :
  truck_order a b = true \/ truck_order b a = true.
Proof. rewrite !truck_order_spec. lia. Qed.

Lemma truck_order_trans (a b c : Truck) :
  truck_order a b = true -> truck_order b c = true -> truck_order a c = true.
Proof. rewrite !truck_order_spec. lia. Qed.

Lemma seniority_spec (a b : Z * string * Z) :
  seniority a b = true <->
  snd a < snd b \/ (snd a = snd b /\ fst (fst a) <= fst (fst b)).
Proof.
  destruct a as [[ea ca] ha], b as [[eb cb] hb]. simpl.
  rewrite orb_true_iff, andb_true_iff, Z.ltb_lt, Z.eqb_eq, Z.leb_le. tauto.
Qed.

Lemma seniority_total (a b : Z * string * Z) :
  seniority a b = true \/ seniority b a = true.
Proof. rewrite !seniority_spec. lia. Qed.

Lemma seniority_trans (a b c : Z * string * Z) :
  seniority a b = true -> seniority b c = true -> seniority a c = true.
Proof. rewrite !seniority_spec. lia. Qed.

(** ** More on [schedule_trip] *)

(** X1.  Once [schedule_trip] has scheduled a route, a second call for the
    same route at any time of the same calendar day returns [False] and
    leaves the connection as it is. *)
Theorem schedule_trip_rejects_same_route_same_day
        (c c' : Connection) (rid time time' : Z) :
  schedule_trip c rid time = (c', Returned true) ->
  date_of time' = date_of time ->
  schedule_trip c' rid time' = (c', Returned false).
Proof.
  intros H Hdate.
  destruct (schedule_trip_success _ _ _ _ H)
    as (r & best_f & best_truck & e1 & e2 & rest & Hr & _ & _ & _ & _ & _ & _
        & ->).
  unfold schedule_trip. cbn [failed session committed route trip insert_trip
                             set_trip rollback].
  destruct (filter (fun r0 => route_rid r0 =? rid) (route (session c)))
    as [|r0 rs]; [discriminate|].
  destruct (_ || _ || _); [reflexivity|].
  rewrite existsb_app. cbn [existsb trip_rid trip_ttime].
  rewrite Z.eqb_refl, Hdate, Z.sub_diag. cbn.
  rewrite orb_true_r. reflexivity.
Qed.

Lemma schedule_trip_rejects_same_route_same_day_witness :
  schedule_trip (fst (schedule_trip (idle db_pack) 1 (at_time 0 8 0)))
                1 (at_time 0 13 0)
  = (fst (schedule_trip (idle db_pack) 1 (at_time 0 8 0)), Returned false).
Proof.
  apply (schedule_trip_rejects_same_route_same_day
           (idle db_pack) _ 1 (at_time 0 8 0) (at_time 0 13 0));
    reflexivity.
Defined.

(** The rows of the truck query. *)
Lemma best_trucks_In (db : Database) (rid time trip_end : Z) (t : Truck) :
  In t (best_trucks db rid time trip_end) <->
  In t (availableTrucks db time trip_end) /\ carries_route db rid t = true.
Proof.
  unfold best_trucks.
  rewrite in_order_by, (in_distinct _ Truck_eqb_eq), filter_In.
  rewrite andb_true_iff, mem_In, in_map_iff.
  unfold availableTrucks. rewrite filter_In. split.
  - intros (Ht & (t' & E & Ht') & Hc). apply filter_In in Ht'.
    rewrite <- E. tauto.
  - intros ((Ht & Hf) & Hc). split; [assumption|]. split; [|assumption].
    exists t. split; [reflexivity|]. now apply filter_In.
Qed.

(** X2.  The truck of a trip that [schedule_trip] inserts is an available
    truck that carries the waste type of the route, of the largest capacity
    among those, and of the lowest id among those of that capacity. *)
Theorem schedule_trip_truck_choice (c c' : Connection) (rid time : Z) :
  schedule_trip c rid time = (c', Returned true) ->
  exists t r best,
    trip (committed c') = trip (session c) ++ [t]
    /\ hd_error (filter (fun r => route_rid r =? rid) (route (session c)))
       = Some r
    /\ trip_tid t = truck_tid best
    /\ In best (availableTrucks (session c) time
                                (time + trip_duration (route_length r)))
    /\ carries_route (session c) rid best = true
    /\ forall other,
        In other (availableTrucks (session c) time
                                  (time + trip_duration (route_length r))) ->
        carries_route (session c) rid other = true ->
        truck_capacity other < truck_capacity best
        \/ (truck_capacity other = truck_capacity best
            /\ truck_tid best <= truck_tid other).
Proof.
  intros H.
  destruct (schedule_trip_success _ _ _ _ H)
    as (r & best_f & best & e1 & e2 & rest & Hr & _ & _ & _ & Hb & _ & _ & ->).
  eexists. exists r, best. split; [reflexivity|]. split; [assumption|].
  split; [reflexivity|].
  pose proof (hd_error_In _ _ Hb) as Hin. apply best_trucks_In in Hin.
  destruct Hin as (Hav & Hc). split; [assumption|]. split; [assumption|].
  intros other Ho Hco.
  assert (Hord : truck_order best other = true).
  { unfold best_trucks in Hb.
    apply (order_by_head truck_order truck_order_total truck_order_trans
                         _ best other Hb).
    apply (in_distinct _ Truck_eqb_eq). apply filter_In.
    unfold availableTrucks in Ho. pose proof Ho as Ho'.
    apply filter_In in Ho'. split; [tauto|].
    apply andb_true_iff. split; [|assumption].
    apply mem_In. now apply in_map. }
  apply truck_order_spec in Hord. lia.
Qed.

Lemma schedule_trip_truck_choice_witness :
  exists t r best,
    trip (committed (fst (schedule_trip (idle db_pack) 1 (at_time 0 8 0))))
    = trip (session (idle db_pack)) ++ [t]
    /\ hd_error (filter (fun r => route_rid r =? 1)
                        (route (session (idle db_pack)))) = Some r
    /\ trip_tid t = truck_tid best
    /\ In best (availableTrucks (session (idle db_pack)) (at_time 0 8 0)
                  (at_time 0 8 0 + trip_duration (route_length r)))
    /\ carries_route (session (idle db_pack)) 1 best = true
    /\ forall other,
        In other (availableTrucks (session (idle db_pack)) (at_time 0 8 0)
                    (at_time 0 8 0 + trip_duration (route_length r))) ->
        carries_route (session (idle db_pack)) 1 other = true ->
        truck_capacity other < truck_capacity best
        \/ (truck_capacity other = truck_capacity best
            /\ truck_tid best <= truck_tid other).
Proof.
  apply (schedule_trip_truck_choice (idle db_pack) _ 1 (at_time 0 8 0)).
  reflexivity.
Defined.

Lemma facilities_of_route_In (db : Database) (rid fid : Z) :
  In fid (facilities_of_route db rid) <->
  exists r f, In r (route db) /\ route_rid r = rid
              /\ In f (facility db)
              /\ facility_wastetype f = route_wastetype r
              /\ facility_fid f = fid.
Proof.
  unfold facilities_of_route. rewrite in_order_by, in_flat_map. split.
  - intros (r & Hr & Hf). apply filter_In in Hr. destruct Hr as (Hr & E).
    apply Z.eqb_eq in E. apply in_map_iff in Hf. destruct Hf as (f & <- & Hf).
    apply filter_In in Hf. destruct Hf as (Hf & Ew). apply String.eqb_eq in Ew.
    exists r, f. auto.
  - intros (r & f & Hr & E & Hf & Ew & <-). exists r. split.
    + apply filter_In. split; [assumption|]. now apply Z.eqb_eq.
    + apply in_map, filter_In. split; [assumption|]. now apply String.eqb_eq.
Qed.

Lemma carries_route_spec (db : Database) (rid : Z) (t : Truck) :
  carries_route db rid t = true <->
  exists tt r, In tt (trucktype db)
               /\ trucktype_trucktype tt = truck_trucktype t
               /\ In r (route db) /\ route_rid r = rid
               /\ route_wastetype r = trucktype_wastetype tt.
Proof.
  unfold carries_route. rewrite existsb_exists. split.
  - intros (tt & Htt & H). apply andb_true_iff in H. destruct H as (E & H).
    apply String.eqb_eq in E. apply existsb_exists in H.
    destruct H as (r & Hr & H). apply andb_true_iff in H.
    destruct H as (Ew & Er). apply String.eqb_eq in Ew. apply Z.eqb_eq in Er.
    exists tt, r. auto.
  - intros (tt & r & Htt & E & Hr & Er & Ew). exists tt. split; [assumption|].
    apply andb_true_iff. split; [now apply String.eqb_eq|].
    apply existsb_exists. exists r. split; [assumption|].
    apply andb_true_iff. split; [now apply String.eqb_eq|now apply Z.eqb_eq].
Qed.

(** X3.  A trip that [schedule_trip] inserts goes to a facility that accepts
    the waste type of its route, the one of lowest id among those, and its
    truck is of a type that carries that waste type. *)
Theorem schedule_trip_waste_types (c c' : Connection) (rid time : Z) :
  schedule_trip c rid time = (c', Returned true) ->
  exists t,
    trip (committed c') = trip (session c) ++ [t]
    /\ trip_rid t = rid
    /\ (exists r f, In r (route (session c)) /\ route_rid r = rid
                    /\ In f (facility (session c))
                    /\ facility_wastetype f = route_wastetype r
                    /\ facility_fid f = trip_fid t)
    /\ (forall r f, In r (route (session c)) -> route_rid r = rid ->
                    In f (facility (session c)) ->
                    facility_wastetype f = route_wastetype r ->
                    trip_fid t <= facility_fid f)
    /\ (exists k tt r, In k (truck (session c)) /\ truck_tid k = trip_tid t
                       /\ In tt (trucktype (session c))
                       /\ trucktype_trucktype tt = truck_trucktype k
                       /\ In r (route (session c)) /\ route_rid r = rid
                       /\ route_wastetype r = trucktype_wastetype tt).
Proof.
  intros H.
  destruct (schedule_trip_success _ _ _ _ H)
    as (r & best_f & best & e1 & e2 & rest & _ & _ & _ & Hf & Hb & _ & _ & ->).
  eexists. split; [reflexivity|]. split; [reflexivity|]. cbn [trip_fid trip_tid].
  split; [|split].
  - apply facilities_of_route_In. now apply hd_error_In.
  - intros r' f Hr' Er' Hf' Ew.
    assert (Hle : (best_f <=? facility_fid f) = true).
    { unfold facilities_of_route in Hf.
      apply (order_by_head Z.leb Z_leb_total Z_leb_trans _ _ _ Hf).
      apply in_flat_map. exists r'. split.
      - apply filter_In. split; [assumption|]. now apply Z.eqb_eq.
      - apply in_map, filter_In. split; [assumption|]. now apply String.eqb_eq. }
    now apply Z.leb_le.
  - apply hd_error_In, best_trucks_In in Hb. destruct Hb as (Hav & Hc).
    apply carries_route_spec in Hc. destruct Hc as (tt & r' & Hc).
    unfold availableTrucks in Hav. apply filter_In in Hav.
    exists best, tt, r'. tauto.
Qed.

Lemma schedule_trip_waste_types_witness :
  exists t,
    trip (committed (fst (schedule_trip (idle db_busy) 2 (at_time 0 9 30))))
    = trip (session (idle db_busy)) ++ [t]
    /\ trip_rid t = 2
    /\ (exists r f, In r (route (session (idle db_busy))) /\ route_rid r = 2
                    /\ In f (facility (session (idle db_busy)))
                    /\ facility_wastetype f = route_wastetype r
                    /\ facility_fid f = trip_fid t)
    /\ (forall r f, In r (route (session (idle db_busy))) -> route_rid r = 2 ->
                    In f (facility (session (idle db_busy))) ->
                    facility_wastetype f = route_wastetype r ->
                    trip_fid t <= facility_fid f)
    /\ (exists k tt r, In k (truck (session (idle db_busy)))
                       /\ truck_tid k = trip_tid t
                       /\ In tt (trucktype (session (idle db_busy)))
                       /\ trucktype_trucktype tt = truck_trucktype k
                       /\ In r (route (session (idle db_busy)))
                       /\ route_rid r = 2
                       /\ route_wastetype r = trucktype_wastetype tt).
Proof.
  apply (schedule_trip_waste_types (idle db_busy) _ 2 (at_time 0 9 30)).
  reflexivity.
Defined.

(** The join behind the employee query, before the projection. *)
Lemma employee_rows_In (db : Database) (time trip_end : Z) (x : Z * string) :
  In x (employee_rows db time trip_end) <->
  exists d e, In d (availableEmployees db time trip_end)
              /\ In e (employee db) /\ employee_eid e = driver_eid d
              /\ x = (employee_eid e, driver_trucktype d).
Proof.
  unfold employee_rows. rewrite in_map_iff. split.
  - intros (y & <- & Hy). apply in_order_by, in_flat_map in Hy.
    destruct Hy as (d & Hd & Hy). apply in_map_iff in Hy.
    destruct Hy as (e & <- & He). apply filter_In in He.
    destruct He as (He & E). apply Z.eqb_eq in E. exists d, e. auto.
  - intros (d & e & Hd & He & E & ->).
    exists (employee_eid e, driver_trucktype d, employee_hiredate e).
    split; [reflexivity|]. apply in_order_by, in_flat_map.
    exists d. split; [assumption|]. apply in_map_iff. exists e.
    split; [reflexivity|]. apply filter_In. split; [assumption|].
    now apply Z.eqb_eq.
Qed.

(** The first row of the employee query is the most senior one. *)
Lemma employee_rows_head (db : Database) (time trip_end : Z)
      (x : Z * string) (rest : list (Z * string)) (d : Driver) (e : Employee) :
  employee_rows db time trip_end = x :: rest ->
  In d (availableEmployees db time trip_end) ->
  In e (employee db) -> employee_eid e = driver_eid d ->
  exists e0, In e0 (employee db) /\ employee_eid e0 = fst x
             /\ (employee_hiredate e0 < employee_hiredate e
                 \/ (employee_hiredate e0 = employee_hiredate e
                     /\ employee_eid e0 <= employee_eid e)).
Proof.
  unfold employee_rows. intros Hx Hd He E.
  set (rows := flat_map _ (availableEmployees db time trip_end)) in Hx.
  destruct (order_by seniority rows) as [|y ys] eqn:Ey; [discriminate|].
  simpl in Hx. injection Hx as Hy _.
  assert (Hin : In (employee_eid e, driver_trucktype d, employee_hiredate e)
                   rows).
  { apply in_flat_map. exists d. split; [assumption|].
    apply in_map_iff. exists e. split; [reflexivity|].
    apply filter_In. split; [assumption|]. now apply Z.eqb_eq. }
  assert (Hhd : hd_error (order_by seniority rows) = Some y)
    by (now rewrite Ey).
  pose proof (order_by_head seniority seniority_total seniority_trans
                            _ _ _ Hhd Hin) as Hle.
  apply seniority_spec in Hle. simpl in Hle.
  assert (Hyin : In y rows) by (apply (in_order_by seniority); rewrite Ey;
                                now left).
  apply in_flat_map in Hyin. destruct Hyin as (d0 & _ & Hyin).
  apply in_map_iff in Hyin. destruct Hyin as (e0 & <- & He0).
  apply filter_In in He0. destruct He0 as (He0 & _).
  exists e0. simpl in *. subst x. simpl. auto.
Qed.

(** One of the two rows picked drives the type of the truck picked. *)
Lemma schedule_trip_success_pair (c c' : Connection) (rid time : Z) :
  schedule_trip c rid time = (c', Returned true) ->
  exists r best_f best_truck best_e_one best_e_two rest,
    let db := session c in
    let trip_end := time + trip_duration (route_length r) in
    let t := mkTrip rid (truck_tid best_truck) time None
                    (Z.max (fst best_e_one) (fst best_e_two))
                    (Z.min (fst best_e_one) (fst best_e_two)) best_f in
    hd_error (filter (fun r => route_rid r =? rid) (route db)) = Some r
    /\ hd_error (best_trucks db rid time trip_end) = Some best_truck
    /\ employee_rows db time trip_end = best_e_one :: rest
    /\ In best_e_two rest
    /\ (snd best_e_one = truck_trucktype best_truck
        \/ snd best_e_two = truck_trucktype best_truck)
    /\ c' = mkConnection (insert_trip db t) (insert_trip db t) false.
Proof.
  unfold schedule_trip. intros H.
  split_branches H; inversion H; subst; clear H.
  - exists r, z, t, p, p0, (p0 :: l3). cbv zeta.
    rewrite ?Heql, ?Heql1, ?Heql2. simpl.
    split; [reflexivity|]. split; [reflexivity|]. split; [reflexivity|].
    split; [now left|]. split; [left; now apply String.eqb_eq|].
    unfold commit, write. simpl. rewrite Heqb.
    now rewrite drop_created_views by assumption.
  - exists r, z, t, p, p0, l2. cbv zeta.
    rewrite ?Heql, ?Heql1, ?Heql2. simpl.
    apply scan_second_Some in Heqo. destruct Heqo as (Hin & Hq & _).
    split; [reflexivity|]. split; [reflexivity|]. split; [reflexivity|].
    split; [assumption|]. split; [now right|].
    unfold commit, write. simpl. rewrite Heqb.
    now rewrite drop_created_views by assumption.
Qed.


(** X4.  The two drivers of a trip that [schedule_trip] inserts are stored
    larger id first; both hold a Driver row that is available; the first one
    picked is an employee hired no later than every available driver, of the
    lowest id among those hired the same day; and one of the two holds an
    available Driver row for the type of the trip's truck. *)
Theorem schedule_trip_driver_pair (c c' : Connection) (rid time : Z) :
  schedule_trip c rid time = (c', Returned true) ->
  exists t r best e1 e2,
    let db := session c in
    let trip_end := time + trip_duration (route_length r) in
    trip (committed c') = trip db ++ [t]
    /\ hd_error (filter (fun r => route_rid r =? rid) (route db)) = Some r
    /\ trip_eid1 t = Z.max e1 e2 /\ trip_eid2 t = Z.min e1 e2
    /\ In e1 (map driver_eid (availableEmployees db time trip_end))
    /\ In e2 (map driver_eid (availableEmployees db time trip_end))
    /\ (forall d e, In d (availableEmployees db time trip_end) ->
                    In e (employee db) -> employee_eid e = driver_eid d ->
                    exists e0, In e0 (employee db) /\ employee_eid e0 = e1
                               /\ (employee_hiredate e0 < employee_hiredate e
                                   \/ (employee_hiredate e0
                                       = employee_hiredate e
                                       /\ e1 <= employee_eid e)))
    /\ In best (truck db) /\ truck_tid best = trip_tid t
    /\ exists d, In d (availableEmployees db time trip_end)
                 /\ (driver_eid d = e1 \/ driver_eid d = e2)
                 /\ driver_trucktype d = truck_trucktype best.
Proof.
  intros H.
  destruct (schedule_trip_success_pair _ _ _ _ H)
    as (r & best_f & best & x1 & x2 & rest & Hr & Hb & He & Hin2 & Hq & ->).
  eexists. exists r, best, (fst x1), (fst x2). cbv zeta.
  split; [reflexivity|]. split; [assumption|].
  split; [reflexivity|]. split; [reflexivity|].
  assert (Hin1 : In x1 (employee_rows
                          (session c) time
                          (time + trip_duration (route_length r))))
    by (rewrite He; now left).
  assert (Hin2' : In x2 (employee_rows
                           (session c) time
                           (time + trip_duration (route_length r))))
    by (rewrite He; now right).
  split; [now apply employee_rows_available|].
  split; [now apply employee_rows_available|].
  split.
  { intros d e Hd Hem E.
    destruct (employee_rows_head _ _ _ _ _ d e He Hd Hem E)
      as (e0 & He0 & Ee0 & Hs0).
    exists e0. rewrite <- Ee0. auto. }
  apply hd_error_In, best_trucks_In in Hb. destruct Hb as (Hav & _).
  unfold availableTrucks in Hav. apply filter_In in Hav.
  split; [tauto|]. split; [reflexivity|].
  apply employee_rows_In in Hin1, Hin2'.
  destruct Hin1 as (d1 & em1 & Hd1 & _ & E1 & ->).
  destruct Hin2' as (d2 & em2 & Hd2 & _ & E2 & ->).
  simpl in *. destruct Hq as [Hq|Hq]; [exists d1|exists d2]; auto.
Qed.

Lemma schedule_trip_driver_pair_witness :
  exists t r best e1 e2,
    let db := session (idle (db_two_types "B" "A")) in
    let trip_end := at_time 0 8 0 + trip_duration (route_length r) in
    trip (committed (fst (schedule_trip (idle (db_two_types "B" "A")) 1
                                        (at_time 0 8 0))))
    = trip db ++ [t]
    /\ hd_error (filter (fun r => route_rid r =? 1) (route db)) = Some r
    /\ trip_eid1 t = Z.max e1 e2 /\ trip_eid2 t = Z.min e1 e2
    /\ In e1 (map driver_eid (availableEmployees db (at_time 0 8 0) trip_end))
    /\ In e2 (map driver_eid (availableEmployees db (at_time 0 8 0) trip_end))
    /\ (forall d e, In d (availableEmployees db (at_time 0 8 0) trip_end) ->
                    In e (employee db) -> employee_eid e = driver_eid d ->
                    exists e0, In e0 (employee db) /\ employee_eid e0 = e1
                               /\ (employee_hiredate e0 < employee_hiredate e
                                   \/ (employee_hiredate e0
                                       = employee_hiredate e
                                       /\ e1 <= employee_eid e)))
    /\ In best (truck db) /\ truck_tid best = trip_tid t
    /\ exists d, In d (availableEmployees db (at_time 0 8 0) trip_end)
                 /\ (driver_eid d = e1 \/ driver_eid d = e2)
                 /\ driver_trucktype d = truck_trucktype best.
Proof.
  apply (schedule_trip_driver_pair (idle (db_two_types "B" "A")) _ 1
                                   (at_time 0 8 0)).
  reflexivity.
Defined.

(** While the three views of an earlier call are in the open transaction,
    [schedule_trip] schedules nothing: a call that gets as far as
    [CREATE VIEW] fails there. *)
Lemma schedule_trip_on_leftover_views (c : Connection) (rid time : Z) :
  failed c = false ->
  existsb (fun v => view_exists v (session c)) trip_views = true ->
  snd (schedule_trip c rid time) = Returned false
  /\ committed (fst (schedule_trip c rid time)) = committed c.
Proof.
  intros Hf Hv. unfold schedule_trip. rewrite Hf, Hv.
  repeat match goal with
         | |- context [match ?x with _ => _ end] => destruct x
         end; split; reflexivity.
Qed.

(** X5.  A call on a connection that is not failed and holds none of the
    three views, that passes the checks and finds a facility and a truck,
    where the employee query has a single row and that row drives the type of
    the truck picked, takes [best_e_two = None] and does not return: the
    [TypeError] of [best_e_two[0]] is not a [pg.Error] and leaves the method.
    Nothing is committed, the three views stay in the open transaction, and
    the next [schedule_trip] on the connection, whatever its arguments, does
    not return [True] and commits nothing. *)
Theorem schedule_trip_type_error
        (c : Connection) (rid time : Z) (r : Route) (best : Truck)
        (x : Z * string) :
  failed c = false ->
  existsb (fun v => view_exists v (session c)) trip_views = false ->
  hd_error (filter (fun r => route_rid r =? rid) (route (session c)))
  = Some r ->
  replace_hour time 8 <= time <= replace_hour time 16 ->
  time + trip_duration (route_length r) <= replace_hour time 16 ->
  (forall t, In t (trip (session c)) -> trip_rid t = rid ->
             date_of (trip_ttime t) <> date_of time) ->
  facilities_of_route (session c) rid <> [] ->
  hd_error (best_trucks (session c) rid time
                        (time + trip_duration (route_length r))) = Some best ->
  employee_rows (session c) time (time + trip_duration (route_length r))
  = [x] ->
  snd x = truck_trucktype best ->
  schedule_trip c rid time
  = (mkConnection (committed c) (create_views trip_views (session c)) false,
     Raised)
  /\ forall rid' time',
      snd (schedule_trip
             (mkConnection (committed c)
                           (create_views trip_views (session c)) false)
             rid' time') <> Returned true
      /\ committed
           (fst (schedule_trip
                   (mkConnection (committed c)
                                 (create_views trip_views (session c)) false)
                   rid' time'))
         = committed c.
Proof.
  intros Hf Hv Hr Hw Hend Hday Hfac Hbest Hrows Htype. split.
  - unfold schedule_trip. rewrite Hf.
    destruct (filter (fun r => route_rid r =? rid) (route (session c)))
      as [|r0 rs]; [discriminate|].
    simpl in Hr. injection Hr as ->. cbv zeta.
    replace ((time <? replace_hour time 8) || (replace_hour time 16 <? time)
             || (replace_hour time 16
                 <? time + trip_duration (route_length r)))
      with false
      by (symmetry; rewrite !orb_false_iff, !Z.ltb_ge; lia).
    replace (existsb (fun t => (trip_rid t =? rid)
                               && (date_of (trip_ttime t) - date_of time =? 0))
                     (trip (session c)))
      with false.
    2: { symmetry. apply not_true_is_false. intros H.
         apply existsb_exists in H. destruct H as (t & Ht & H).
         apply andb_true_iff in H. destruct H as (H1 & H2).
         apply Z.eqb_eq in H1, H2. apply (Hday t Ht H1). lia. }
    destruct (facilities_of_route (session c) rid) as [|best_f fs];
      [contradiction|].
    rewrite Hv, Hrows.
    destruct (best_trucks (session c) rid time
                          (time + trip_duration (route_length r)))
      as [|b bs]; [discriminate|].
    simpl in Hbest. injection Hbest as ->.
    rewrite Htype, String.eqb_refl. unfold write. simpl. now rewrite Hf.
  - intros rid' time'.
    destruct (schedule_trip_on_leftover_views
                (mkConnection (committed c)
                              (create_views trip_views (session c)) false)
                rid' time' eq_refl eq_refl) as (E1 & E2).
    rewrite E1. split; [discriminate|exact E2].
Qed.

Lemma schedule_trip_type_error_witness :
  schedule_trip (idle db_one_driver) 1 (at_time 0 8 0)
  = (mkConnection (committed (idle db_one_driver))
                  (create_views trip_views (session (idle db_one_driver)))
                  false,
     Raised)
  /\ forall rid' time',
      snd (schedule_trip
             (mkConnection (committed (idle db_one_driver))
                           (create_views trip_views
                                         (session (idle db_one_driver)))
                           false)
             rid' time') <> Returned true
      /\ committed
           (fst (schedule_trip
                   (mkConnection (committed (idle db_one_driver))
                                 (create_views trip_views
                                               (session (idle db_one_driver)))
                                 false)
                   rid' time'))
         = committed (idle db_one_driver).
Proof.
  apply (schedule_trip_type_error (idle db_one_driver) 1 (at_time 0 8 0)
                                  (mkRoute 1 "compost" 5) (mkTruck 1 "A" 10)
                                  (1, "A"%string)).
  - reflexivity.
  - reflexivity.
  - reflexivity.
  - vm_compute. split; discriminate.
  - vm_compute. discriminate.
  - intros t [].
  - discriminate.
  - reflexivity.
  - reflexivity.
  - reflexivity.
Defined.

(** ** More on [schedule_trips] *)

(** What the loop appends and what it counts, without any assumption: the
    new trips are on the first rows of [routes], one behind the other with
    30 minutes in between, and the counter also counts the row that stopped
    the loop. *)
Lemma trips_loop_count (tid eid_hi eid_lo fid off_time : Z)
      (routes : list (Z * Z)) :
  forall (db : Database) (start_time i : Z),
  exists news,
    fst (trips_loop db tid eid_hi eid_lo fid start_time off_time routes i)
    = set_trip db (trip db ++ news)
    /\ map trip_rid news = firstn (List.length news) (map fst routes)
    /\ ((List.length news = List.length routes
         /\ snd (trips_loop db tid eid_hi eid_lo fid start_time off_time
                            routes i)
            = i + Z.of_nat (List.length news))
        \/ ((List.length news < List.length routes)%nat
            /\ snd (trips_loop db tid eid_hi eid_lo fid start_time off_time
                               routes i)
               = i + Z.of_nat (List.length news) + 1))
    /\ (forall t, hd_error news = Some t -> trip_ttime t = start_time)
    /\ (forall k a b,
           nth_error news k = Some a -> nth_error news (S k) = Some b ->
           exists len, nth_error routes k = Some (trip_rid a, len)
                       /\ trip_ttime b
                          = trip_ttime a + trip_duration len + half_hour)
    /\ (forall t, In t news ->
                  trip_tid t = tid /\ trip_eid1 t = eid_hi
                  /\ trip_eid2 t = eid_lo /\ trip_fid t = fid
                  /\ trip_volume t = None).
Proof.
  induction routes as [|[rid len] rest IH]; intros db start_time i; simpl.
  - exists []. rewrite app_nil_r. simpl.
    split; [now destruct db|]. split; [reflexivity|].
    split; [left; split; [reflexivity|lia]|].
    split; [discriminate|]. split; [intros [|k]; discriminate|contradiction].
  - destruct (Z.ltb_spec (start_time + trip_duration len) off_time) as [Hlt|Hge].
    + destruct (IH (insert_trip db (mkTrip rid tid start_time None
                                           eid_hi eid_lo fid))
                   (start_time + trip_duration len + half_hour) (i + 1))
        as (news & Hdb & Hrids & Hcount & Hhd & Hnext & Hall).
      exists (mkTrip rid tid start_time None eid_hi eid_lo fid :: news).
      split; [|split; [|split; [|split; [|split]]]].
      * rewrite Hdb. unfold insert_trip, set_trip. simpl.
        now rewrite <- app_assoc.
      * simpl. now rewrite Hrids.
      * simpl List.length.
        destruct Hcount as [(Hl & Hs)|(Hl & Hs)]; [left|right];
          (split; [lia|]); rewrite Hs; lia.
      * intros t [= <-]. reflexivity.
      * intros [|k] a b Ha Hb; simpl in Ha, Hb.
        -- injection Ha as <-. exists len. split; [reflexivity|].
           simpl. apply Hhd. now destruct news.
        -- simpl. now apply Hnext.
      * intros t [<-|Ht]; [simpl; repeat split|now apply Hall].
    + exists []. simpl. rewrite app_nil_r.
      split; [now destruct db|]. split; [reflexivity|].
      split; [right; split; lia|].
      split; [discriminate|]. split; [intros [|k]; discriminate|contradiction].
Qed.

(** The two ways a [schedule_trips] call ends: without a commit and with 0,
    or with the commit of its loop. *)
Lemma schedule_trips_commit (c c' : Connection) (tid date i : Z) :
  schedule_trips c tid date = (c', Returned i) ->
  (i = 0 /\ committed c' = committed c
   /\ (session c' = committed c \/ session c' = session c))
  \/ exists target_truck d_one d_two fid,
      let db := session c in
      let routes := aval_route db (snd target_truck) date in
      let res := trips_loop (create_views [AvalDriver_view] db) tid
                            (Z.max (fst d_one) (fst d_two))
                            (Z.min (fst d_one) (fst d_two)) fid
                            (combine date 8) (combine date 16) routes 0 in
      failed c = false
      /\ view_exists AvalDriver_view db = false
      /\ hd_error (truck_rows db tid) = Some target_truck
      /\ routes <> []
      /\ In d_one (driver_rows db date) /\ In d_two (driver_rows db date)
      /\ hd_error (facilities_of_wastetype db (snd target_truck)) = Some fid
      /\ c' = mkConnection (fst res) (fst res) false
      /\ i = snd res.
Proof.
  unfold schedule_trips. intros H.
  split_branches H; inversion H; subst; clear H;
    try (left; simpl; auto; fail).
  all: right.
  all: match goal with
       | Ht : truck_rows _ _ = ?tt :: _, Hd : driver_rows _ _ = ?d1 :: _,
         Hf : facilities_of_wastetype _ _ = ?f :: _,
         Hs : _ = Some ?d2, Hl : trips_loop _ _ _ _ _ _ _ _ _ = _ |- _ =>
           exists tt, d1, d2, f; cbv zeta;
           rewrite ?Ht, ?Hf, ?Hd, ?Hl;
           match goal with Hr : aval_route _ _ _ = _ |- _ =>
                             rewrite ?Hr in * end;
           rewrite ?Hl; simpl;
           repeat (split; [first [reflexivity|discriminate|now left]|])
       end.
  all: split;
    [| split; [reflexivity|]; split; [|reflexivity];
       unfold commit, write; simpl; rewrite Heqb; reflexivity ].
  - simpl in Heqo. injection Heqo as <-. right. now left.
  - apply scan_second_Some in Heqo. right. exact (proj1 Heqo).
Qed.

(** X6.  What [schedule_trips] returns against what it inserts: a call that
    ends without a commit returns 0; a call that commits returns the number
    of Trip rows inserted when every candidate route was inserted, and that
    number plus one when a candidate route did not fit. *)
Theorem schedule_trips_count (c c' : Connection) (tid date i : Z) :
  schedule_trips c tid date = (c', Returned i) ->
  (i = 0 /\ committed c' = committed c)
  \/ exists target_truck news,
      let routes := aval_route (session c) (snd target_truck) date in
      hd_error (truck_rows (session c) tid) = Some target_truck
      /\ trip (committed c') = trip (session c) ++ news
      /\ ((List.length news = List.length routes
           /\ i = Z.of_nat (List.length news))
          \/ ((List.length news < List.length routes)%nat
              /\ i = Z.of_nat (List.length news) + 1)).
Proof.
  intros H. apply schedule_trips_commit in H.
  destruct H as [(Hi & Hc & _)|(tt & d1 & d2 & fid & H)]; [left; auto|].
  cbv zeta in H. destruct H as (_ & _ & Ht & _ & _ & _ & _ & -> & ->).
  right. exists tt.
  destruct (trips_loop_count tid (Z.max (fst d1) (fst d2))
                             (Z.min (fst d1) (fst d2)) fid (combine date 16)
                             (aval_route (session c) (snd tt) date)
                             (create_views [AvalDriver_view] (session c))
                             (combine date 8) 0)
    as (news & Hdb & _ & Hcount & _).
  exists news. cbv zeta. split; [assumption|]. split.
  - simpl. rewrite Hdb. reflexivity.
  - destruct Hcount as [(Hl & Hs)|(Hl & Hs)]; [left|right];
      (split; [assumption|]); rewrite Hs; lia.
Qed.

Lemma schedule_trips_count_witness :
  (3 = 0
   /\ committed (fst (schedule_trips (idle db_pack) 1 0))
      = committed (idle db_pack))
  \/ exists target_truck news,
      let routes := aval_route (session (idle db_pack)) (snd target_truck) 0 in
      hd_error (truck_rows (session (idle db_pack)) 1) = Some target_truck
      /\ trip (committed (fst (schedule_trips (idle db_pack) 1 0)))
         = trip (session (idle db_pack)) ++ news
      /\ ((List.length news = List.length routes
           /\ 3 = Z.of_nat (List.length news))
          \/ ((List.length news < List.length routes)%nat
              /\ 3 = Z.of_nat (List.length news) + 1)).
Proof.
  apply (schedule_trips_count (idle db_pack) _ 1 0 3). reflexivity.
Defined.

(** X7.  A [schedule_trips] call that returns a positive count commits with
    its view [AvalDriver] still in place; every later [schedule_trips] on the
    connection, whatever its arguments, returns 0 and commits nothing. *)
Theorem schedule_trips_leaves_its_view (c c' : Connection) (tid date i : Z) :
  schedule_trips c tid date = (c', Returned i) ->
  0 < i ->
  view_exists AvalDriver_view (committed c') = true
  /\ forall tid' date',
      snd (schedule_trips c' tid' date') = Returned 0
      /\ committed (fst (schedule_trips c' tid' date')) = committed c'.
Proof.
  intros H Hi. apply schedule_trips_commit in H.
  destruct H as [(Hz & _)|(tt & d1 & d2 & fid & H)]; [lia|].
  cbv zeta in H. destruct H as (_ & _ & _ & _ & _ & _ & _ & -> & _).
  destruct (trips_loop_count tid (Z.max (fst d1) (fst d2))
                             (Z.min (fst d1) (fst d2)) fid (combine date 16)
                             (aval_route (session c) (snd tt) date)
                             (create_views [AvalDriver_view] (session c))
                             (combine date 8) 0)
    as (news & Hdb & _).
  rewrite Hdb. split; [reflexivity|].
  intros tid' date'. unfold schedule_trips. simpl.
  destruct (truck_rows _ tid'); [split; reflexivity|].
  destruct (aval_route _ _ date'); split; reflexivity.
Qed.

Lemma schedule_trips_leaves_its_view_witness :
  view_exists AvalDriver_view
              (committed (fst (schedule_trips (idle db_pack) 1 0))) = true
  /\ forall tid' date',
      snd (schedule_trips (fst (schedule_trips (idle db_pack) 1 0))
                          tid' date') = Returned 0
      /\ committed (fst (schedule_trips
                           (fst (schedule_trips (idle db_pack) 1 0))
                           tid' date'))
         = committed (fst (schedule_trips (idle db_pack) 1 0)).
Proof.
  apply (schedule_trips_leaves_its_view (idle db_pack) _ 1 0 3).
  - reflexivity.
  - lia.
Defined.

Lemma StronglySorted_weaken {A : Type} (R S : A -> A -> Prop) (l : list A) :
  (forall a b, R a b -> S a b) -> StronglySorted R l -> StronglySorted S l.
Proof.
  intros HRS. induction 1 as [|x l Hl IH Hx]; constructor; [assumption|].
  rewrite Forall_forall in *. auto.
Qed.

Lemma aval_route_sorted (db : Database) (w : string) (date : Z) :
  StronglySorted (fun a b => fst a <= fst b) (aval_route db w date).
Proof.
  unfold aval_route.
  apply (StronglySorted_weaken
           (fun a b : Z * Z => (fst a <=? fst b) = true)).
  - intros a b. apply Z.leb_le.
  - apply order_by_sorted.
    + intros a b. apply Z_leb_total.
    + intros a b c'. apply Z_leb_trans.
Qed.

Lemma facilities_of_wastetype_head (db : Database) (w : string) (fid : Z) :
  hd_error (facilities_of_wastetype db w) = Some fid ->
  (exists f, In f (facility db) /\ facility_fid f = fid
             /\ facility_wastetype f = w)
  /\ (forall f, In f (facility db) -> facility_wastetype f = w ->
                fid <= facility_fid f).
Proof.
  unfold facilities_of_wastetype. intros H. split.
  - apply hd_error_In, in_order_by, in_map_iff in H.
    destruct H as (f & E & Hf). apply filter_In in Hf.
    destruct Hf as (Hf & Ew). apply String.eqb_eq in Ew. exists f. auto.
  - intros f Hf Ew. apply Z.leb_le.
    apply (order_by_head Z.leb Z_leb_total Z_leb_trans _ _ _ H).
    apply in_map, filter_In. split; [assumption|]. now apply String.eqb_eq.
Qed.

(** X8.  The trips a committing [schedule_trips] inserts are on the first
    candidate routes in ascending route id order; the first starts at 08:00
    of the date and each next one exactly 30 minutes after the computed end
    of the one before; all have the given truck, one driver pair stored
    larger id first, volume NULL and the facility of lowest id that accepts
    the truck's waste type. *)
Theorem schedule_trips_packing (c c' : Connection) (tid date i : Z) :
  schedule_trips c tid date = (c', Returned i) ->
  0 < i ->
  exists target_truck news e1 e2 fid,
    let db := session c in
    let routes := aval_route db (snd target_truck) date in
    hd_error (truck_rows db tid) = Some target_truck
    /\ trip (committed c') = trip db ++ news
    /\ StronglySorted (fun a b => fst a <= fst b) routes
    /\ map trip_rid news = firstn (List.length news) (map fst routes)
    /\ (forall t, hd_error news = Some t -> trip_ttime t = combine date 8)
    /\ (forall k a b,
           nth_error news k = Some a -> nth_error news (S k) = Some b ->
           exists len, nth_error routes k = Some (trip_rid a, len)
                       /\ trip_ttime b
                          = trip_ttime a + trip_duration len + half_hour)
    /\ (forall t, In t news ->
                  trip_tid t = tid /\ trip_eid1 t = Z.max e1 e2
                  /\ trip_eid2 t = Z.min e1 e2 /\ trip_fid t = fid
                  /\ trip_volume t = None)
    /\ (exists f, In f (facility db) /\ facility_fid f = fid
                  /\ facility_wastetype f = snd target_truck)
    /\ (forall f, In f (facility db) ->
                  facility_wastetype f = snd target_truck ->
                  fid <= facility_fid f).
Proof.
  intros H Hi. apply schedule_trips_commit in H.
  destruct H as [(Hz & _)|(tt & d1 & d2 & fid & H)]; [lia|].
  cbv zeta in H. destruct H as (_ & _ & Ht & _ & _ & _ & Hf & -> & _).
  destruct (trips_loop_count tid (Z.max (fst d1) (fst d2))
                             (Z.min (fst d1) (fst d2)) fid (combine date 16)
                             (aval_route (session c) (snd tt) date)
                             (create_views [AvalDriver_view] (session c))
                             (combine date 8) 0)
    as (news & Hdb & Hrids & _ & Hhd & Hnext & Hall).
  exists tt, news, (fst d1), (fst d2), fid. cbv zeta.
  split; [assumption|]. split; [simpl; now rewrite Hdb|].
  split; [apply aval_route_sorted|].
  split; [assumption|]. split; [assumption|]. split; [assumption|].
  split; [assumption|]. now apply facilities_of_wastetype_head.
Qed.

Lemma schedule_trips_packing_witness :
  exists target_truck news e1 e2 fid,
    let db := session (idle db_pack) in
    let routes := aval_route db (snd target_truck) 0 in
    hd_error (truck_rows db 1) = Some target_truck
    /\ trip (committed (fst (schedule_trips (idle db_pack) 1 0)))
       = trip db ++ news
    /\ StronglySorted (fun a b => fst a <= fst b) routes
    /\ map trip_rid news = firstn (List.length news) (map fst routes)
    /\ (forall t, hd_error news = Some t -> trip_ttime t = combine 0 8)
    /\ (forall k a b,
           nth_error news k = Some a -> nth_error news (S k) = Some b ->
           exists len, nth_error routes k = Some (trip_rid a, len)
                       /\ trip_ttime b
                          = trip_ttime a + trip_duration len + half_hour)
    /\ (forall t, In t news ->
                  trip_tid t = 1 /\ trip_eid1 t = Z.max e1 e2
                  /\ trip_eid2 t = Z.min e1 e2 /\ trip_fid t = fid
                  /\ trip_volume t = None)
    /\ (exists f, In f (facility db) /\ facility_fid f = fid
                  /\ facility_wastetype f = snd target_truck)
    /\ (forall f, In f (facility db) ->
                  facility_wastetype f = snd target_truck ->
                  fid <= facility_fid f).
Proof.
  apply (schedule_trips_packing (idle db_pack) _ 1 0 3).
  - reflexivity.
  - lia.
Defined.

Lemma aval_route_spec (db : Database) (w : string) (date rid len : Z) :
  In (rid, len) (aval_route db w date) <->
  (exists r, In r (route db) /\ route_rid r = rid /\ route_length r = len
             /\ route_wastetype r = w)
  /\ (forall t, In t (trip db) -> trip_rid t = rid ->
                date_of (trip_ttime t) <> date).
Proof.
  unfold aval_route. rewrite in_order_by, (in_distinct _ pair_eqb_eq).
  rewrite in_map_iff. split.
  - intros (r & [= <- <-] & Hr). apply filter_In in Hr.
    destruct Hr as (Hr & H). apply andb_true_iff in H. destruct H as (Ew & H).
    apply String.eqb_eq in Ew. apply negb_true_iff, mem_false in H.
    split; [exists r; auto|].
    intros t Ht E Hd. apply H. rewrite <- E. apply in_map, filter_In.
    split; [assumption|]. unfold on_date. apply Z.eqb_eq. lia.
  - intros ((r & Hr & <- & <- & Ew) & Hfree). exists r.
    split; [reflexivity|]. apply filter_In. split; [assumption|].
    apply andb_true_iff. split; [now apply String.eqb_eq|].
    apply negb_true_iff, mem_false. intros Hin. apply in_map_iff in Hin.
    destruct Hin as (t & E & Ht). apply filter_In in Ht.
    destruct Ht as (Ht & Hd). unfold on_date in Hd. apply Z.eqb_eq in Hd.
    apply (Hfree t Ht E). lia.
Qed.

Lemma firstn_In_map {A B : Type} (f : A -> B) (l : list A) (n : nat) (y : B) :
  In y (firstn n (map f l)) -> exists x, In x l /\ f x = y.
Proof.
  intros H.
  assert (Hin : In y (map f l)).
  { rewrite <- (firstn_skipn n (map f l)). apply in_or_app. now left. }
  apply in_map_iff in Hin. destruct Hin as (x & E & Hx). eauto.
Qed.

(** X9.  [schedule_trips] only schedules routes of the waste type of its
    truck that had no Trip on the date, and both drivers of the new trips
    had no Trip on the date, neither as eid1 nor as eid2. *)
Theorem schedule_trips_candidates (c c' : Connection) (tid date i : Z) :
  schedule_trips c tid date = (c', Returned i) ->
  0 < i ->
  exists target_truck news,
    let db := session c in
    hd_error (truck_rows db tid) = Some target_truck
    /\ trip (committed c') = trip db ++ news
    /\ forall t, In t news ->
                 (exists r, In r (route db) /\ route_rid r = trip_rid t
                            /\ route_wastetype r = snd target_truck)
                 /\ (forall a, In a (trip db) ->
                               date_of (trip_ttime a) = date ->
                               trip_rid a <> trip_rid t
                               /\ trip_eid1 a <> trip_eid1 t
                               /\ trip_eid1 a <> trip_eid2 t
                               /\ trip_eid2 a <> trip_eid1 t
                               /\ trip_eid2 a <> trip_eid2 t).
Proof.
  intros H Hi. apply schedule_trips_commit in H.
  destruct H as [(Hz & _)|(tt & d1 & d2 & fid & H)]; [lia|].
  cbv zeta in H. destruct H as (_ & _ & Ht & _ & Hd1 & Hd2 & _ & -> & _).
  destruct (trips_loop_count tid (Z.max (fst d1) (fst d2))
                             (Z.min (fst d1) (fst d2)) fid (combine date 16)
                             (aval_route (session c) (snd tt) date)
                             (create_views [AvalDriver_view] (session c))
                             (combine date 8) 0)
    as (news & Hdb & Hrids & _ & _ & _ & Hall).
  exists tt, news. cbv zeta. split; [assumption|].
  split; [simpl; now rewrite Hdb|].
  intros t Ht'.
  assert (Hrid : In (trip_rid t)
                    (firstn (List.length news)
                            (map fst (aval_route (session c) (snd tt) date))))
    by (rewrite <- Hrids; now apply in_map).
  apply firstn_In_map in Hrid. destruct Hrid as ([rid len] & Hin & Erid).
  simpl in Erid. subst rid. apply aval_route_spec in Hin.
  destruct Hin as ((r & Hr & Er & _ & Ew) & Hfree).
  split; [exists r; auto|].
  intros a Ha Hdate. destruct (Hall t Ht') as (_ & E1 & E2 & _).
  split; [intros E; now apply (Hfree a Ha E)|].
  rewrite E1, E2.
  assert (Hfree1 : trip_eid1 a <> fst d1 /\ trip_eid2 a <> fst d1).
  { split; intros E; apply (driver_rows_free _ _ d1 a Hd1 Ha); auto. }
  assert (Hfree2 : trip_eid1 a <> fst d2 /\ trip_eid2 a <> fst d2).
  { split; intros E; apply (driver_rows_free _ _ d2 a Hd2 Ha); auto. }
  destruct (Z.max_spec (fst d1) (fst d2)) as [[_ ->]|[_ ->]];
    destruct (Z.min_spec (fst d1) (fst d2)) as [[_ ->]|[_ ->]]; tauto.
Qed.

Lemma schedule_trips_candidates_witness :
  exists target_truck news,
    let db := session (idle db_busy) in
    hd_error (truck_rows db 1) = Some target_truck
    /\ trip (committed (fst (schedule_trips (idle db_busy) 1 0)))
       = trip db ++ news
    /\ forall t, In t news ->
                 (exists r, In r (route db) /\ route_rid r = trip_rid t
                            /\ route_wastetype r = snd target_truck)
                 /\ (forall a, In a (trip db) ->
                               date_of (trip_ttime a) = 0 ->
                               trip_rid a <> trip_rid t
                               /\ trip_eid1 a <> trip_eid1 t
                               /\ trip_eid1 a <> trip_eid2 t
                               /\ trip_eid2 a <> trip_eid1 t
                               /\ trip_eid2 a <> trip_eid2 t).
Proof.
  apply (schedule_trips_candidates (idle db_busy) _ 1 0 1).
  - reflexivity.
  - lia.
Defined.

(** ** More on [update_technicians] *)

(** The rows the loop appends: each comes from a record of the batch whose
    truck type exists and whose name is that of an employee who is no driver,
    and none was in the table or is appended twice. *)
Lemma technicians_loop_spec (content : list (string * string * string)) :
  forall (db : Database) (n : Z),
  exists added,
    technicians_loop db content n
    = (set_technician db (technician db ++ added),
       n + Z.of_nat (List.length added))
    /\ NoDup added
    /\ forall x, In x added ->
                 ~ In x (technician db)
                 /\ (exists tt, In tt (trucktype db)
                                /\ trucktype_trucktype tt
                                   = technician_trucktype x)
                 /\ (exists first last e,
                        In (first, last, technician_trucktype x) content
                        /\ hd_error
                             (filter (fun e => String.eqb (employee_name e)
                                                 (full_name first last))
                                     (employee db)) = Some e
                        /\ employee_eid e = technician_eid x)
                 /\ (forall d, In d (driver db) ->
                               driver_eid d <> technician_eid x).
Proof.
  induction content as [|[[first last] code] rest IH]; intros db n.
  - exists []. simpl. rewrite app_nil_r, Z.add_0_r.
    split; [now destruct db|]. split; [constructor|contradiction].
  - simpl.
    destruct (filter (fun e => String.eqb (employee_name e)
                                          (full_name first last))
                     (employee db)) as [|e es] eqn:Ee.
    { destruct (IH db n) as (added & Hloop & Hnd & Hall).
      exists added. split; [assumption|]. split; [assumption|].
      intros x Hx. destruct (Hall x Hx) as (H1 & H2 & (f & l & e & Hin & H3) & H4).
      repeat split; auto. exists f, l, e. split; [now right|assumption]. }
    destruct (existsb (fun x => String.eqb (trucktype_trucktype x) code)
                      (trucktype db)) eqn:Et; simpl;
      [destruct (existsb (fun x => (technician_eid x =? employee_eid e)
                                   && String.eqb (technician_trucktype x) code)
                         (technician db)) eqn:Er; simpl;
       [|destruct (existsb (fun d => driver_eid d =? employee_eid e)
                           (driver db)) eqn:Ed; simpl]|].
    3: {
      destruct (IH (set_technician db
                      (technician db ++ [mkTechnician (employee_eid e) code]))
                   (n + 1)) as (added & Hloop & Hnd & Hall).
      exists (mkTechnician (employee_eid e) code :: added).
      assert (Hnew : ~ In (mkTechnician (employee_eid e) code) (technician db)).
      { intros Hin. assert (E : existsb
                                  (fun x => (technician_eid x =? employee_eid e)
                                            && String.eqb
                                                 (technician_trucktype x) code)
                                  (technician db) = true); [|congruence].
        apply existsb_exists. eexists. split; [exact Hin|]. simpl.
        now rewrite Z.eqb_refl, String.eqb_refl. }
      split; [|split].
      - rewrite Hloop. simpl. unfold set_technician. simpl.
        rewrite <- app_assoc. simpl. f_equal. lia.
      - constructor; [|assumption]. intros Hin.
        destruct (Hall _ Hin) as (H1 & _). apply H1. simpl.
        apply in_or_app. right. now left.
      - intros x [<-|Hx].
        + simpl. split; [assumption|]. split; [|split].
          * apply existsb_exists in Et. destruct Et as (tt & Htt & E).
            apply String.eqb_eq in E. eauto.
          * exists first, last, e. split; [now left|]. rewrite Ee. auto.
          * intros d Hd E.
            assert (existsb (fun d => driver_eid d =? employee_eid e)
                            (driver db) = true); [|congruence].
            apply existsb_exists. exists d. split; [assumption|].
            now apply Z.eqb_eq.
        + destruct (Hall x Hx) as (H1 & H2 & (f & l & e' & Hin & H3) & H4).
          simpl in *. split; [intros Hin'; apply H1, in_or_app; now left|].
          split; [assumption|]. split; [|assumption].
          exists f, l, e'. split; [now right|assumption]. }
    all: destruct (IH db n) as (added & Hloop & Hnd & Hall);
      exists added; (split; [assumption|]); (split; [assumption|]);
      intros x Hx;
      destruct (Hall x Hx) as (H1 & H2 & (f & l & e' & Hin & H3) & H4);
      repeat split; auto; exists f, l, e'; (split; [now right|assumption]).
Qed.

(** X10.  On a connection that is not in the failed state,
    [update_technicians] commits the table [technician] with the new rows
    appended and nothing else changed, and returns their number; each new
    row was not in the table, its truck type exists, its employee is the one
    named by a record of the batch with that truck type, and no Driver row
    has its employee. *)
Theorem update_technicians_adds_valid_rows
        (c c' : Connection) (content : list (string * string * string))
        (n : Z) :
  failed c = false ->
  update_technicians c content = (c', Returned n) ->
  exists added,
    committed c'
    = set_technician (session c) (technician (session c) ++ added)
    /\ n = Z.of_nat (List.length added)
    /\ forall x, In x added ->
                 ~ In x (technician (session c))
                 /\ (exists tt, In tt (trucktype (session c))
                                /\ trucktype_trucktype tt
                                   = technician_trucktype x)
                 /\ (exists first last e,
                        In (first, last, technician_trucktype x) content
                        /\ hd_error
                             (filter (fun e => String.eqb (employee_name e)
                                                 (full_name first last))
                                     (employee (session c))) = Some e
                        /\ employee_eid e = technician_eid x)
                 /\ (forall d, In d (driver (session c)) ->
                               driver_eid d <> technician_eid x).
Proof.
  intros Hf. unfold update_technicians. rewrite Hf.
  destruct (technicians_loop_spec content (session c) 0)
    as (added & Hloop & _ & Hall).
  rewrite Hloop. intros [= <- <-]. exists added.
  split; [unfold commit, write; simpl; now rewrite Hf|].
  split; [lia|assumption].
Qed.

(** X11.  [update_technicians] keeps the table [technician] free of
    duplicate rows and free of employees that have a Driver row. *)
Theorem update_technicians_keeps_keys
        (c c' : Connection) (content : list (string * string * string))
        (n : Z) :
  failed c = false ->
  NoDup (technician (session c)) ->
  (forall x d, In x (technician (session c)) -> In d (driver (session c)) ->
               driver_eid d <> technician_eid x) ->
  update_technicians c content = (c', Returned n) ->
  NoDup (technician (committed c'))
  /\ (forall x d, In x (technician (committed c')) ->
                  In d (driver (committed c')) ->
                  driver_eid d <> technician_eid x).
Proof.
  intros Hf Hnd Hdis. unfold update_technicians. rewrite Hf.
  destruct (technicians_loop_spec content (session c) 0)
    as (added & Hloop & Hnda & Hall).
  rewrite Hloop. intros [= <- _]. unfold commit, write. simpl. rewrite Hf.
  simpl. split.
  - apply NoDup_app; [assumption|assumption|].
    intros x Hx Hxa. now apply (Hall x Hxa).
  - intros x d Hx Hd. apply in_app_or in Hx. destruct Hx as [Hx|Hx].
    + now apply Hdis.
    + now apply (Hall x Hx).
Qed.

Lemma update_technicians_adds_valid_rows_witness :
  exists added,
    committed (fst (update_technicians (idle db_import) batch))
    = set_technician (session (idle db_import))
                     (technician (session (idle db_import)) ++ added)
    /\ 1 = Z.of_nat (List.length added)
    /\ forall x, In x added ->
                 ~ In x (technician (session (idle db_import)))
                 /\ (exists tt, In tt (trucktype (session (idle db_import)))
                                /\ trucktype_trucktype tt
                                   = technician_trucktype x)
                 /\ (exists first last e,
                        In (first, last, technician_trucktype x) batch
                        /\ hd_error
                             (filter (fun e => String.eqb (employee_name e)
                                                 (full_name first last))
                                     (employee (session (idle db_import))))
                           = Some e
                        /\ employee_eid e = technician_eid x)
                 /\ (forall d, In d (driver (session (idle db_import))) ->
                               driver_eid d <> technician_eid x).
Proof.
  apply (update_technicians_adds_valid_rows (idle db_import) _ batch 1);
    reflexivity.
Defined.

Lemma update_technicians_keeps_keys_witness :
  NoDup (technician
           (committed (fst (update_technicians (idle db_import) batch))))
  /\ (forall x d,
         In x (technician
                 (committed (fst (update_technicians (idle db_import) batch)))) ->
         In d (driver
                 (committed (fst (update_technicians (idle db_import) batch)))) ->
         driver_eid d <> technician_eid x).
Proof.
  apply (update_technicians_keeps_keys (idle db_import) _ batch 1).
  - reflexivity.
  - repeat constructor. simpl. tauto.
  - intros x d [<-|[]] [<-|[]]. discriminate.
  - reflexivity.
Defined.

Lemma accepts_step (db : Database) (first last code : string)
      (rest : list (string * string * string)) (n : Z) :
  technicians_loop db ((first, last, code) :: rest) n
  = if accepts db (first, last, code)
    then match filter (fun e => String.eqb (employee_name e)
                                           (full_name first last))
                      (employee db) with
         | [] => technicians_loop db rest n
         | e :: _ =>
             technicians_loop
               (set_technician db (technician db
                                   ++ [mkTechnician (employee_eid e) code]))
               rest (n + 1)
         end
    else technicians_loop db rest n.
Proof.
  simpl. destruct (filter _ (employee db)); [reflexivity|].
  destruct (_ && _ && _); reflexivity.
Qed.

Lemma technicians_loop_settled (content : list (string * string * string)) :
  forall db n,
    (forall record, In record content -> accepts db record = false) ->
    technicians_loop db content n = (db, n).
Proof.
  induction content as [|[[first last] code] rest IH]; intros db n Hall;
    [reflexivity|].
  rewrite accepts_step, (Hall (first, last, code)) by now left.
  apply IH. intros record Hin. apply Hall. now right.
Qed.

(** A record that is turned down stays turned down when rows are appended
    to [technician]. *)
Lemma accepts_false_mono (db : Database) (added : list Technician)
      (record : string * string * string) :
  accepts db record = false ->
  accepts (set_technician db (technician db ++ added)) record = false.
Proof.
  destruct record as [[first last] code]. unfold accepts. simpl.
  destruct (filter _ (employee db)) as [|e es]; [reflexivity|].
  rewrite existsb_app.
  set (a := existsb _ (trucktype db)). set (b := existsb _ (driver db)).
  set (r := existsb _ (technician db)). set (r' := existsb _ added).
  destruct a, b, r, r'; simpl; congruence.
Qed.

Lemma accepts_once (db : Database) (first last code : string) (e : Employee)
      (es : list Employee) :
  filter (fun e => String.eqb (employee_name e) (full_name first last))
         (employee db) = e :: es ->
  accepts (set_technician db (technician db
                              ++ [mkTechnician (employee_eid e) code]))
          (first, last, code) = false.
Proof.
  intros E. unfold accepts. simpl. rewrite E, existsb_app. simpl.
  rewrite Z.eqb_refl, String.eqb_refl. simpl.
  rewrite orb_true_r. simpl. now rewrite andb_false_r.
Qed.

(** After the loop every record of the batch is turned down. *)
Lemma technicians_loop_settles (content : list (string * string * string)) :
  forall db n record,
    In record content ->
    accepts (fst (technicians_loop db content n)) record = false.
Proof.
  induction content as [|[[first last] code] rest IH]; intros db n record Hin;
    [contradiction|].
  rewrite accepts_step.
  destruct (accepts db (first, last, code)) eqn:Ea.
  - destruct (filter (fun e => String.eqb (employee_name e)
                                          (full_name first last))
                     (employee db)) as [|e es] eqn:Ee.
    { unfold accepts in Ea. now rewrite Ee in Ea. }
    destruct Hin as [<-|Hin]; [|now apply IH].
    destruct (technicians_loop_spec
                rest (set_technician db (technician db
                                         ++ [mkTechnician (employee_eid e) code]))
                (n + 1)) as (added & Hloop & _).
    rewrite Hloop. cbn [fst].
    apply (accepts_false_mono
             (set_technician db (technician db
                                 ++ [mkTechnician (employee_eid e) code]))).
    now apply (accepts_once db first last code e es).
  - destruct Hin as [<-|Hin]; [|now apply IH].
    destruct (technicians_loop_spec rest db n) as (added & Hloop & _).
    rewrite Hloop. cbn [fst]. now apply accepts_false_mono.
Qed.

(** X12.  Importing the same batch a second time changes nothing and
    returns 0. *)
Theorem update_technicians_twice
        (c c' : Connection) (content : list (string * string * string))
        (n : Z) :
  failed c = false ->
  update_technicians c content = (c', Returned n) ->
  update_technicians c' content = (c', Returned 0).
Proof.
  intros Hf. unfold update_technicians at 1. rewrite Hf.
  pose proof (technicians_loop_settles content (session c) 0) as Hset.
  destruct (technicians_loop (session c) content 0) as [db m].
  intros [= <- _]. unfold update_technicians, commit, write. simpl.
  rewrite Hf. simpl.
  rewrite (technicians_loop_settled content db 0) by exact Hset.
  reflexivity.
Qed.

Lemma update_technicians_twice_witness :
  update_technicians (fst (update_technicians (idle db_import) batch)) batch
  = (fst (update_technicians (idle db_import) batch), Returned 0).
Proof.
  apply (update_technicians_twice (idle db_import) _ batch 1); reflexivity.
Defined.

(** ** More on [workmate_sphere] *)

Lemma workmate_iff (db : Database) (a b : Z) :
  workmate db a b <->
  exists t, In t (trip db)
            /\ ((trip_eid1 t = a /\ trip_eid2 t = b)
                \/ (trip_eid2 t = a /\ trip_eid1 t = b)).
Proof.
  split.
  - intros [t Ht|t Ht]; exists t; auto.
  - intros (t & Ht & [(<- & <-)|(<- & <-)]); now constructor.
Qed.

Lemma workmate_sym (db : Database) (a b : Z) :
  workmate db a b -> workmate db b a.
Proof. intros [t Ht|t Ht]; now constructor. Qed.

Lemma set_add_In (x y : Z) (s : list Z) :
  In x (set_add y s) <-> x = y \/ In x s.
Proof.
  unfold set_add. destruct (mem y s) eqn:E.
  - apply mem_In in E. split; [auto|]. intros [->|H]; assumption.
  - rewrite in_app_iff. simpl. intuition congruence.
Qed.

Lemma set_add_NoDup (y : Z) (s : list Z) : NoDup s -> NoDup (set_add y s).
Proof.
  intros H. unfold set_add. destruct (mem y s) eqn:E; [assumption|].
  apply mem_false in E. apply NoDup_app; [assumption|repeat constructor; auto|].
  intros x Hx [<-|[]]. contradiction.
Qed.

Lemma add_all_In (l : list Z) :
  forall s x,
    In x (fold_left (fun result e => set_add e result) l s)
    <-> In x l \/ In x s.
Proof.
  induction l as [|y l IH]; intros s x; simpl; [tauto|].
  rewrite IH, set_add_In. intuition congruence.
Qed.

Lemma add_all_NoDup (l : list Z) :
  forall s, NoDup s ->
            NoDup (fold_left (fun result e => set_add e result) l s).
Proof.
  induction l as [|y l IH]; intros s Hs; simpl; [assumption|].
  now apply IH, set_add_NoDup.
Qed.

Lemma first_layer_In (db : Database) (eid x : Z) :
  In x (first_layer db eid) <-> workmate db eid x.
Proof.
  unfold first_layer.
  rewrite in_distinct_Z, in_app_iff, !in_map_iff, workmate_iff. split.
  - intros [(t & <- & Ht)|(t & <- & Ht)]; apply filter_In in Ht;
      destruct Ht as (Ht & E); apply Z.eqb_eq in E; exists t; auto.
  - intros (t & Ht & [(E & <-)|(E & <-)]); [right|left]; exists t;
      (split; [reflexivity|]); apply filter_In;
      (split; [assumption|]); now apply Z.eqb_eq.
Qed.

Lemma second_layer_In (db : Database) (e eid x : Z) :
  In x (second_layer db e eid) <-> workmate db e x /\ x <> eid.
Proof.
  unfold second_layer.
  rewrite in_distinct_Z, in_app_iff, !in_map_iff, workmate_iff. split.
  - intros [(t & <- & Ht)|(t & <- & Ht)]; apply filter_In in Ht;
      destruct Ht as (Ht & E); apply andb_true_iff in E;
      destruct E as (E & N); apply Z.eqb_eq in E;
      apply negb_true_iff, Z.eqb_neq in N; (split; [exists t; auto|assumption]).
  - intros ((t & Ht & [(E & <-)|(E & <-)]) & N); [right|left]; exists t;
      (split; [reflexivity|]); apply filter_In;
      (split; [assumption|]); apply andb_true_iff;
      (split; [now apply Z.eqb_eq|now apply negb_true_iff, Z.eqb_neq]).
Qed.

Lemma sphere_loop_In (db : Database) (eid : Z) (direct : list Z) (x : Z) :
  In x (sphere_loop db eid direct) <->
  In x direct \/ exists e, In e direct /\ In x (second_layer db e eid).
Proof.
  unfold sphere_loop.
  assert (H : forall s,
             In x (fold_left
                     (fun result e =>
                        fold_left (fun result e_wm => set_add e_wm result)
                                  (second_layer db e eid) (set_add e result))
                     direct s)
             <-> In x s \/ In x direct
                 \/ exists e, In e direct /\ In x (second_layer db e eid)).
  { induction direct as [|e direct IH]; intros s; simpl.
    - split; [auto|]. intros [H|[[]|(e & [] & _)]]. assumption.
    - rewrite IH, add_all_In, set_add_In. split.
      + intros [[H|[->|H]]|[H|(e' & He' & H)]]; eauto 6.
      + intros [H|[[->|H]|(e' & [->|He'] & H)]]; eauto 6. }
  rewrite H. simpl. tauto.
Qed.

Lemma sphere_loop_NoDup (db : Database) (eid : Z) (direct : list Z) :
  NoDup (sphere_loop db eid direct).
Proof.
  unfold sphere_loop.
  assert (H : forall s, NoDup s ->
               NoDup (fold_left
                        (fun result e =>
                           fold_left (fun result e_wm => set_add e_wm result)
                                     (second_layer db e eid)
                                     (set_add e result))
                        direct s)).
  { induction direct as [|e direct IH]; intros s Hs; simpl; [assumption|].
    now apply IH, add_all_NoDup, set_add_NoDup. }
  apply H. constructor.
Qed.

(** What [workmate_sphere] returns on a connection that is not failed. *)
Lemma workmate_sphere_value (c : Connection) (eid : Z) :
  failed c = false ->
  exists l,
    snd (workmate_sphere c eid) = Returned l
    /\ NoDup l
    /\ forall x,
        In x l <->
        (exists d, In d (driver (session c)) /\ driver_eid d = eid)
        /\ (workmate (session c) eid x
            \/ exists e, workmate (session c) eid e
                         /\ workmate (session c) e x /\ x <> eid).
Proof.
  intros Hf. unfold workmate_sphere. rewrite Hf.
  destruct (existsb (fun d => driver_eid d =? eid) (driver (session c)))
    eqn:Ed; simpl.
  - assert (Hd : exists d, In d (driver (session c)) /\ driver_eid d = eid).
    { apply existsb_exists in Ed. destruct Ed as (d & Hd & E).
      apply Z.eqb_eq in E. eauto. }
    destruct (first_layer (session c) eid) as [|e0 direct] eqn:El.
    + exists []. simpl. split; [reflexivity|]. split; [constructor|].
      intros x. split; [contradiction|].
      intros (_ & [H|(e & H & _)]); apply first_layer_In in H;
        rewrite El in H; contradiction.
    + exists (sphere_loop (session c) eid (e0 :: direct)). simpl.
      split; [reflexivity|]. split; [apply sphere_loop_NoDup|].
      intros x. rewrite sphere_loop_In, <- El. split.
      * intros [H|(e & He & H)]; (split; [assumption|]).
        -- left. now apply first_layer_In.
        -- right. exists e. apply first_layer_In in He.
           apply second_layer_In in H. tauto.
      * intros (_ & [H|(e & He & H)]).
        -- left. now apply first_layer_In.
        -- right. exists e. split; [now apply first_layer_In|].
           now apply second_layer_In.
  - exists []. simpl. split; [reflexivity|]. split; [constructor|].
    intros x. split; [contradiction|]. intros ((d & Hd & E) & _).
    assert (existsb (fun d => driver_eid d =? eid) (driver (session c)) = true);
      [|congruence].
    apply existsb_exists. exists d. split; [assumption|]. now apply Z.eqb_eq.
Qed.

(** X13.  On a connection that is not failed, [workmate_sphere] returns a
    list without duplicates that holds exactly: nothing when [eid] has no
    Driver row; otherwise the employees who shared a trip with [eid], and
    the employees other than [eid] who shared a trip with one of those. *)
Theorem workmate_sphere_two_layers (c : Connection) (eid : Z) :
  failed c = false ->
  exists l,
    snd (workmate_sphere c eid) = Returned l
    /\ NoDup l
    /\ forall x,
        In x l <->
        (exists d, In d (driver (session c)) /\ driver_eid d = eid)
        /\ (workmate (session c) eid x
            \/ exists e, workmate (session c) eid e
                         /\ workmate (session c) e x /\ x <> eid).
Proof. exact (workmate_sphere_value c eid). Qed.

Lemma workmate_sphere_two_layers_witness :
  exists l,
    snd (workmate_sphere (idle db_chain) 2) = Returned l
    /\ NoDup l
    /\ forall x,
        In x l <->
        (exists d, In d (driver (session (idle db_chain))) /\ driver_eid d = 2)
        /\ (workmate (session (idle db_chain)) 2 x
            \/ exists e, workmate (session (idle db_chain)) 2 e
                         /\ workmate (session (idle db_chain)) e x /\ x <> 2).
Proof.
  apply (workmate_sphere_two_layers (idle db_chain) 2). reflexivity.
Defined.

(** X14.  The relation is symmetric between drivers: when [b] has a Driver
    row and is in the list returned for [a], then [a] is in the list returned
    for [b]. *)
Theorem workmate_sphere_symmetric (c : Connection) (a b : Z) (la lb : list Z) :
  failed c = false ->
  snd (workmate_sphere c a) = Returned la ->
  snd (workmate_sphere c b) = Returned lb ->
  (exists d, In d (driver (session c)) /\ driver_eid d = b) ->
  In b la -> In a lb.
Proof.
  intros Hf Ha Hb Hdb Hin.
  destruct (workmate_sphere_value c a Hf) as (la' & Ea & _ & Hla).
  destruct (workmate_sphere_value c b Hf) as (lb' & Eb & _ & Hlb).
  rewrite Ea in Ha. injection Ha as ->. rewrite Eb in Hb. injection Hb as ->.
  apply Hla in Hin. destruct Hin as (_ & H). apply Hlb.
  split; [assumption|]. destruct H as [H|(e & H1 & H2 & N)].
  - left. now apply workmate_sym.
  - right. exists e. auto using workmate_sym.
Qed.

Lemma workmate_sphere_symmetric_witness : In 1 [4; 2; 1].
Proof.
  apply (workmate_sphere_symmetric (idle db_chain) 1 3 [2; 3] [4; 2; 1]).
  - reflexivity.
  - reflexivity.
  - reflexivity.
  - exists (mkDriver 3 "A"). split; [simpl; tauto|reflexivity].
  - simpl. tauto.
Defined.

(** X15.  Every employee [workmate_sphere] returns is reachable from [eid]
    through shared trips, and [eid] itself is returned only when some Trip
    row has [eid] as both of its drivers. *)
Theorem workmate_sphere_sound (c : Connection) (eid : Z) (l : list Z) :
  failed c = false ->
  snd (workmate_sphere c eid) = Returned l ->
  (forall x, In x l -> reachable (session c) eid x)
  /\ (In eid l ->
      exists t, In t (trip (session c))
                /\ trip_eid1 t = eid /\ trip_eid2 t = eid).
Proof.
  intros Hf H.
  destruct (workmate_sphere_value c eid Hf) as (l' & E & _ & Hl).
  rewrite E in H. injection H as ->. split.
  - intros x Hx. apply Hl in Hx. destruct Hx as (_ & [H|(e & H1 & H2 & _)]).
    + now apply reachable_hop.
    + apply reachable_more with e; [now apply reachable_hop|assumption].
  - intros Hin. apply Hl in Hin. destruct Hin as (_ & [H|(e & _ & _ & N)]);
      [|congruence].
    apply workmate_iff in H. destruct H as (t & Ht & [(E1 & E2)|(E1 & E2)]);
      exists t; auto.
Qed.

Lemma workmate_sphere_sound_witness :
  (forall x, In x [2; 3] -> reachable (session (idle db_chain)) 1 x)
  /\ (In 1 [2; 3] ->
      exists t, In t (trip (session (idle db_chain)))
                /\ trip_eid1 t = 1 /\ trip_eid2 t = 1).
Proof.
  apply (workmate_sphere_sound (idle db_chain) 1 [2; 3]); reflexivity.
Defined.

(** ** More on [schedule_maintenance] *)

Lemma free_technicians_In (db : Database) (code : string) (cur_date e : Z) :
  In e (free_technicians db code cur_date) <->
  (exists x, In x (technicians_of db code) /\ technician_eid x = e)
  /\ (forall m, In m (maintenance db) -> maintenance_eid m = e ->
                maintenance_mdate m <> cur_date).
Proof.
  unfold free_technicians.
  rewrite in_order_by, in_distinct_Z, filter_In, in_map_iff.
  rewrite negb_true_iff, mem_false, in_map_iff. split.
  - intros ((x & E & Hx) & Hfree). split; [eauto|].
    intros m Hm Em Hd. apply Hfree. exists m. split; [assumption|].
    apply filter_In. split; [assumption|]. apply Z.eqb_eq. lia.
  - intros ((x & Hx & E) & Hfree). split; [eauto|].
    intros (m & Em & Hm). apply filter_In in Hm. destruct Hm as (Hm & Hd).
    apply Z.eqb_eq in Hd. apply (Hfree m Hm Em). lia.
Qed.

(** X16.  When the day search of a truck ends with a technician and a day,
    the day is the first one from [cur_date] on which some technician
    qualified for the truck's type has no maintenance record, and the
    technician is the one of lowest id among those free on that day. *)
Theorem day_search_first_free_day
        (fuel : nat) (db : Database) (tid cur_date eid day : Z) :
  day_search fuel db tid cur_date = Some (Found eid day) ->
  exists code,
    trucktype_of db tid = SqValue code
    /\ cur_date <= day
    /\ In eid (free_technicians db code day)
    /\ (forall e, In e (free_technicians db code day) -> eid <= e)
    /\ (forall d e, cur_date <= d < day ->
                    ~ In e (free_technicians db code d)).
Proof.
  revert cur_date. induction fuel as [|fuel IH]; intros cur_date; simpl;
    [discriminate|].
  destruct (trucktype_of db tid) as [|code|] eqn:Et; try discriminate.
  destruct (technicians_of db code) as [|x xs] eqn:Ex; [discriminate|].
  destruct (free_technicians db code cur_date) as [|e0 rest] eqn:Ef.
  - intros H. destruct (IH _ H) as (code' & Ec & Hle & Hin & Hmin & Hbefore).
    assert (code' = code) by congruence. subst code'.
    exists code. split; [reflexivity|]. split; [lia|].
    split; [assumption|]. split; [assumption|].
    intros d e Hd. destruct (Z.eq_dec d cur_date) as [->|Hne].
    + rewrite Ef. intros [].
    + apply Hbefore. lia.
  - intros [= <- <-]. exists code. split; [reflexivity|]. split; [lia|].
    split; [rewrite Ef; now left|]. split; [|intros d e Hd; lia].
    intros e He. apply Z.leb_le. unfold free_technicians in Ef, He.
    apply in_order_by in He.
    match type of Ef with
    | order_by _ ?rows = _ =>
        apply (order_by_head Z.leb Z_leb_total Z_leb_trans rows e0 e);
          [now rewrite Ef|assumption]
    end.
Qed.

Lemma day_search_first_free_day_witness :
  exists code,
    trucktype_of db_backlog 1 = SqValue code
    /\ 201 <= 202
    /\ In 7 (free_technicians db_backlog code 202)
    /\ (forall e, In e (free_technicians db_backlog code 202) -> 7 <= e)
    /\ (forall d e, 201 <= d < 202 ->
                    ~ In e (free_technicians db_backlog code d)).
Proof.
  apply (day_search_first_free_day 2 db_backlog 1 201 7 202). reflexivity.
Defined.

Lemma distinct_NoDup {A : Type} (eqb : A -> A -> bool) (l : list A) :
  (forall a b, eqb a b = true <-> a = b) -> NoDup (distinct eqb l).
Proof.
  intros Heq. induction l as [|x l IH]; simpl; [constructor|].
  destruct (existsb (eqb x) l) eqn:E; [assumption|].
  constructor; [|assumption]. intros Hin.
  apply (proj1 (in_distinct _ Heq _ _)) in Hin.
  assert (existsb (eqb x) l = true); [|congruence].
  apply existsb_exists. exists x. split; [assumption|]. now apply Heq.
Qed.

(** The records the loop over the candidate trucks appends. *)
Lemma maintain_loop_spec (fuel : nat) (date : Z) (trucks : list Z) :
  forall (db db' : Database) (n m : Z),
    maintain_loop fuel db date trucks n = Some (db', Some m) ->
    exists news,
      db' = set_maintenance db (maintenance db ++ news)
      /\ m = n + Z.of_nat (List.length news)
      /\ (forall r, In r news ->
                    In (maintenance_tid r) trucks
                    /\ date < maintenance_mdate r
                    /\ exists code x,
                        trucktype_of db (maintenance_tid r) = SqValue code
                        /\ In x (technicians_of db code)
                        /\ technician_eid x = maintenance_eid r)
      /\ (NoDup trucks -> NoDup (map maintenance_tid news))
      /\ (forall r, In r news -> ~ In (slot r) (map slot (maintenance db)))
      /\ NoDup (map slot news).
Proof.
  induction trucks as [|tid rest IH]; intros db db' n m; simpl.
  - intros [= <- <-]. exists []. simpl. rewrite app_nil_r, Z.add_0_r.
    split; [now destruct db|]. split; [reflexivity|].
    split; [contradiction|]. split; [constructor|].
    split; [contradiction|constructor].
  - destruct (day_search fuel db tid (date + 1)) as [[|eid day|]|] eqn:Es;
      try discriminate.
    + intros H. destruct (IH _ _ _ _ H)
        as (news & Hdb & Hm & Hall & Hnd & Hfresh & Hslots).
      exists news. split; [assumption|]. split; [assumption|].
      split; [intros r Hr; destruct (Hall r Hr); tauto|].
      split; [intros Ht; apply Hnd; now inversion Ht|tauto].
    + intros H. destruct (IH _ _ _ _ H)
        as (news & Hdb & Hm & Hall & Hnd & Hfresh & Hslots).
      pose proof (day_search_first_free_day _ _ _ _ _ _ Es)
        as (code & Ec & Hday & Hin & _).
      apply free_technicians_In in Hin. destruct Hin as ((x & Hx & Ex) & Hfree).
      exists (mkMaintenance tid eid day :: news).
      split; [|split; [|split; [|split; [|split]]]].
      * rewrite Hdb. unfold insert_maintenance, set_maintenance. simpl.
        now rewrite <- app_assoc.
      * rewrite Hm. simpl List.length. lia.
      * intros r [<-|Hr]; simpl.
        -- split; [now left|]. split; [lia|]. exists code, x. auto.
        -- destruct (Hall r Hr) as (H1 & H2 & H3). auto.
      * intros Ht. inversion Ht as [|? ? Hnot Hrest]; subst. simpl.
        constructor; [|now apply Hnd]. intros Hin.
        apply in_map_iff in Hin. destruct Hin as (r & E & Hr).
        destruct (Hall r Hr) as (H1 & _). congruence.
      * intros r [<-|Hr] Hin.
        -- apply in_map_iff in Hin. destruct Hin as (m0 & E & Hm0).
           unfold slot in E. simpl in E. injection E as E1 E2.
           now apply (Hfree m0 Hm0).
        -- apply (Hfresh r Hr). simpl. rewrite map_app. apply in_or_app.
           now left.
      * simpl. constructor; [|assumption]. intros Hin.
        apply in_map_iff in Hin. destruct Hin as (r & E & Hr).
        apply (Hfresh r Hr). simpl. rewrite map_app. apply in_or_app.
        right. simpl. left. now rewrite E.
Qed.

(** X17.  On a connection that is not failed, a [schedule_maintenance] that
    returns either commits nothing and returns 0, or appends maintenance
    records and returns their number: one record at most per candidate
    truck, each after [date], each with a technician qualified for the
    truck's type; and when no technician had two records on one day before,
    none has afterwards. *)
Theorem schedule_maintenance_records
        (fuel : nat) (c c' : Connection) (date n : Z) :
  failed c = false ->
  schedule_maintenance fuel c date = Some (c', Returned n) ->
  (committed c' = committed c /\ n = 0)
  \/ exists news,
      committed c'
      = set_maintenance (session c) (maintenance (session c) ++ news)
      /\ n = Z.of_nat (List.length news)
      /\ NoDup (map maintenance_tid news)
      /\ (forall r, In r news ->
                    In (maintenance_tid r)
                       (trucks_to_maintain (session c) date)
                    /\ date < maintenance_mdate r
                    /\ exists code x,
                        trucktype_of (session c) (maintenance_tid r)
                        = SqValue code
                        /\ In x (technicians_of (session c) code)
                        /\ technician_eid x = maintenance_eid r)
      /\ (NoDup (map slot (maintenance (session c))) ->
          NoDup (map slot (maintenance (committed c')))).
Proof.
  intros Hf. unfold schedule_maintenance. rewrite Hf.
  destruct (trucks_to_maintain (session c) date) as [|tid rest] eqn:Et.
  { intros [= <- <-]. left. split; reflexivity. }
  destruct (maintain_loop fuel (session c) date (tid :: rest) 0)
    as [[db' [m|]]|] eqn:El; [| |discriminate].
  - intros [= <- <-]. right.
    destruct (maintain_loop_spec _ _ _ _ _ _ _ El)
      as (news & Hdb & Hm & Hall & Hnd & Hfresh & Hslots).
    exists news. unfold commit, write. simpl. rewrite Hf. simpl.
    split; [assumption|]. split; [lia|].
    split; [apply Hnd; rewrite <- Et; apply distinct_NoDup, Z.eqb_eq|].
    split; [assumption|].
    intros Hold. rewrite Hdb. simpl. rewrite map_app.
    apply NoDup_app; [assumption|assumption|].
    intros k Hk Hk'. apply in_map_iff in Hk'. destruct Hk' as (r & <- & Hr).
    now apply (Hfresh r Hr).
  - intros [= <- <-]. left. split; reflexivity.
Qed.

Lemma schedule_maintenance_records_witness :
  (insert_maintenance db_backlog (mkMaintenance 1 7 202)
   = committed (idle db_backlog) /\ 1 = 0)
  \/ exists news,
      insert_maintenance db_backlog (mkMaintenance 1 7 202)
      = set_maintenance (session (idle db_backlog))
                        (maintenance (session (idle db_backlog)) ++ news)
      /\ 1 = Z.of_nat (List.length news)
      /\ NoDup (map maintenance_tid news)
      /\ (forall r, In r news ->
                    In (maintenance_tid r)
                       (trucks_to_maintain (session (idle db_backlog)) 200)
                    /\ 200 < maintenance_mdate r
                    /\ exists code x,
                        trucktype_of (session (idle db_backlog))
                                     (maintenance_tid r) = SqValue code
                        /\ In x (technicians_of (session (idle db_backlog))
                                                code)
                        /\ technician_eid x = maintenance_eid r)
      /\ (NoDup (map slot (maintenance (session (idle db_backlog)))) ->
          NoDup (map slot
                     (maintenance
                        (insert_maintenance db_backlog
                                            (mkMaintenance 1 7 202))))).
Proof.
  apply (schedule_maintenance_records
           2 (idle db_backlog)
           (mkConnection
              (insert_maintenance db_backlog (mkMaintenance 1 7 202))
              (insert_maintenance db_backlog (mkMaintenance 1 7 202)) false)
           200 1);
    reflexivity.
Defined.




(** ** More on [reroute_waste] *)

Lemma alternate_facilities_head (db : Database) (fid alter_f : Z)
      (rest : list Z) :
  alternate_facilities db fid = SqValue (alter_f :: rest) ->
  alter_f <> fid
  /\ exists f0 f,
      In f0 (facility db) /\ facility_fid f0 = fid
      /\ In f (facility db) /\ facility_fid f = alter_f
      /\ facility_wastetype f = facility_wastetype f0
      /\ forall f', In f' (facility db) ->
                    facility_wastetype f' = facility_wastetype f0 ->
                    facility_fid f' <> fid -> alter_f <= facility_fid f'.
Proof.
  unfold alternate_facilities, scalar.
  destruct (map facility_wastetype
                (filter (fun f => facility_fid f =? fid) (facility db)))
    as [|w [|w' ws]] eqn:Ew; try discriminate.
  intros [= H].
  assert (Hf0 : exists f0, In f0 (facility db) /\ facility_fid f0 = fid
                           /\ facility_wastetype f0 = w).
  { assert (Hin : In w (map facility_wastetype
                            (filter (fun f => facility_fid f =? fid)
                                    (facility db))))
      by (rewrite Ew; now left).
    apply in_map_iff in Hin. destruct Hin as (f0 & E & Hf0).
    apply filter_In in Hf0. destruct Hf0 as (Hf0 & Efid).
    apply Z.eqb_eq in Efid. eauto. }
  destruct Hf0 as (f0 & Hf0 & Efid & <-).
  assert (Hhd : hd_error
                  (order_by Z.leb
                     (map facility_fid
                          (filter (fun f =>
                                     String.eqb (facility_wastetype f)
                                                (facility_wastetype f0)
                                     && negb (facility_fid f =? fid))
                                  (facility db)))) = Some alter_f)
    by (now rewrite H).
  pose proof (hd_error_In _ _ Hhd) as Hin.
  apply in_order_by, in_map_iff in Hin. destruct Hin as (f & E & Hf).
  apply filter_In in Hf. destruct Hf as (Hf & Hc).
  apply andb_true_iff in Hc. destruct Hc as (Ewf & Hne).
  apply String.eqb_eq in Ewf. apply negb_true_iff, Z.eqb_neq in Hne.
  split; [congruence|]. exists f0, f. repeat split; auto.
  intros f' Hf' Ew' Hne'. apply Z.leb_le.
  apply (order_by_head Z.leb Z_leb_total Z_leb_trans _ _ _ Hhd).
  apply in_map, filter_In. split; [assumption|].
  apply andb_true_iff. split; [now apply String.eqb_eq|].
  now apply negb_true_iff, Z.eqb_neq.
Qed.

(** What a [reroute_waste] that returns a positive count has gone through. *)
Lemma reroute_waste_commit (c c' : Connection) (fid date n : Z) :
  failed c = false ->
  reroute_waste c fid date = (c', Returned n) -> 0 < n ->
  exists alter_f rest,
    alternate_facilities (session c) fid = SqValue (alter_f :: rest)
    /\ c' = mkConnection (update_trip_fid (session c) alter_f fid date)
                         (update_trip_fid (session c) alter_f fid date) false
    /\ n = Z.of_nat
             (List.length
                (filter (fun t => (trip_fid t =? fid) && on_date date t)
                        (trip (session c)))).
Proof.
  intros Hf. unfold reroute_waste. rewrite Hf.
  destruct (filter (fun t => (trip_fid t =? fid) && on_date date t)
                   (trip (session c))) as [|t ts] eqn:Et.
  { intros [= <- <-]. lia. }
  destruct (alternate_facilities (session c) fid) as [|[|alter_f rest]|];
    try (intros [= <- <-]; lia).
  intros [= <- <-] _. exists alter_f, rest.
  split; [reflexivity|]. split; [|reflexivity].
  unfold commit, write. simpl. now rewrite Hf.
Qed.

(** X19.  A [reroute_waste] that returns a positive count returns the number
    of Trip rows of the facility on the date.  It commits the Trip rows it
    found, those of the facility on the date with their facility replaced by
    one other facility - the one of lowest id among the other facilities of
    the same waste type - and every other row as it was (the rows as a
    multiset: nothing is said of their order), and no other table changes. *)
Theorem reroute_waste_effect (c c' : Connection) (fid date n : Z) :
  failed c = false ->
  reroute_waste c fid date = (c', Returned n) -> 0 < n ->
  exists alter_f,
    alter_f <> fid
    /\ (exists f0 f,
           In f0 (facility (session c)) /\ facility_fid f0 = fid
           /\ In f (facility (session c)) /\ facility_fid f = alter_f
           /\ facility_wastetype f = facility_wastetype f0
           /\ forall f', In f' (facility (session c)) ->
                         facility_wastetype f' = facility_wastetype f0 ->
                         facility_fid f' <> fid -> alter_f <= facility_fid f')
    /\ n = Z.of_nat
             (List.length
                (filter (fun t => (trip_fid t =? fid) && on_date date t)
                        (trip (session c))))
    /\ Permutation
         (trip (committed c'))
         (map (fun t =>
                 if (trip_fid t =? fid) && (date_of (trip_ttime t) =? date)
                 then mkTrip (trip_rid t) (trip_tid t) (trip_ttime t)
                             (trip_volume t) (trip_eid1 t) (trip_eid2 t)
                             alter_f
                 else t)
              (trip (session c)))
    /\ committed c' = set_trip (session c) (trip (committed c')).
Proof.
  intros Hf H Hn.
  destruct (reroute_waste_commit _ _ _ _ _ Hf H Hn) as (alter_f & rest & Ha & -> & ->).
  exists alter_f. destruct (alternate_facilities_head _ _ _ _ Ha) as (Hne & Hfac).
  split; [assumption|]. split; [assumption|]. split; [reflexivity|].
  split; [|reflexivity].
  simpl. erewrite map_ext; [apply Permutation_refl|].
  intros t. simpl. unfold on_date.
  replace (date_of (trip_ttime t) - date =? 0)
    with (date_of (trip_ttime t) =? date)
    by (destruct (Z.eqb_spec (date_of (trip_ttime t)) date);
        destruct (Z.eqb_spec (date_of (trip_ttime t) - date) 0); lia).
  reflexivity.
Qed.

Lemma update_trip_fid_none_left (db : Database) (alter_f fid date : Z) :
  alter_f <> fid ->
  filter (fun t => (trip_fid t =? fid) && on_date date t)
         (trip (update_trip_fid db alter_f fid date)) = [].
Proof.
  intros Hne. simpl. induction (trip db) as [|t ts IH]; [reflexivity|].
  simpl. destruct ((trip_fid t =? fid) && on_date date t) eqn:E.
  - simpl. apply Z.eqb_neq in Hne. now rewrite Hne.
  - now rewrite E.
Qed.

(** X20.  After a [reroute_waste] that moved trips, the same call again
    finds no trip of the facility on the date: it returns 0 and changes
    nothing. *)
Theorem reroute_waste_twice (c c' : Connection) (fid date n : Z) :
  failed c = false ->
  reroute_waste c fid date = (c', Returned n) -> 0 < n ->
  reroute_waste c' fid date = (c', Returned 0).
Proof.
  intros Hf H Hn.
  destruct (reroute_waste_commit _ _ _ _ _ Hf H Hn) as (alter_f & rest & Ha & -> & _).
  destruct (alternate_facilities_head _ _ _ _ Ha) as (Hne & _).
  unfold reroute_waste. cbn [failed session].
  now rewrite update_trip_fid_none_left.
Qed.

Lemma reroute_waste_effect_witness :
  exists alter_f,
    alter_f <> 1
    /\ (exists f0 f,
           In f0 (facility (session (idle db_reroute))) /\ facility_fid f0 = 1
           /\ In f (facility (session (idle db_reroute)))
           /\ facility_fid f = alter_f
           /\ facility_wastetype f = facility_wastetype f0
           /\ forall f', In f' (facility (session (idle db_reroute))) ->
                         facility_wastetype f' = facility_wastetype f0 ->
                         facility_fid f' <> 1 -> alter_f <= facility_fid f')
    /\ 2 = Z.of_nat
             (List.length
                (filter (fun t => (trip_fid t =? 1) && on_date 0 t)
                        (trip (session (idle db_reroute)))))
    /\ Permutation
         (trip (committed (fst (reroute_waste (idle db_reroute) 1 0))))
         (map (fun t =>
                 if (trip_fid t =? 1) && (date_of (trip_ttime t) =? 0)
                 then mkTrip (trip_rid t) (trip_tid t) (trip_ttime t)
                             (trip_volume t) (trip_eid1 t) (trip_eid2 t)
                             alter_f
                 else t)
              (trip (session (idle db_reroute))))
    /\ committed (fst (reroute_waste (idle db_reroute) 1 0))
       = set_trip (session (idle db_reroute))
                  (trip (committed (fst (reroute_waste (idle db_reroute) 1 0)))).
Proof.
  apply (reroute_waste_effect (idle db_reroute) _ 1 0 2).
  - reflexivity.
  - reflexivity.
  - lia.
Defined.

Lemma reroute_waste_twice_witness :
  reroute_waste (fst (reroute_waste (idle db_reroute) 1 0)) 1 0
  = (fst (reroute_waste (idle db_reroute) 1 0), Returned 0).
Proof.
  apply (reroute_waste_twice (idle db_reroute) _ 1 0 2).
  - reflexivity.
  - reflexivity.
  - lia.
Defined.

(** ** The reader of the qualifications file *)

Lemma read_pairs_ind (P : list string -> Prop) :
  P [] -> (forall line, P [line]) ->
  (forall line line' rest, P rest -> P (line :: line' :: rest)) ->
  forall file, P file.
Proof.
  intros Hnil Hone Hstep file.
  assert (H : P file /\ forall line, P (line :: file)).
  { induction file as [|x file (IH1 & IH2)]; [split; auto|].
    split; [apply IH2|]. intros line. now apply Hstep. }
  apply H.
Qed.

(** X21.  When the reader returns, it returns one record for every two
    lines; a last line without its second line is dropped. *)
Theorem read_qualifications_length
        (file : list string) (result : list (string * string * string)) :
  _read_qualifications_file file = Returned result ->
  List.length result = Nat.div2 (List.length file).
Proof.
  revert result. induction file as [| line | line line' rest IH]
                                     using read_pairs_ind;
    intros result; simpl.
  - now intros [= <-].
  - destruct (last_two _) as [|f [|l [|x xs]]]; try discriminate.
    now intros [= <-].
  - destruct (last_two _) as [|f [|l [|x xs]]]; try discriminate.
    destruct (_read_qualifications_file rest) as [r|]; [|discriminate].
    intros [= <-]. simpl. f_equal. now apply IH.
Qed.

Lemma read_qualifications_length_witness :
  List.length [entry "Bob" "Ray" "B"] = Nat.div2 (List.length sample_file).
Proof.
  apply (read_qualifications_length sample_file). reflexivity.
Defined.

Lemma split_space_cons (s : string) :
  exists w ws, split_space s = w :: ws.
Proof.
  destruct s as [|ch rest]; simpl; [eauto|].
  destruct (Ascii.eqb ch " "); [eauto|].
  destruct (split_space rest); eauto.
Qed.

Lemma split_space_length (s : string) :
  (2 <= List.length (split_space s))%nat <-> has_space s = true.
Proof.
  induction s as [|ch rest IH]; simpl.
  - split; [lia|discriminate].
  - destruct (Ascii.eqb ch " "); simpl.
    + destruct (split_space_cons rest) as (w & ws & ->). simpl.
      split; [reflexivity|lia].
    + destruct (split_space_cons rest) as (w & ws & E). rewrite E in *.
      exact IH.
Qed.

Lemma last_two_pair {A : Type} (l : list A) :
  (exists a b, last_two l = [a; b]) <-> (2 <= List.length l)%nat.
Proof.
  unfold last_two. split.
  - intros (a & b & E).
    assert (H : List.length (skipn (List.length l - 2) l) = 2%nat)
      by now rewrite E.
    rewrite length_skipn in H. lia.
  - intros H.
    assert (Hl : List.length (skipn (List.length l - 2) l) = 2%nat)
      by (rewrite length_skipn; lia).
    destruct (skipn (List.length l - 2) l) as [|a [|b [|x xs]]];
      try discriminate. eauto.
Qed.

(** X22.  The reader raises exactly when some line at an even position
    (a name line) holds no space once stripped. *)
Theorem read_qualifications_raises (file : list string) :
  _read_qualifications_file file = Raised <->
  exists k line, nth_error file (2 * k) = Some line
                 /\ has_space (strip line) = false.
Proof.
  induction file as [| line | line line' rest IH] using read_pairs_ind.
  - simpl. split; [discriminate|]. intros (k & line & H & _).
    now rewrite nth_error_nil in H.
  - simpl. split.
    + intros H. exists 0%nat, line. split; [reflexivity|].
      destruct (has_space (strip line)) eqn:E; [|reflexivity].
      apply split_space_length, last_two_pair in E.
      destruct E as (a & b & E). now rewrite E in H.
    + intros (k & l & Hk & Hs). destruct k as [|k].
      * simpl in Hk. injection Hk as <-.
        destruct (last_two (split_space (strip line)))
          as [|a [|b [|x xs]]] eqn:E; try reflexivity.
        assert (has_space (strip line) = true); [|congruence].
        apply split_space_length, last_two_pair. eauto.
      * replace (2 * S k)%nat with (S (S (2 * k))) in Hk by lia.
        simpl in Hk. now rewrite nth_error_nil in Hk.
  - cbn [_read_qualifications_file]. split.
    + intros H.
      destruct (has_space (strip line)) eqn:E.
      * apply split_space_length, last_two_pair in E.
        destruct E as (a & b & E). rewrite E in H.
        destruct (_read_qualifications_file rest) as [r|] eqn:Er;
          [discriminate|].
        destruct (proj1 IH eq_refl) as (k & l & Hk & Hs).
        exists (S k), l. split; [|assumption].
        replace (2 * S k)%nat with (S (S (2 * k))) by lia. exact Hk.
      * exists 0%nat, line. split; [reflexivity|assumption].
    + intros (k & l & Hk & Hs). destruct k as [|k].
      * simpl in Hk. injection Hk as <-.
        destruct (last_two (split_space (strip line)))
          as [|a [|b [|x xs]]] eqn:E; try reflexivity.
        assert (has_space (strip line) = true); [|congruence].
        apply split_space_length, last_two_pair. eauto.
      * replace (2 * S k)%nat with (S (S (2 * k))) in Hk by lia.
        simpl in Hk.
        assert (Hr : _read_qualifications_file rest = Raised)
          by (apply IH; exists k, l; split; [exact Hk|assumption]).
        rewrite Hr. now destruct (last_two _) as [|a [|b [|x xs]]].
Qed.















